(** * edi-835-parser: a shallow embedding of the parser and its projections

    The development follows the layout of the Python package:
    - [Py]          the Python primitives the package relies on
                    ([str.split], [str.strip], [str.replace], list indexing,
                    exceptions);
    - [Preprocess]  [edi_835_parser/__init__.py]: [preprocess_edi_content];
    - [Elements]    [elements/contact_function_code.py],
                    [elements/communication_qualifier.py];
    - [Segments]    [segments/trace.py], [segments/contact.py];
    - [Json]        [TransactionSet.to_json] and its [_convert_*] helpers;
    - [Assembler]   [TransactionSet.build], [build_attribute], the
                    [payer]/[payee] accessors, [serialize_service] and
                    [to_dataframe];
    - [Discovery]   [_find_edi_835_files] and the path selection of
                    [parse_to_json].

    A Python [str] is modelled by [string]: a sequence of characters whose
    code points lie below 256. *)

From stdpp Require Import base list strings gmap.
From Stdlib Require Import Ascii String DecimalString.

Local Open Scope string_scope.
Local Open Scope list_scope.

(** ** Python primitives *)
Module Py.

(** The exceptions that the modelled code can raise. *)
Inductive exn : Type :=
| IndexError
| AssertionError
| AttributeError
| FileNotFoundError
| UnboundLocalError
| ValueError (msg : string)
| OtherError (msg : string).

(** A computation that returns a value or raises. *)
Inductive result (A : Type) : Type :=
| Ok (a : A)
| Raise (e : exn).
Arguments Ok {A} a.
Arguments Raise {A} e.

Definition bind {A B : Type} (m : result A) (k : A -> result B) : result B :=
  match m with
  | Ok a => k a
  | Raise e => Raise e
  end.

Notation "'let*' x ':=' m 'in' k" := (bind m (fun x => k))
  (at level 10, x name, m at level 100, k at level 200).

(** [lst[i]] for a non-negative literal index: raises [IndexError] out of
    range. *)
Definition index {A : Type} (l : list A) (i : nat) : result A :=
  match l !! i with
  | Some a => Ok a
  | None => Raise IndexError
  end.

(** [c in s] for a one-character string [c]. *)
Fixpoint occurs (c : ascii) (s : string) : bool :=
  match s with
  | EmptyString => false
  | String c' s' => Ascii.eqb c' c || occurs c s'
  end.

(** [s.replace(old, new)] where [old] is one character: every occurrence is
    replaced, left to right. *)
Fixpoint replace (old : ascii) (new : string) (s : string) : string :=
  match s with
  | EmptyString => EmptyString
  | String c s' =>
      if Ascii.eqb c old then new +:+ replace old new s'
      else String c (replace old new s')
  end.

(** [s.split(sep)] where [sep] is one character.  The result is never empty:
    [''.split(sep) == ['']]. *)
Fixpoint split (sep : ascii) (s : string) : list string :=
  match s with
  | EmptyString => [EmptyString]
  | String c s' =>
      if Ascii.eqb c sep then EmptyString :: split sep s'
      else match split sep s' with
           | [] => [String c EmptyString]
           | w :: ws => String c w :: ws
           end
  end.

(** [str.isspace] on one character: the white space of Python's [str] among
    the code points below 256 (tab to carriage return, the four information
    separators, space, next-line and no-break space). *)
Definition isspace (c : ascii) : bool :=
  let n := nat_of_ascii c in
  ((9 <=? n) && (n <=? 13) || (28 <=? n) && (n <=? 32)
   || (n =? 133) || (n =? 160))%nat.

Fixpoint lstrip (s : string) : string :=
  match s with
  | EmptyString => EmptyString
  | String c s' => if isspace c then lstrip s' else s
  end.

Fixpoint rstrip (s : string) : string :=
  match s with
  | EmptyString => EmptyString
  | String c s' =>
      match rstrip s' with
      | EmptyString => if isspace c then EmptyString else String c EmptyString
      | r => String c r
      end
  end.

(** [s.strip()] *)
Definition strip (s : string) : string := rstrip (lstrip s).

(** Truth value of a [str]: the empty string is false. *)
Definition truthy (s : string) : bool :=
  match s with
  | EmptyString => false
  | String _ _ => true
  end.

(** [s.endswith(suffix)] *)
Definition endswith (s suffix : string) : bool :=
  let n := String.length s in
  let k := String.length suffix in
  (k <=? n)%nat && String.eqb (substring (n - k) k s) suffix.

(** A [dict] with [str] keys, in insertion order. *)
Definition dict (V : Type) : Type := list (string * V).

(** [d.get(key)]: the first (and only) entry for [key]. *)
Fixpoint dict_get {V : Type} (key : string) (d : dict V) : option V :=
  match d with
  | [] => None
  | (k, v) :: d' => if String.eqb k key then Some v else dict_get key d'
  end.

(** [d[key] = value]: the entry is overwritten in place when [key] is
    present, and added at the end otherwise. *)
Fixpoint dict_set {V : Type} (key : string) (value : V) (d : dict V) : dict V :=
  match d with
  | [] => [(key, value)]
  | (k, v) :: d' =>
      if String.eqb k key then (k, value) :: d'
      else (k, v) :: dict_set key value d'
  end.

(** The value stored under [key] replaced by its image under [f]; used for
    the in-place mutation of an object held in a dict. *)
Fixpoint dict_alter {V : Type} (f : V -> V) (key : string) (d : dict V) : dict V :=
  match d with
  | [] => []
  | (k, v) :: d' =>
      if String.eqb k key then (k, f v) :: d'
      else (k, v) :: dict_alter f key d'
  end.

(** [key in d] *)
Definition dict_in {V : Type} (key : string) (d : dict V) : bool :=
  match dict_get key d with
  | Some _ => true
  | None => false
  end.

(** [str(n)] for a non-negative [int]. *)
Definition str_of_nat (n : nat) : string :=
  NilEmpty.string_of_uint (Nat.to_uint n).

(** A value that is a [str] or [None]. *)
Definition pystr : Type := option string.

(** [d.get(key, default)] for a dict of strings whose keys are strings; a
    [None] key is in no such dict. *)
Definition dict_get_default (d : dict string) (key : pystr) (default : pystr)
  : pystr :=
  match key with
  | Some k =>
      match dict_get k d with
      | Some v => Some v
      | None => default
      end
  | None => default
  end.

End Py.

(** ** [edi_835_parser/__init__.py]: input normalisation *)
Module Preprocess.
Import Py.

(** The control characters of a non-standard document. *)
Definition GS : ascii := "029".
Definition RS : ascii := "030".
Definition US : ascii := "031".
Definition LF : ascii := "010".

Definition preprocess_edi_content (content : string) : string :=
  let processed_content := content in
  let processed_content := replace GS "*" processed_content in
  let processed_content := replace RS "~" processed_content in
  let processed_content := replace LF "" processed_content in
  let processed_content := replace US ":" processed_content in
  processed_content.

(** [any(char in content for char in ['\x1d', '\x1e', '\x1f'])] *)
Definition needs_preprocessing (content : string) : bool :=
  existsb (fun char => occurs char content) [GS; RS; US].

(** The tokenizer of [TransactionSet.to_json]: the records of the file
    content it reads. *)
Definition to_json_segments (file_content : string) : list string :=
  let segments :=
    if needs_preprocessing file_content
    then split ":" (preprocess_edi_content file_content)
    else split "~" file_content in
  map strip (filter (fun segment => truthy (strip segment)) segments).

(** The tokenizer of [TransactionSet.build]. *)
Definition build_segments (file : string) : list string :=
  map strip (split "~" file).

(** The normalisation as the specification words it: one pass that maps a
    group separator to the field separator, a record separator to the token
    terminator, a unit separator to the alternate token terminator, and drops
    line breaks. *)
Fixpoint standard_equivalent (content : string) : string :=
  match content with
  | EmptyString => EmptyString
  | String c rest =>
      if Ascii.eqb c GS then String "*" (standard_equivalent rest)
      else if Ascii.eqb c RS then String "~" (standard_equivalent rest)
      else if Ascii.eqb c US then String ":" (standard_equivalent rest)
      else if Ascii.eqb c LF then standard_equivalent rest
      else String c (standard_equivalent rest)
  end.

End Preprocess.


(** ** Parts of the package that the modelled files import *)
Module SpecModel.
Import Py.

(** Modelled from the spec: [split_segment] of [segments/utilities.py].
    A record is split on the field separator, [*] by default, into its
    ordered raw fields, field 0 being the leading tag. *)
Definition split_segment (segment : string) : list string :=
  split "*" segment.

(** Modelled from the spec: [find_identifier] of [segments/utilities.py].
    The leading tag of a record is its field 0. *)
Definition find_identifier (segment : string) : string :=
  match split_segment segment with
  | [] => ""
  | tag :: _ => tag
  end.

(** Modelled from the spec: [get_element] of [segments/utilities.py].
    A missing trailing field resolves to an explicit absent value, never an
    error. *)
Definition get_element (segment : list string) (index : nat) : pystr :=
  segment !! index.

(** Modelled from the spec: the [parser] of the [Identifier] element of
    [elements/identifier.py], a passthrough string. *)
Definition Identifier_parser (value : pystr) : pystr := value.

End SpecModel.

(** ** [elements/contact_function_code.py], [elements/communication_qualifier.py] *)
Module Elements.
Import Py.

Definition contact_function_codes : dict string :=
  [ ("BL", "billing contact");
    ("CX", "correspondence contact");
    ("IC", "information contact");
    ("TE", "technical contact") ].

Definition ContactFunctionCode_parser (value : pystr) : pystr :=
  dict_get_default contact_function_codes value value.

Definition communication_qualifiers : dict string :=
  [ ("TE", "telephone");
    ("FX", "facsimile");
    ("UR", "uniform resource locator (URL)");
    ("EM", "electronic mail");
    ("EX", "telephone extension") ].

Definition CommunicationQualifier_parser (value : pystr) : pystr :=
  dict_get_default communication_qualifiers value value.

End Elements.

(** ** [segments/trace.py], [segments/contact.py] *)
Module Segments.
Import Py Elements.

Record Trace : Type := {
  trace_segment : string;
  trace_identifier : pystr;
  trace_type : string;
  trace_number : string;
  entity_identifier : pystr
}.

Record Contact : Type := {
  contact_segment : string;
  contact_identifier : pystr;
  contact_function_code : pystr;
  name : pystr;
  communication_number_qualifier : pystr;
  communication_number : pystr;
  communication_number_qualifier_2 : pystr;
  communication_number_2 : pystr
}.

Section Constructors.
(** The helpers of [segments/utilities.py] and the [Identifier] element
    are imported by these files. *)
Variable split_segment : string -> list string.
Variable get_element : list string -> nat -> pystr.
Variable Identifier_parser : pystr -> pystr.

(** [Trace.__init__].  An attribute bound to an element descriptor stores
    the descriptor's [parser] applied to the assigned value. *)
Definition Trace_init (segment : string) : result Trace :=
  let self_segment := segment in
  let segment := split_segment segment in
  let* f0 := index segment 0 in
  let* f1 := index segment 1 in
  let* f2 := index segment 2 in
  let* f3 :=
    if (3 <? List.length segment)%nat
    then (let* v := index segment 3 in Ok (Some v))
    else Ok None in
  Ok {| trace_segment := self_segment;
        trace_identifier := Identifier_parser (Some f0);
        trace_type := f1;
        trace_number := f2;
        entity_identifier := f3 |}.

(** [x != ''] for a value that is a string or [None]. *)
Definition ne_empty (x : pystr) : bool :=
  match x with
  | Some EmptyString => false
  | _ => true
  end.

(** [Contact.__init__] *)
Definition Contact_init (segment : string) : result Contact :=
  let self_segment := segment in
  let segment := split_segment segment in
  let* f0 := index segment 0 in
  let* f1 := index segment 1 in
  Ok {| contact_segment := self_segment;
        contact_identifier := Identifier_parser (Some f0);
        contact_function_code := ContactFunctionCode_parser (Some f1);
        name := if ne_empty (get_element segment 2)
                then get_element segment 2 else None;
        communication_number_qualifier :=
          CommunicationQualifier_parser (get_element segment 3);
        communication_number := get_element segment 4;
        communication_number_qualifier_2 :=
          CommunicationQualifier_parser (get_element segment 5);
        communication_number_2 := get_element segment 6 |}.

End Constructors.

End Segments.

(** ** [TransactionSet.to_json]: the hierarchical view *)
Module Json.
Import Py.

(** The values [to_json] builds: [None], strings, lists and dicts. *)
#[warnings="-register-all"]
Inductive json : Type :=
| JNone
| JStr (s : string)
| JList (items : list json)
| JDict (entries : dict json).

(** [to_json] keeps, next to [json_data], variables that alias dicts it has
    already stored inside [json_data] and mutates them in place.  Such a
    variable is modelled by a reference: the access path of the aliased
    object from [json_data].  Objects are only ever appended to lists, so an
    access path keeps denoting the same object. *)
Inductive sel : Type :=
| Key (k : string)
| Idx (i : nat).

#[global] Instance sel_eq_dec : EqDecision sel.
Proof. solve_decision. Defined.

Definition ref : Type := list sel.

Definition child (s : sel) (j : json) : option json :=
  match s, j with
  | Key k, JDict d => dict_get k d
  | Idx i, JList l => l !! i
  | _, _ => None
  end.

(** The object a reference denotes. *)
Fixpoint get (r : ref) (j : json) : option json :=
  match r with
  | [] => Some j
  | s :: r' =>
      match child s j with
      | Some j' => get r' j'
      | None => None
      end
  end.

(** In-place mutation, by [f], of the object a reference denotes. *)
Fixpoint modify (r : ref) (f : json -> json) (j : json) : json :=
  match r with
  | [] => f j
  | s :: r' =>
      match s, j with
      | Key k, JDict d => JDict (dict_alter (modify r' f) k d)
      | Idx i, JList l => JList (alter (modify r' f) i l)
      | _, _ => j
      end
  end.

(** [obj[key] = value] *)
Definition store (key : string) (value : json) (obj : json) : json :=
  match obj with
  | JDict d => JDict (dict_set key value d)
  | _ => obj
  end.

Definition set_item (r : ref) (key : string) (value : json) (j : json) : json :=
  modify r (store key value) j.

Definition push (value : json) (lst : json) : json :=
  match lst with
  | JList items => JList (items ++ [value])
  | _ => lst
  end.

(** [obj[key].append(value)].  Every list [to_json] appends to without a
    membership test is a key of the dict display that created [obj]. *)
Definition append (r : ref) (key : string) (value : json) (j : json) : json :=
  modify (r ++ [Key key]) (push value) j.

(** [len(obj[key])] *)
Definition len_of (r : ref) (key : string) (j : json) : nat :=
  match get (r ++ [Key key]) j with
  | Some (JList items) => List.length items
  | _ => 0
  end.

(** [key in obj] *)
Definition has_key (key : string) (obj : json) : bool :=
  match obj with
  | JDict d => dict_in key d
  | _ => false
  end.

(** The guarded append of [to_json], on the object itself:
    [if key not in obj: obj[key] = []] then [obj[key].append(value)]. *)
Definition guarded_append (key : string) (value : json) (obj : json) : json :=
  let obj := if negb (has_key key obj) then store key (JList []) obj else obj in
  modify [Key key] (push value) obj.

(** The guarded append through the variable that aliases the object. *)
Definition attach (r : ref) (key : string) (value : json) (j : json) : json :=
  modify r (guarded_append key value) j.

(** Truth value of a [json] object. *)
Definition json_truthy (o : json) : bool :=
  match o with
  | JNone => false
  | JStr s => truthy s
  | JList items => match items with [] => false | _ => true end
  | JDict d => match d with [] => false | _ => true end
  end.

(** [cond and var] for a variable [var] holding [None] or an alias: the
    alias when [cond] holds and the aliased object is true, and a false
    value otherwise. *)
Definition and_ref (j : json) (cond : bool) (var : option ref) : option ref :=
  if cond then
    match var with
    | Some r =>
        match get r j with
        | Some o => if json_truthy o then Some r else None
        | None => None
        end
    | None => None
    end
  else None.

(** The local variables of [to_json]. *)
Record state : Type := {
  json_data : json;
  current_transaction : option ref;
  current_n1_loop : option ref;
  current_clp_loop : option ref;
  current_svc_loop : option ref
}.

Definition with_json (st : state) (j : json) : state :=
  {| json_data := j;
     current_transaction := current_transaction st;
     current_n1_loop := current_n1_loop st;
     current_clp_loop := current_clp_loop st;
     current_svc_loop := current_svc_loop st |}.

Definition initial_state : state :=
  {| json_data :=
       JDict [ ("interchange",
                JDict [ ("ISA", JNone);
                        ("GS", JNone);
                        ("transactions", JList []);
                        ("GE", JNone);
                        ("IEA", JNone) ]) ];
     current_transaction := None;
     current_n1_loop := None;
     current_clp_loop := None;
     current_svc_loop := None |}.

Definition interchange : ref := [Key "interchange"].

(** [parts[i] if len(parts) > i else ""] *)
Definition field (parts : list string) (i : nat) : json :=
  JStr (if (i <? List.length parts)%nat then nth i parts "" else "").

(** The record catalog of [to_json]: for each tag, the names of the fields
    1, 2, ... of its records, as the dict displays of the [_convert_*]
    helpers list them. *)
Definition isa_fields : list string :=
  [ "authorization_information_qualifier";
    "authorization_information";
    "security_information_qualifier";
    "security_information";
    "interchange_sender_id_qualifier";
    "interchange_sender_id";
    "interchange_receiver_id_qualifier";
    "interchange_receiver_id";
    "interchange_date";
    "interchange_time";
    "interchange_control_standards_identifier";
    "interchange_control_version_number";
    "interchange_control_number";
    "acknowledgement_requested";
    "usage_indicator";
    "component_element_separator" ].

Definition gs_fields : list string :=
  [ "functional_identifier_code";
    "application_sender_code";
    "application_receiver_id";
    "date";
    "time";
    "group_control_number";
    "responsible_agency_code";
    "version_release_industry_identifier" ].

Definition st_fields : list string :=
  [ "transaction_set_identifier_code";
    "transaction_set_control_number" ].

Definition bpr_fields : list string :=
  [ "transaction_handling_code";
    "monetary_amount";
    "credit_debit_flag";
    "payment_method_code";
    "payment_format_code";
    "dfi_id_number_qualifier";
    "dfi_identification_number";
    "account_number_qualifier";
    "sender_bank_account_number";
    "originating_company_identifier";
    "originating_company_supplemental_code";
    "dfi_identification_number_qualifier";
    "receiver_or_provider_bank_id_number";
    "account_number_qualifier_2";
    "receiver_or_provider_account_number";
    "check_issue_or_eft_effective_date" ].

Definition trn_fields : list string :=
  [ "trace_type_code";
    "reference_identification";
    "originating_company_identifier";
    "originating_company_supplemental_code" ].

Definition dtm_fields : list string :=
  [ "date_time_qualifier";
    "date";
    "time";
    "time_code";
    "date_time_period_format";
    "date_time_period" ].

Definition n1_fields : list string :=
  [ "entity_identifier_code";
    "name";
    "identification_code_qualifier";
    "identification_code" ].

Definition n3_fields : list string :=
  [ "address_line_1";
    "address_line_2" ].

Definition n4_fields : list string :=
  [ "city_name";
    "state_code";
    "postal_code";
    "country_code";
    "location_qualifier";
    "location_identifier" ].

Definition per_fields : list string :=
  [ "contact_function_code";
    "contact_name";
    "communication_number_qualifier_1";
    "communication_number_1";
    "communication_number_qualifier_2";
    "communication_number_2";
    "communication_number_qualifier_3";
    "communication_number_3";
    "contact_inquiry_reference" ].

Definition ref_fields : list string :=
  [ "reference_identification_qualifier";
    "reference_identification";
    "description";
    "reference_identifier" ].

Definition clp_fields : list string :=
  [ "patient_control_number";
    "claim_status_code";
    "total_claim_charge_amount";
    "total_claim_payment_amount";
    "patient_responsibility_amount";
    "claim_filing_indicator_code";
    "payer_claim_control_number";
    "facility_type_code";
    "claim_frequency_code";
    "patient_status_code";
    "diagnosis_related_group_code";
    "drg_weight";
    "discharge_fraction" ].

Definition cas_fields : list string :=
  [ "claim_adjustment_group_code";
    "adjustment_reason_code";
    "adjustment_amount";
    "adjustment_quantity";
    "adjustment_reason_code_2";
    "adjustment_amount_2";
    "adjustment_quantity_2";
    "adjustment_reason_code_3";
    "adjustment_amount_3";
    "adjustment_quantity_3";
    "adjustment_reason_code_4";
    "adjustment_amount_4";
    "adjustment_quantity_4";
    "adjustment_reason_code_5";
    "adjustment_amount_5";
    "adjustment_quantity_5";
    "adjustment_reason_code_6";
    "adjustment_amount_6";
    "adjustment_quantity_6" ].

Definition nm1_fields : list string :=
  [ "entity_identifier_code";
    "entity_type_qualifier";
    "last_name";
    "first_name";
    "middle_name";
    "name_prefix";
    "name_suffix";
    "identification_code_qualifier";
    "identification_code";
    "entity_relationship_code";
    "entity_identifier_code_2";
    "identification_code_qualifier_2" ].

Definition amt_fields : list string :=
  [ "amount_qualifier_code";
    "monetary_amount";
    "credit_debit_flag_code" ].

Definition svc_fields : list string :=
  [ "service_type_code";
    "charge_amount";
    "payment_amount";
    "revenue_code";
    "units_of_service_paid";
    "original_units_of_service";
    "adjudicated_date" ].

Definition plb_fields : list string :=
  [ "provider_identifier";
    "fiscal_period_date";
    "provider_adjustment_identifier";
    "provider_adjustment_amount";
    "provider_adjustment_identifier_2";
    "provider_adjustment_amount_2" ].

Definition se_fields : list string :=
  [ "number_of_included_segments";
    "transaction_set_control_number" ].

Definition ge_fields : list string :=
  [ "number_of_transaction_sets_included";
    "group_control_number" ].

Definition iea_fields : list string :=
  [ "number_of_included_functional_groups";
    "interchange_control_number" ].

(** The dict of a record with the given field names: field [i + 1] of the
    record under the [i]-th name. *)
Definition record_fields (names : list string) (parts : list string) : dict json :=
  imap (fun i name => (name, field parts (S i))) names.

(** The references to the loops of a document. *)
Definition txn_ref (t : nat) : ref := interchange ++ [Key "transactions"; Idx t].
Definition n1_ref (t n : nat) : ref := txn_ref t ++ [Key "N1_loop"; Idx n].
Definition clp_ref (t c : nat) : ref := txn_ref t ++ [Key "CLP_loop"; Idx c].
Definition svc_ref (t c s : nat) : ref := clp_ref t c ++ [Key "SVC_loop"; Idx s].

(** The keys under which [to_json] stores loops, and the references that go
    through such keys only. *)
Definition loop_keys : list string :=
  ["interchange"; "transactions"; "N1_loop"; "CLP_loop"; "SVC_loop"].

Definition loop_ref (r : ref) : Prop :=
  Forall (fun s => match s with Key k => k ∈ loop_keys | Idx _ => True end) r.

(** [j'] keeps every loop of [j] in its place. *)
Definition extends (j j' : json) : Prop :=
  forall r, loop_ref r -> is_Some (get r j) -> is_Some (get r j').

(** The list [obj[key]] of the object a reference denotes; empty when the
    object has no such key. *)
Definition items (r : ref) (key : string) (j : json) : list json :=
  match get (r ++ [Key key]) j with
  | Some (JList l) => l
  | _ => []
  end.

Section ToJson.
(** [split_segment] of [segments/utilities.py]. *)
Variable split_segment : string -> list string.

Definition _convert_isa_segment (segment : string) : json :=
  let parts := split_segment segment in
  JDict
    [ ("authorization_information_qualifier", field parts 1);
      ("authorization_information", field parts 2);
      ("security_information_qualifier", field parts 3);
      ("security_information", field parts 4);
      ("interchange_sender_id_qualifier", field parts 5);
      ("interchange_sender_id", field parts 6);
      ("interchange_receiver_id_qualifier", field parts 7);
      ("interchange_receiver_id", field parts 8);
      ("interchange_date", field parts 9);
      ("interchange_time", field parts 10);
      ("interchange_control_standards_identifier", field parts 11);
      ("interchange_control_version_number", field parts 12);
      ("interchange_control_number", field parts 13);
      ("acknowledgement_requested", field parts 14);
      ("usage_indicator", field parts 15);
      ("component_element_separator", field parts 16) ].

Definition _convert_gs_segment (segment : string) : json :=
  let parts := split_segment segment in
  JDict
    [ ("functional_identifier_code", field parts 1);
      ("application_sender_code", field parts 2);
      ("application_receiver_id", field parts 3);
      ("date", field parts 4);
      ("time", field parts 5);
      ("group_control_number", field parts 6);
      ("responsible_agency_code", field parts 7);
      ("version_release_industry_identifier", field parts 8) ].

Definition _convert_st_segment (segment : string) : json :=
  let parts := split_segment segment in
  JDict
    [ ("transaction_set_identifier_code", field parts 1);
      ("transaction_set_control_number", field parts 2) ].

Definition _convert_bpr_segment (segment : string) : json :=
  let parts := split_segment segment in
  JDict
    [ ("transaction_handling_code", field parts 1);
      ("monetary_amount", field parts 2);
      ("credit_debit_flag", field parts 3);
      ("payment_method_code", field parts 4);
      ("payment_format_code", field parts 5);
      ("dfi_id_number_qualifier", field parts 6);
      ("dfi_identification_number", field parts 7);
      ("account_number_qualifier", field parts 8);
      ("sender_bank_account_number", field parts 9);
      ("originating_company_identifier", field parts 10);
      ("originating_company_supplemental_code", field parts 11);
      ("dfi_identification_number_qualifier", field parts 12);
      ("receiver_or_provider_bank_id_number", field parts 13);
      ("account_number_qualifier_2", field parts 14);
      ("receiver_or_provider_account_number", field parts 15);
      ("check_issue_or_eft_effective_date", field parts 16) ].

Definition _convert_trn_segment (segment : string) : json :=
  let parts := split_segment segment in
  JDict
    [ ("trace_type_code", field parts 1);
      ("reference_identification", field parts 2);
      ("originating_company_identifier", field parts 3);
      ("originating_company_supplemental_code", field parts 4) ].

Definition _convert_dtm_segment (segment : string) : json :=
  let parts := split_segment segment in
  JDict
    [ ("date_time_qualifier", field parts 1);
      ("date", field parts 2);
      ("time", field parts 3);
      ("time_code", field parts 4);
      ("date_time_period_format", field parts 5);
      ("date_time_period", field parts 6) ].

Definition _convert_n1_segment (segment : string) : json :=
  let parts := split_segment segment in
  JDict
    [ ("entity_identifier_code", field parts 1);
      ("name", field parts 2);
      ("identification_code_qualifier", field parts 3);
      ("identification_code", field parts 4) ].

Definition _convert_n3_segment (segment : string) : json :=
  let parts := split_segment segment in
  JDict
    [ ("address_line_1", field parts 1);
      ("address_line_2", field parts 2) ].

Definition _convert_n4_segment (segment : string) : json :=
  let parts := split_segment segment in
  JDict
    [ ("city_name", field parts 1);
      ("state_code", field parts 2);
      ("postal_code", field parts 3);
      ("country_code", field parts 4);
      ("location_qualifier", field parts 5);
      ("location_identifier", field parts 6) ].

Definition _convert_per_segment (segment : string) : json :=
  let parts := split_segment segment in
  JDict
    [ ("contact_function_code", field parts 1);
      ("contact_name", field parts 2);
      ("communication_number_qualifier_1", field parts 3);
      ("communication_number_1", field parts 4);
      ("communication_number_qualifier_2", field parts 5);
      ("communication_number_2", field parts 6);
      ("communication_number_qualifier_3", field parts 7);
      ("communication_number_3", field parts 8);
      ("contact_inquiry_reference", field parts 9) ].

Definition _convert_ref_segment (segment : string) : json :=
  let parts := split_segment segment in
  JDict
    [ ("reference_identification_qualifier", field parts 1);
      ("reference_identification", field parts 2);
      ("description", field parts 3);
      ("reference_identifier", field parts 4) ].

Definition _convert_clp_segment (segment : string) : json :=
  let parts := split_segment segment in
  JDict
    [ ("patient_control_number", field parts 1);
      ("claim_status_code", field parts 2);
      ("total_claim_charge_amount", field parts 3);
      ("total_claim_payment_amount", field parts 4);
      ("patient_responsibility_amount", field parts 5);
      ("claim_filing_indicator_code", field parts 6);
      ("payer_claim_control_number", field parts 7);
      ("facility_type_code", field parts 8);
      ("claim_frequency_code", field parts 9);
      ("patient_status_code", field parts 10);
      ("diagnosis_related_group_code", field parts 11);
      ("drg_weight", field parts 12);
      ("discharge_fraction", field parts 13) ].

Definition _convert_cas_segment (segment : string) : json :=
  let parts := split_segment segment in
  JDict
    [ ("claim_adjustment_group_code", field parts 1);
      ("adjustment_reason_code", field parts 2);
      ("adjustment_amount", field parts 3);
      ("adjustment_quantity", field parts 4);
      ("adjustment_reason_code_2", field parts 5);
      ("adjustment_amount_2", field parts 6);
      ("adjustment_quantity_2", field parts 7);
      ("adjustment_reason_code_3", field parts 8);
      ("adjustment_amount_3", field parts 9);
      ("adjustment_quantity_3", field parts 10);
      ("adjustment_reason_code_4", field parts 11);
      ("adjustment_amount_4", field parts 12);
      ("adjustment_quantity_4", field parts 13);
      ("adjustment_reason_code_5", field parts 14);
      ("adjustment_amount_5", field parts 15);
      ("adjustment_quantity_5", field parts 16);
      ("adjustment_reason_code_6", field parts 17);
      ("adjustment_amount_6", field parts 18);
      ("adjustment_quantity_6", field parts 19) ].

Definition _convert_nm1_segment (segment : string) : json :=
  let parts := split_segment segment in
  JDict
    [ ("entity_identifier_code", field parts 1);
      ("entity_type_qualifier", field parts 2);
      ("last_name", field parts 3);
      ("first_name", field parts 4);
      ("middle_name", field parts 5);
      ("name_prefix", field parts 6);
      ("name_suffix", field parts 7);
      ("identification_code_qualifier", field parts 8);
      ("identification_code", field parts 9);
      ("entity_relationship_code", field parts 10);
      ("entity_identifier_code_2", field parts 11);
      ("identification_code_qualifier_2", field parts 12) ].

Definition _convert_amt_segment (segment : string) : json :=
  let parts := split_segment segment in
  JDict
    [ ("amount_qualifier_code", field parts 1);
      ("monetary_amount", field parts 2);
      ("credit_debit_flag_code", field parts 3) ].

Definition _convert_svc_segment (segment : string) : json :=
  let parts := split_segment segment in
  JDict
    [ ("service_type_code", field parts 1);
      ("charge_amount", field parts 2);
      ("payment_amount", field parts 3);
      ("revenue_code", field parts 4);
      ("units_of_service_paid", field parts 5);
      ("original_units_of_service", field parts 6);
      ("adjudicated_date", field parts 7) ].

Definition _convert_plb_segment (segment : string) : json :=
  let parts := split_segment segment in
  JDict
    [ ("provider_identifier", field parts 1);
      ("fiscal_period_date", field parts 2);
      ("provider_adjustment_identifier", field parts 3);
      ("provider_adjustment_amount", field parts 4);
      ("provider_adjustment_identifier_2", field parts 5);
      ("provider_adjustment_amount_2", field parts 6) ].

Definition _convert_se_segment (segment : string) : json :=
  let parts := split_segment segment in
  JDict
    [ ("number_of_included_segments", field parts 1);
      ("transaction_set_control_number", field parts 2) ].

Definition _convert_ge_segment (segment : string) : json :=
  let parts := split_segment segment in
  JDict
    [ ("number_of_transaction_sets_included", field parts 1);
      ("group_control_number", field parts 2) ].

Definition _convert_iea_segment (segment : string) : json :=
  let parts := split_segment segment in
  JDict
    [ ("number_of_included_functional_groups", field parts 1);
      ("interchange_control_number", field parts 2) ].

(** One iteration of the loop [for segment in segments] of [to_json]. *)
Definition to_json_step (st : state) (segment : string) : state :=
  if negb (truthy segment) then st else
  let parts := split_segment segment in
  let identifier := match parts with [] => "" | tag :: _ => tag end in
  let j := json_data st in
  if identifier =? "ISA" then
    with_json st (set_item interchange "ISA" (_convert_isa_segment segment) j)
  else if identifier =? "GS" then
    with_json st (set_item interchange "GS" (_convert_gs_segment segment) j)
  else if identifier =? "ST" then
    let new_transaction :=
      JDict [ ("ST", _convert_st_segment segment);
              ("BPR", JNone);
              ("TRN", JNone);
              ("DTM", JList []);
              ("N1_loop", JList []);
              ("CLP_loop", JList []);
              ("PLB", JList []);
              ("SE", JNone) ] in
    {| json_data := append interchange "transactions" new_transaction j;
       current_transaction :=
         Some (interchange ++ [Key "transactions";
                               Idx (len_of interchange "transactions" j)]);
       current_n1_loop := current_n1_loop st;
       current_clp_loop := current_clp_loop st;
       current_svc_loop := current_svc_loop st |}
  else
  match and_ref j (identifier =? "BPR") (current_transaction st) with
  | Some txn => with_json st (set_item txn "BPR" (_convert_bpr_segment segment) j)
  | None =>
  match and_ref j (identifier =? "TRN") (current_transaction st) with
  | Some txn => with_json st (set_item txn "TRN" (_convert_trn_segment segment) j)
  | None =>
  match and_ref j (identifier =? "DTM") (current_transaction st) with
  | Some txn =>
      let dtm_data := _convert_dtm_segment segment in
      match and_ref j true (current_svc_loop st) with
      | Some svc => with_json st (attach svc "DTM" dtm_data j)
      | None => with_json st (append txn "DTM" dtm_data j)
      end
  | None =>
  match and_ref j (identifier =? "N1") (current_transaction st) with
  | Some txn =>
      let new_n1_loop :=
        JDict [ ("N1", _convert_n1_segment segment);
                ("N3", JNone);
                ("N4", JNone);
                ("PER", JNone) ] in
      {| json_data := append txn "N1_loop" new_n1_loop j;
         current_transaction := current_transaction st;
         current_n1_loop :=
           Some (txn ++ [Key "N1_loop"; Idx (len_of txn "N1_loop" j)]);
         current_clp_loop := current_clp_loop st;
         current_svc_loop := current_svc_loop st |}
  | None =>
  match and_ref j (identifier =? "N3") (current_n1_loop st) with
  | Some n1 => with_json st (set_item n1 "N3" (_convert_n3_segment segment) j)
  | None =>
  match and_ref j (identifier =? "N4") (current_n1_loop st) with
  | Some n1 => with_json st (set_item n1 "N4" (_convert_n4_segment segment) j)
  | None =>
  match and_ref j (identifier =? "PER") (current_n1_loop st) with
  | Some n1 => with_json st (set_item n1 "PER" (_convert_per_segment segment) j)
  | None =>
  match and_ref j (identifier =? "REF") (current_transaction st) with
  | Some txn =>
      let ref_data := _convert_ref_segment segment in
      match and_ref j true (current_svc_loop st) with
      | Some svc => with_json st (attach svc "REF" ref_data j)
      | None =>
          match and_ref j true (current_clp_loop st) with
          | Some clp => with_json st (attach clp "REF" ref_data j)
          | None => st
          end
      end
  | None =>
  match and_ref j (identifier =? "LX") (current_transaction st) with
  | Some txn => st
  | None =>
  match and_ref j (identifier =? "CLP") (current_transaction st) with
  | Some txn =>
      let new_clp_loop :=
        JDict [ ("CLP", _convert_clp_segment segment);
                ("CAS", JList []);
                ("NM1", JList []);
                ("DTM", JList []);
                ("AMT", JList []);
                ("REF", JList []);
                ("SVC_loop", JList []) ] in
      {| json_data := append txn "CLP_loop" new_clp_loop j;
         current_transaction := current_transaction st;
         current_n1_loop := current_n1_loop st;
         current_clp_loop :=
           Some (txn ++ [Key "CLP_loop"; Idx (len_of txn "CLP_loop" j)]);
         current_svc_loop := None |}
  | None =>
  match and_ref j (identifier =? "CAS") (current_clp_loop st) with
  | Some clp =>
      match and_ref j true (current_svc_loop st) with
      | Some svc => with_json st (attach svc "CAS" (_convert_cas_segment segment) j)
      | None => with_json st (append clp "CAS" (_convert_cas_segment segment) j)
      end
  | None =>
  match and_ref j (identifier =? "NM1") (current_clp_loop st) with
  | Some clp => with_json st (append clp "NM1" (_convert_nm1_segment segment) j)
  | None =>
  match and_ref j (identifier =? "AMT") (current_clp_loop st) with
  | Some clp =>
      match and_ref j true (current_svc_loop st) with
      | Some svc => with_json st (attach svc "AMT" (_convert_amt_segment segment) j)
      | None => with_json st (append clp "AMT" (_convert_amt_segment segment) j)
      end
  | None =>
  match and_ref j (identifier =? "SVC") (current_clp_loop st) with
  | Some clp =>
      let new_svc_loop := JDict [ ("SVC", _convert_svc_segment segment) ] in
      {| json_data := append clp "SVC_loop" new_svc_loop j;
         current_transaction := current_transaction st;
         current_n1_loop := current_n1_loop st;
         current_clp_loop := current_clp_loop st;
         current_svc_loop :=
           Some (clp ++ [Key "SVC_loop"; Idx (len_of clp "SVC_loop" j)]) |}
  | None =>
  match and_ref j (identifier =? "PLB") (current_transaction st) with
  | Some txn => with_json st (append txn "PLB" (_convert_plb_segment segment) j)
  | None =>
  match and_ref j (identifier =? "SE") (current_transaction st) with
  | Some txn =>
      {| json_data := set_item txn "SE" (_convert_se_segment segment) j;
         current_transaction := None;
         current_n1_loop := None;
         current_clp_loop := None;
         current_svc_loop := None |}
  | None =>
  if identifier =? "GE" then
    with_json st (set_item interchange "GE" (_convert_ge_segment segment) j)
  else if identifier =? "IEA" then
    with_json st (set_item interchange "IEA" (_convert_iea_segment segment) j)
  else st
  end end end end end end end end end end end end end end end end.

(** The loop of [to_json] over the records it has tokenized. *)
Definition to_json_loop (segments : list string) : state :=
  fold_left to_json_step segments initial_state.

(** [TransactionSet.to_json], on the content of the file at
    [self.file_path]. *)
Definition to_json (file_content : string) : json :=
  json_data (to_json_loop (Preprocess.to_json_segments file_content)).


(** The record that [to_json] stores for a tag-ambiguous record. *)
Definition converted (tag : string) (segment : string) : json :=
  if tag =? "CAS" then _convert_cas_segment segment
  else if tag =? "DTM" then _convert_dtm_segment segment
  else if tag =? "REF" then _convert_ref_segment segment
  else _convert_amt_segment segment.

(** *** The shape of the hierarchical view *)

(** The dict of a record with the given field names. *)
Definition is_record (names : list string) (o : json) : Prop :=
  exists segment, o = JDict (record_fields names (split_segment segment)).

(** [None], or the dict of a record. *)
Definition is_optional_record (names : list string) (o : json) : Prop :=
  o = JNone \/ is_record names o.

(** The optional lists of a service loop, with the fields of their
    records. *)
Definition svc_lists : list (string * list string) :=
  [ ("DTM", dtm_fields); ("CAS", cas_fields);
    ("REF", ref_fields); ("AMT", amt_fields) ].

(** A service loop: [SVC], then some of the keys [DTM], [CAS], [REF] and
    [AMT], each at most once and with a non-empty list of records. *)
Definition is_svc_loop (o : json) : Prop :=
  exists svc lists,
    o = JDict (("SVC", svc) :: lists)
    /\ is_record svc_fields svc
    /\ NoDup lists.*1
    /\ Forall (fun entry =>
                 exists names records,
                   (entry.1, names) ∈ svc_lists
                   /\ entry.2 = JList records
                   /\ records <> []
                   /\ Forall (is_record names) records)
              lists.

Definition is_clp_loop (o : json) : Prop :=
  exists clp cas nm1 dtm amt refs svcs,
    o = JDict [ ("CLP", clp); ("CAS", JList cas); ("NM1", JList nm1);
                ("DTM", JList dtm); ("AMT", JList amt); ("REF", JList refs);
                ("SVC_loop", JList svcs) ]
    /\ is_record clp_fields clp
    /\ Forall (is_record cas_fields) cas
    /\ Forall (is_record nm1_fields) nm1
    /\ Forall (is_record dtm_fields) dtm
    /\ Forall (is_record amt_fields) amt
    /\ Forall (is_record ref_fields) refs
    /\ Forall is_svc_loop svcs.

Definition is_n1_loop (o : json) : Prop :=
  exists n1 n3 n4 per,
    o = JDict [ ("N1", n1); ("N3", n3); ("N4", n4); ("PER", per) ]
    /\ is_record n1_fields n1
    /\ is_optional_record n3_fields n3
    /\ is_optional_record n4_fields n4
    /\ is_optional_record per_fields per.

Definition is_transaction (o : json) : Prop :=
  exists st bpr trn dtm n1s clps plb se,
    o = JDict [ ("ST", st); ("BPR", bpr); ("TRN", trn); ("DTM", JList dtm);
                ("N1_loop", JList n1s); ("CLP_loop", JList clps);
                ("PLB", JList plb); ("SE", se) ]
    /\ is_record st_fields st
    /\ is_optional_record bpr_fields bpr
    /\ is_optional_record trn_fields trn
    /\ Forall (is_record dtm_fields) dtm
    /\ Forall is_n1_loop n1s
    /\ Forall is_clp_loop clps
    /\ Forall (is_record plb_fields) plb
    /\ is_optional_record se_fields se.

Definition is_document (j : json) : Prop :=
  exists isa gs txns ge iea,
    j = JDict [ ("interchange",
                 JDict [ ("ISA", isa); ("GS", gs);
                         ("transactions", JList txns);
                         ("GE", ge); ("IEA", iea) ]) ]
    /\ is_optional_record isa_fields isa
    /\ is_optional_record gs_fields gs
    /\ Forall is_transaction txns
    /\ is_optional_record ge_fields ge
    /\ is_optional_record iea_fields iea.

(** The variables of [to_json] alias loops of [json_data]: the open
    service belongs to the open claim, and a claim is open only while a
    transaction is. *)
Definition refs_valid (st : state) : Prop :=
  let j := json_data st in
  (forall r, current_transaction st = Some r ->
             exists t, r = txn_ref t /\ is_Some (get r j))
  /\ (forall r, current_n1_loop st = Some r ->
                exists t n, r = n1_ref t n /\ is_Some (get r j))
  /\ (forall r, current_clp_loop st = Some r ->
                (exists t c, r = clp_ref t c /\ is_Some (get r j))
                /\ is_Some (current_transaction st))
  /\ (forall r, current_svc_loop st = Some r ->
                exists t c s, r = svc_ref t c s /\ is_Some (get r j)
                              /\ current_clp_loop st = Some (clp_ref t c)).

(** The leading tag of a record, as [to_json] reads it:
    [parts[0] if parts else ""]. *)
Definition identifier_of (segment : string) : string :=
  match split_segment segment with
  | [] => ""
  | tag :: _ => tag
  end.

(** What holds of the variables of [to_json] between two records. *)
Definition invariant (st : state) : Prop :=
  is_document (json_data st) /\ refs_valid st.

End ToJson.

End Json.

(** ** [transaction_set/transaction_set.py]: the assembler and the flattening view *)
Module Assembler.
Import Py.

(** The classes of [loops/] and [segments/], the [Identifier] element and
    the helpers of [segments/utilities.py] that [transaction_set.py] and
    [__init__.py] import, with the attributes that are read from them.  [V] is
    the type of the attribute values that end up in a row of the flattened
    view. *)
Class Imports : Type := {
  InterchangeSegment : Type;
  FinancialInformationSegment : Type;
  OrganizationLoop : Type;
  ClaimLoop : Type;
  ServiceLoop : Type;
  DateSegment : Type;
  NameSegment : Type;
  AdjustmentSegment : Type;
  ReferenceSegment : Type;
  RemarkSegment : Type;
  V : Type;

  split_segment : string -> list string;
  find_identifier : string -> string;
  Identifier_parser : pystr -> pystr;

  InterchangeSegment_identification : string;
  FinancialInformationSegment_identification : string;
  OrganizationLoop_initiating_identifier : string;
  ClaimLoop_initiating_identifier : string;
  InterchangeSegment_init : string -> result InterchangeSegment;
  FinancialInformationSegment_init :
    string -> result FinancialInformationSegment;
  (** A loop builder receives the initiating record and the iterator, and
      returns the loop, the iterator ([None] once it is exhausted) and the
      record it has read but not used.  The iterator is modelled by the
      list of the records it has yet to yield. *)
  OrganizationLoop_build :
    string -> list string ->
    result (OrganizationLoop * option (list string) * option string);
  ClaimLoop_build :
    string -> list string ->
    result (ClaimLoop * option (list string) * option string);

  (** [o.organization.type] and [o.organization.name] *)
  organization_type : OrganizationLoop -> pystr;
  organization_name : OrganizationLoop -> option V;
  (** [financial_information.transaction_date] *)
  transaction_date : FinancialInformationSegment -> option V;
  (** Attributes of a claim loop: [claim.services],
      [claim.claim_statement_period_start], [claim.claim.marker], ... *)
  claim_services : ClaimLoop -> list ServiceLoop;
  claim_statement_period_start : ClaimLoop -> option DateSegment;
  claim_statement_period_end : ClaimLoop -> option DateSegment;
  claim_marker : ClaimLoop -> option V;
  claim_icn : ClaimLoop -> option V;
  claim_patient_name : ClaimLoop -> option V;
  claim_rendering_provider : ClaimLoop -> option NameSegment;
  claim_status_payer_classification_str : ClaimLoop -> option V;
  claim_status_was_forwarded : ClaimLoop -> option V;
  name_of : NameSegment -> option V;
  date_of : DateSegment -> option V;
  (** Attributes of a service loop. *)
  service_period_start : ServiceLoop -> option DateSegment;
  service_period_end : ServiceLoop -> option DateSegment;
  service_code : ServiceLoop -> option V;
  service_modifier : ServiceLoop -> option V;
  service_qualifier : ServiceLoop -> option V;
  service_allowed_units : ServiceLoop -> option V;
  service_billed_units : ServiceLoop -> option V;
  service_charge_amount : ServiceLoop -> option V;
  service_allowed_amount : ServiceLoop -> option V;
  service_paid_amount : ServiceLoop -> option V;
  service_adjustments : ServiceLoop -> list AdjustmentSegment;
  service_references : ServiceLoop -> list ReferenceSegment;
  service_remarks : ServiceLoop -> list RemarkSegment;
  adjustment_group_code : AdjustmentSegment -> option V;
  adjustment_reason_code : AdjustmentSegment -> option V;
  adjustment_amount : AdjustmentSegment -> option V;
  reference_qualifier_code : ReferenceSegment -> option V;
  reference_value : ReferenceSegment -> option V;
  remark_qualifier_code : RemarkSegment -> option V;
  remark_code : RemarkSegment -> option V
}.

Section TransactionSet.
Context `{Imports}.

(** A value of a row: [None] or an attribute value. *)
Definition cell : Type := option V.

Record TransactionSet : Type := {
  interchange : option InterchangeSegment;
  financial_information : option FinancialInformationSegment;
  trace : option Segments.Trace;
  claims : list ClaimLoop;
  organizations : list OrganizationLoop;
  file_path : string
}.

(** [o.organization.type == t] *)
Definition has_type (t : string) (o : OrganizationLoop) : bool :=
  match organization_type o with
  | Some t' => String.eqb t' t
  | None => false
  end.

(** [assert len(l) == 1] then [return l[0]] *)
Definition the_only {A : Type} (l : list A) : result A :=
  if (List.length l =? 1)%nat then index l 0 else Raise AssertionError.

(** The property [TransactionSet.payer] *)
Definition payer (self : TransactionSet) : result OrganizationLoop :=
  let payer := filter (fun o => has_type "payer" o) (organizations self) in
  the_only payer.

(** The property [TransactionSet.payee] *)
Definition payee (self : TransactionSet) : result OrganizationLoop :=
  let payee := filter (fun o => has_type "payee" o) (organizations self) in
  the_only payee.

(** A row of the flattened view. *)
Definition datum : Type := dict cell.

(** [TransactionSet.serialize_service].  A date or a name segment is a
    plain object, hence true when it is not [None]. *)
Definition serialize_service
    (financial_information : option FinancialInformationSegment)
    (payer : OrganizationLoop) (claim : ClaimLoop) (service : ServiceLoop)
  : result datum :=
  let start_date :=
    match service_period_start service with
    | Some d => date_of d
    | None =>
        match claim_statement_period_start claim with
        | Some d => date_of d
        | None => None
        end
    end in
  let end_date :=
    match service_period_end service with
    | Some d => date_of d
    | None =>
        match claim_statement_period_end claim with
        | Some d => date_of d
        | None => None
        end
    end in
  let* fi :=
    match financial_information with
    | Some fi => Ok fi
    | None => Raise AttributeError
    end in
  Ok [ ("marker", claim_marker claim);
       ("patient", claim_patient_name claim);
       ("code", service_code service);
       ("modifier", service_modifier service);
       ("qualifier", service_qualifier service);
       ("allowed_units", service_allowed_units service);
       ("billed_units", service_billed_units service);
       ("transaction_date", transaction_date fi);
       ("icn", claim_icn claim);
       ("charge_amount", service_charge_amount service);
       ("allowed_amount", service_allowed_amount service);
       ("paid_amount", service_paid_amount service);
       ("payer", organization_name payer);
       ("start_date", start_date);
       ("end_date", end_date);
       ("rendering_provider",
        match claim_rendering_provider claim with
        | Some p => name_of p
        | None => None
        end);
       ("payer_classification", claim_status_payer_classification_str claim);
       ("was_forwarded", claim_status_was_forwarded claim) ].

(** [for index, x in enumerate(xs): datum[...] = ...]: the columns of the
    repeated groups, numbered from [index]. *)
Fixpoint add_columns {A : Type} (cols : list (string * (A -> cell)))
    (prefix : string) (index : nat) (xs : list A) (d : datum) : datum :=
  match xs with
  | [] => d
  | x :: xs' =>
      let d :=
        fold_left
          (fun d col =>
             dict_set (prefix +:+ str_of_nat index +:+ fst col) (snd col x) d)
          cols d in
      add_columns cols prefix (S index) xs' d
  end.

(** The body of the inner loop of [to_dataframe]. *)
Definition service_row (self : TransactionSet) (claim : ClaimLoop)
    (service : ServiceLoop) : result datum :=
  let* p := payer self in
  let* datum := serialize_service (financial_information self) p claim service in
  let datum :=
    add_columns [ ("_group", adjustment_group_code);
                  ("_code", adjustment_reason_code);
                  ("_amount", adjustment_amount) ]
                "adj_" 0 (service_adjustments service) datum in
  let datum :=
    add_columns [ ("_qual", reference_qualifier_code);
                  ("_value", reference_value) ]
                "ref_" 0 (service_references service) datum in
  let datum :=
    add_columns [ ("_qual", remark_qualifier_code);
                  ("_code", remark_code) ]
                "rem_" 0 (service_remarks service) datum in
  Ok datum.

(** The (claim, service) pairs in the order [to_dataframe] visits them. *)
Definition claim_service_pairs (self : TransactionSet)
  : list (ClaimLoop * ServiceLoop) :=
  flat_map (fun claim => map (fun service => (claim, service))
                             (claim_services claim))
           (claims self).

Fixpoint collect_rows (self : TransactionSet)
    (pairs : list (ClaimLoop * ServiceLoop)) : result (list datum) :=
  match pairs with
  | [] => Ok []
  | (claim, service) :: rest =>
      let* datum := service_row self claim service in
      let* data := collect_rows self rest in
      Ok (datum :: data)
  end.

(** [TransactionSet.to_dataframe]; the frame is the list of its rows. *)
Definition to_dataframe (self : TransactionSet) : result (list datum) :=
  collect_rows self (claim_service_pairs self).

(** What [build_attribute] has recognised: the [key] and the [value] of
    its response, as one tagged value. *)
Inductive attribute : Type :=
| NoAttribute
| AnInterchange (value : InterchangeSegment)
| AFinancialInformation (value : FinancialInformationSegment)
| ATrace (value : Segments.Trace)
| AnOrganization (value : OrganizationLoop)
| AClaim (value : ClaimLoop).

Record BuildAttributeResponse : Type := {
  resp_key_value : attribute;
  resp_segment : option string;
  resp_segments : option (list string)
}.

(** [TransactionSet.build_attribute] *)
Definition build_attribute (segment : option string) (segments : list string)
  : result BuildAttributeResponse :=
  let next :=
    match segment with
    | Some segment => Some (segment, segments)
    | None =>
        match segments with
        | segment :: segments => Some (segment, segments)
        | [] => None
        end
    end in
  match next with
  | None => Ok {| resp_key_value := NoAttribute;
              resp_segment := None; resp_segments := None |}
  | Some (segment, segments) =>
      let identifier := find_identifier segment in
      if identifier =? InterchangeSegment_identification then
        let* interchange := InterchangeSegment_init segment in
        Ok {| resp_key_value := AnInterchange interchange;
              resp_segment := None; resp_segments := Some segments |}
      else if identifier =? FinancialInformationSegment_identification then
        let* financial_information :=
          FinancialInformationSegment_init segment in
        Ok {| resp_key_value := AFinancialInformation financial_information;
              resp_segment := None; resp_segments := Some segments |}
      else if identifier =? "TRN" then
        let* trace :=
          Segments.Trace_init split_segment Identifier_parser segment in
        Ok {| resp_key_value := ATrace trace;
              resp_segment := None; resp_segments := Some segments |}
      else if identifier =? OrganizationLoop_initiating_identifier then
        let* built := OrganizationLoop_build segment segments in
        Ok {| resp_key_value := AnOrganization built.1.1;
              resp_segment := built.2; resp_segments := built.1.2 |}
      else if identifier =? ClaimLoop_initiating_identifier then
        let* built := ClaimLoop_build segment segments in
        Ok {| resp_key_value := AClaim built.1.1;
              resp_segment := built.2; resp_segments := built.1.2 |}
      else
        Ok {| resp_key_value := NoAttribute;
              resp_segment := None; resp_segments := Some segments |}
  end.

(** The update of the local variables of [build] by one response; the
    locals are kept in the [TransactionSet] that [build] returns at the
    end. *)
Definition collect (self : TransactionSet) (a : attribute) : TransactionSet :=
  match a with
  | NoAttribute => self
  | AnInterchange v =>
      {| interchange := Some v;
         financial_information := financial_information self;
         trace := trace self; claims := claims self;
         organizations := organizations self; file_path := file_path self |}
  | AFinancialInformation v =>
      {| interchange := interchange self;
         financial_information := Some v;
         trace := trace self; claims := claims self;
         organizations := organizations self; file_path := file_path self |}
  | ATrace v =>
      {| interchange := interchange self;
         financial_information := financial_information self;
         trace := Some v; claims := claims self;
         organizations := organizations self; file_path := file_path self |}
  | AnOrganization v =>
      {| interchange := interchange self;
         financial_information := financial_information self;
         trace := trace self; claims := claims self;
         organizations := organizations self ++ [v];
         file_path := file_path self |}
  | AClaim v =>
      {| interchange := interchange self;
         financial_information := financial_information self;
         trace := trace self; claims := claims self ++ [v];
         organizations := organizations self; file_path := file_path self |}
  end.

(** The loop [while True] of [build]; [None] when [fuel] iterations do not
    reach the [break]. *)
Fixpoint build_loop (fuel : nat) (segment : option string)
    (segments : list string) (self : TransactionSet)
  : option (result TransactionSet) :=
  match fuel with
  | 0 => None
  | S fuel =>
      match build_attribute segment segments with
      | Raise e => Some (Raise e)
      | Ok response =>
          match resp_segments response with
          | None => Some (Ok self)
          | Some segments' =>
              build_loop fuel (resp_segment response) segments'
                         (collect self (resp_key_value response))
          end
      end
  end.

(** [TransactionSet.build], on the content [file] of the file at
    [file_path]. *)
Definition build (fuel : nat) (file : string) (file_path : string)
  : option (result TransactionSet) :=
  build_loop fuel None (Preprocess.build_segments file)
    {| interchange := None; financial_information := None; trace := None;
       claims := []; organizations := []; file_path := file_path |}.

(** An exception [e] that one of the segment constructors or loop
    builders called by [build_attribute] raises on some record. *)
Definition raised_by_callee (e : exn) : Prop :=
  exists segment,
    InterchangeSegment_init segment = Raise e
    \/ FinancialInformationSegment_init segment = Raise e
    \/ Segments.Trace_init split_segment Identifier_parser segment = Raise e
    \/ (exists segments, OrganizationLoop_build segment segments = Raise e)
    \/ (exists segments, ClaimLoop_build segment segments = Raise e).

End TransactionSet.

End Assembler.

(** ** [edi_835_parser/__init__.py]: file discovery and [parse_to_json] *)
Module Package.
Import Py Assembler.

Section ParseToJson.
Context `{Imports}.
(** The operating system: [os.path.expanduser], [os.path.isdir] and
    [os.listdir] (whose order is that of the directory).  The regular
    files are a map from path to content. *)
Variable expanduser : string -> string.
Variable isdir : string -> bool.
Variable listdir : string -> list string.

Local Abbreviation files := (gmap string string).

(** [open(path).read()] *)
Definition read (fs : files) (path : string) : result string :=
  match fs !! path with
  | Some content => Ok content
  | None => Raise FileNotFoundError
  end.

Definition _find_edi_835_files (path : string) : list string :=
  filter (fun file => endswith file ".txt" || endswith file ".835"
                      || endswith file ".DAT")
         (listdir path).

(** [TransactionSet.build(file_path)], reading the file. *)
Definition build_file (fuel : nat) (fs : files) (file_path : string)
  : option (result TransactionSet) :=
  match read fs file_path with
  | Ok file => build fuel file file_path
  | Raise e => Some (Raise e)
  end.

Definition set_file_path (ts : TransactionSet) (path : string)
  : TransactionSet :=
  {| interchange := interchange ts;
     financial_information := financial_information ts;
     trace := trace ts; claims := claims ts;
     organizations := organizations ts; file_path := path |}.

(** [_build_transaction_set]: the outcome and the files afterwards. *)
Definition _build_transaction_set (fuel : nat) (fs : files)
    (file_path : string) (preprocess : bool)
  : option (result TransactionSet * files) :=
  if negb preprocess then
    r ← build_file fuel fs file_path; Some (r, fs)
  else
    match read fs file_path with
    | Raise e => Some (Raise e, fs)
    | Ok content =>
        if Preprocess.needs_preprocessing content then
          let processed_content := Preprocess.preprocess_edi_content content in
          let temp_file_path := file_path +:+ ".processed.tmp" in
          let fs := <[temp_file_path := processed_content]> fs in
          r ← build_file fuel fs temp_file_path;
          Some (bind r (fun transaction_set =>
                          Ok (set_file_path transaction_set temp_file_path)),
                fs)
        else
          r ← build_file fuel fs file_path; Some (r, fs)
    end.

(** The method [to_json] of a transaction set: it reads the file at
    [self.file_path]. *)
Definition TransactionSet_to_json (fs : files) (self : TransactionSet)
  : result Json.json :=
  let* file_content := read fs (file_path self) in
  Ok (Json.to_json split_segment file_content).

(** The file [parse_to_json] settles on. *)
Definition select_file_path (path : string) : result string :=
  let* c := index (list_ascii_of_string path) 0 in
  let path := if Ascii.eqb c "~" then expanduser path else path in
  if isdir path then
    let files := _find_edi_835_files path in
    match files with
    | [] => Raise (ValueError ("No EDI 835 files found in directory: " +:+ path))
    | _ => let* first := index files 0 in Ok (path +:+ "/" +:+ first)
    end
  else Ok path.

(** [parse_to_json] once the file is settled: build, convert, and, unless
    [debug], the [finally] clause that removes the temporary file. *)
Definition parse_file_to_json (fuel : nat) (fs : files) (file_path : string)
    (debug preprocess : bool) : option (result Json.json * files) :=
  built ← _build_transaction_set fuel fs file_path preprocess;
  let fs := built.2 in
  if debug then
    Some (bind built.1 (TransactionSet_to_json fs), fs)
  else
    match built.1 with
    | Raise e => Some (Raise UnboundLocalError, fs)
    | Ok transaction_set =>
        let out := TransactionSet_to_json fs transaction_set in
        if endswith (Assembler.file_path transaction_set) ".processed.tmp"
        then Some (out, delete (Assembler.file_path transaction_set) fs)
        else Some (out, fs)
    end.

Definition parse_to_json (fuel : nat) (fs : files) (path : string)
    (debug preprocess : bool) : option (result Json.json * files) :=
  match select_file_path path with
  | Raise e => Some (Raise e, fs)
  | Ok file_path => parse_file_to_json fuel fs file_path debug preprocess
  end.

End ParseToJson.

End Package.

(** ** An instance of the imported classes, from the specification *)
Module SpecInstance.
Import Py Assembler.

(** Modelled from the spec: a record of the catalog (the segment classes of
    [segments/], not under src/): its ordered raw fields, field 0 being the
    leading tag. *)
Definition record : Type := list string.

(** Modelled from the spec: the constructor of a segment class of
    [segments/] (interchange, financial information): the record is split
    into its fields, and a missing trailing field is an absent value, never
    an error. *)
Definition record_init (segment : string) : result record :=
  Ok (SpecModel.split_segment segment).

(** Modelled from the spec: a field of a record, absent when the record is
    shorter. *)
Definition field_of (i : nat) (r : record) : option string := r !! i.

Definition tag_of (r : record) : string := default "" (r !! 0).

(** Modelled from the spec: the loops of [loops/] (not under src/): a
    header record and the records and nested loops attached to it, in
    source order. *)
Record service_loop : Type := {
  svc_header : record;
  svc_records : list record
}.

Record claim_loop : Type := {
  clp_header : record;
  clp_records : list record;
  clp_services : list service_loop
}.

Record organization_loop : Type := {
  org_header : record;
  org_records : list record
}.

(** Modelled from the spec: the records a loop owns directly are consumed
    and attached until a record with any other tag is met; that record is
    left to the caller.  The result is the attached records, the iterator
    and the unused record. *)
Fixpoint attached (owned : list string) (segments : list string)
  : list record * option (list string) * option string :=
  match segments with
  | [] => ([], None, None)
  | segment :: rest =>
      if bool_decide (SpecModel.find_identifier segment ∈ owned) then
        let r := attached owned rest in
        (SpecModel.split_segment segment :: r.1.1, r.1.2, r.2)
      else ([], Some rest, Some segment)
  end.

(** Modelled from the spec: the organization loop owns an address, a
    location and a contact record. *)
Definition organization_build (segment : string) (segments : list string)
  : result (organization_loop * option (list string) * option string) :=
  let r := attached ["N3"; "N4"; "PER"] segments in
  Ok ({| org_header := SpecModel.split_segment segment;
         org_records := r.1.1 |}, r.1.2, r.2).

(** Modelled from the spec: the service loop owns adjustment, reference,
    amount and date records (and its remarks). *)
Definition service_owned : list string := ["CAS"; "REF"; "AMT"; "DTM"; "LQ"].

(** Modelled from the spec: the claim loop owns adjustment, name, date,
    amount and reference records while no service is open, and a repeated
    service loop; a tag-ambiguous record goes to the innermost open loop. *)
Definition claim_owned : list string := ["CAS"; "NM1"; "DTM"; "AMT"; "REF"].

Fixpoint claim_body (segments : list string) (claim : claim_loop)
  : claim_loop * option (list string) * option string :=
  match segments with
  | [] => (claim, None, None)
  | segment :: rest =>
      let tag := SpecModel.find_identifier segment in
      let r := SpecModel.split_segment segment in
      if tag =? "SVC" then
        claim_body rest
          {| clp_header := clp_header claim;
             clp_records := clp_records claim;
             clp_services :=
               clp_services claim
               ++ [ {| svc_header := r; svc_records := [] |} ] |}
      else
        match last (clp_services claim) with
        | Some service =>
            if bool_decide (tag ∈ service_owned) then
              claim_body rest
                {| clp_header := clp_header claim;
                   clp_records := clp_records claim;
                   clp_services :=
                     removelast (clp_services claim)
                     ++ [ {| svc_header := svc_header service;
                             svc_records := svc_records service ++ [r] |} ] |}
            else (claim, Some rest, Some segment)
        | None =>
            if bool_decide (tag ∈ claim_owned) then
              claim_body rest
                {| clp_header := clp_header claim;
                   clp_records := clp_records claim ++ [r];
                   clp_services := clp_services claim |}
            else (claim, Some rest, Some segment)
        end
  end.

Definition claim_build (segment : string) (segments : list string)
  : result (claim_loop * option (list string) * option string) :=
  Ok (claim_body segments
        {| clp_header := SpecModel.split_segment segment;
           clp_records := []; clp_services := [] |}).

(** Modelled from the spec: an organization resolves to a type through a
    fixed mapping from its entity-identifier code ([PR] is the payer and
    [PE] the payee of a remittance); any other code leaves it unresolved. *)
Definition organization_type_of (o : organization_loop) : pystr :=
  match field_of 1 (org_header o) with
  | Some "PR" => Some "payer"
  | Some "PE" => Some "payee"
  | _ => None
  end.

(** Modelled from the spec: the date record of a loop with a given
    qualifier, if any. *)
Definition date_with (qualifier : string) (records : list record)
  : option record :=
  head (filter (fun r => bool_decide (tag_of r = "DTM"
                                      ∧ field_of 1 r = Some qualifier))
               records).

Definition records_with_tag (tag : string) (records : list record)
  : list record :=
  filter (fun r => bool_decide (tag_of r = tag)) records.

#[export] Instance spec_imports : Imports := {|
  InterchangeSegment := record;
  FinancialInformationSegment := record;
  OrganizationLoop := organization_loop;
  ClaimLoop := claim_loop;
  ServiceLoop := service_loop;
  DateSegment := record;
  NameSegment := record;
  AdjustmentSegment := record;
  ReferenceSegment := record;
  RemarkSegment := record;
  V := string;
  split_segment := SpecModel.split_segment;
  find_identifier := SpecModel.find_identifier;
  Identifier_parser := SpecModel.Identifier_parser;
  InterchangeSegment_identification := "ISA";
  FinancialInformationSegment_identification := "BPR";
  OrganizationLoop_initiating_identifier := "N1";
  ClaimLoop_initiating_identifier := "CLP";
  InterchangeSegment_init := record_init;
  FinancialInformationSegment_init := record_init;
  OrganizationLoop_build := organization_build;
  ClaimLoop_build := claim_build;
  organization_type := organization_type_of;
  organization_name := fun o => field_of 2 (org_header o);
  transaction_date := field_of 16;
  claim_services := clp_services;
  claim_statement_period_start := fun c => date_with "232" (clp_records c);
  claim_statement_period_end := fun c => date_with "233" (clp_records c);
  claim_marker := fun c => field_of 1 (clp_header c);
  claim_icn := fun c => field_of 7 (clp_header c);
  claim_patient_name := fun c =>
    r ← head (filter (fun r => bool_decide (tag_of r = "NM1"
                                            ∧ field_of 1 r = Some "QC"))
                     (clp_records c));
    field_of 3 r;
  claim_rendering_provider := fun c =>
    head (filter (fun r => bool_decide (tag_of r = "NM1"
                                        ∧ field_of 1 r = Some "82"))
                 (clp_records c));
  claim_status_payer_classification_str := fun c => field_of 2 (clp_header c);
  claim_status_was_forwarded := fun c => field_of 2 (clp_header c);
  name_of := field_of 3;
  date_of := field_of 2;
  service_period_start := fun s => date_with "150" (svc_records s);
  service_period_end := fun s => date_with "151" (svc_records s);
  service_code := fun s => field_of 1 (svc_header s);
  service_modifier := fun s => field_of 1 (svc_header s);
  service_qualifier := fun s => field_of 1 (svc_header s);
  service_allowed_units := fun s => field_of 5 (svc_header s);
  service_billed_units := fun s => field_of 6 (svc_header s);
  service_charge_amount := fun s => field_of 2 (svc_header s);
  service_allowed_amount := fun s =>
    r ← head (records_with_tag "AMT" (svc_records s)); field_of 2 r;
  service_paid_amount := fun s => field_of 3 (svc_header s);
  service_adjustments := fun s => records_with_tag "CAS" (svc_records s);
  service_references := fun s => records_with_tag "REF" (svc_records s);
  service_remarks := fun s => records_with_tag "LQ" (svc_records s);
  adjustment_group_code := field_of 1;
  adjustment_reason_code := field_of 2;
  adjustment_amount := field_of 3;
  reference_qualifier_code := field_of 1;
  reference_value := field_of 2;
  remark_qualifier_code := field_of 1;
  remark_code := field_of 2
|}.

End SpecInstance.

(** ** Sample documents *)
Module Samples.
Import Py Preprocess Assembler SpecInstance.

(** A document with a group separator between the fields, a record
    separator between the records and a line break. *)
Definition control_document : string :=
  "ST" +:+ String GS "835" +:+ String GS "0001" +:+ String RS (String LF "")
  +:+ "SE" +:+ String GS "1" +:+ String GS "0001" +:+ String RS "".

(** A reference record before any claim, and the document without it. *)
Definition reference_before_claim : string :=
  "ST*835*0001~REF*EV*ABC~SE*3*0001~".
Definition no_reference : string := "ST*835*0001~SE*3*0001~".

(** A date record of a claim that has no service yet. *)
Definition date_in_claim : string :=
  "ST*835*0001~CLP*7*1*100~DTM*232*20200105~SE*4*0001~".

(** A service without adjustment, reference, amount and date records. *)
Definition plain_service : string :=
  "ST*835*0001~CLP*7*1*100~SVC*HC:99213*100*80~SE*4*0001~".

(** The records up to an open service, and an adjustment record. *)
Definition open_service : list string :=
  ["ST*835*0001"; "CLP*7*1*100*80*20*MC*ICN1"; "SVC*HC:99213*100*80**1"].
Definition adjustment : string := "CAS*CO*45*20".

(** A transaction without interchange and financial information. *)
Definition bare_transaction : string := "ST*835*0001~SE*2*0001~".

(** Two organizations that both resolve to the payer. *)
Definition two_payers : string := "ISA*00~BPR*I*100~N1*PR*ACME~N1*PR*APEX~SE*4*0001".

(** The transaction set of [two_payers]. *)
Definition two_payers_set : TransactionSet :=
  {| interchange := Some ["ISA"; "00"];
     financial_information := Some ["BPR"; "I"; "100"];
     trace := None;
     claims := [];
     organizations :=
       [ {| org_header := ["N1"; "PR"; "ACME"]; org_records := [] |};
         {| org_header := ["N1"; "PR"; "APEX"]; org_records := [] |} ];
     file_path := "remit.835" |}.

(** A directory [inbox] with two remittance files among other files. *)
Definition sample_isdir (path : string) : bool := String.eqb path "inbox".

Definition sample_listdir (path : string) : list string :=
  if String.eqb path "inbox"
  then ["README.md"; "second.DAT"; "first.txt"; "third.dat"]
  else [].

Definition sample_files : gmap string string :=
  {[ "inbox/second.DAT" := control_document;
     "inbox/first.txt" := bare_transaction ]}.

(** A remittance with one claim and two services; the claim has a
    statement period start, the second service a start date of its own. *)
Definition remittance : string :=
  "ISA*00~ST*835*0001~BPR*I*100*C*ACH************20200101~TRN*1*123"
  +:+ "~N1*PR*ACME~N3*1 MAIN ST~N1*PE*CLINIC~LX*1"
  +:+ "~CLP*7*1*100*80*20*MC*ICN1~NM1*QC*1*DOE~DTM*232*20200105"
  +:+ "~SVC*HC:99213*100*80**1~CAS*CO*45*20~REF*6R*A1"
  +:+ "~SVC*HC:99214*5*5~DTM*150*20200109~SE*16*0001~GE*1~IEA*1".

(** The transaction set of [remittance], and its flattened rows. *)
Definition remittance_set : TransactionSet :=
  Eval vm_compute in
    match build 30 remittance "remit.835" with
    | Some (Ok ts) => ts
    | _ => two_payers_set
    end.

Definition remittance_rows : list datum :=
  Eval vm_compute in
    match to_dataframe remittance_set with
    | Ok rows => rows
    | Raise _ => []
    end.

End Samples.

(** ** [parse]: the batch entry point of [edi_835_parser/__init__.py] *)
Module Batch.
Import Py Assembler Package.

Section Parse.
Context `{Imports}.
Variable expanduser : string -> string.
Variable isdir : string -> bool.
Variable listdir : string -> list string.

(** The loop [for file in files] of [parse]: with [debug] the exception of
    a build is raised, without it the [except Exception] clause warns and
    goes on to the next file. *)
Fixpoint parse_files (fuel : nat) (fs : gmap string string) (path : string)
    (files : list string) (debug preprocess : bool)
    (transaction_sets : list TransactionSet)
  : option (result (list TransactionSet) * gmap string string) :=
  match files with
  | [] => Some (Ok transaction_sets, fs)
  | file :: files =>
      let file_path := path +:+ "/" +:+ file in
      built ← _build_transaction_set fuel fs file_path preprocess;
      match built.1 with
      | Ok transaction_set =>
          parse_files fuel built.2 path files debug preprocess
            (transaction_sets ++ [transaction_set])
      | Raise e =>
          if debug then Some (Raise e, built.2)
          else parse_files fuel built.2 path files debug preprocess
                 transaction_sets
      end
  end.

(** [parse]; the [TransactionSets] it returns is the list it wraps. *)
Definition parse (fuel : nat) (fs : gmap string string) (path : string)
    (debug preprocess : bool)
  : option (result (list TransactionSet) * gmap string string) :=
  match index (list_ascii_of_string path) 0 with
  | Raise e => Some (Raise e, fs)
  | Ok c =>
      let path := if Ascii.eqb c "~" then expanduser path else path in
      if isdir path then
        parse_files fuel fs path (_find_edi_835_files listdir path)
          debug preprocess []
      else
        built ← _build_transaction_set fuel fs path preprocess;
        Some (bind built.1 (fun transaction_set => Ok [transaction_set]),
              built.2)
  end.

End Parse.

End Batch.

(** ** [ShubhamTest.py]: the name of an output file *)
Module Runner.
Import Py.

(** [safe_name]: the stem of the test file with blanks, dashes and dots
    replaced. *)
Definition safe_name (stem : string) : string :=
  replace "." "_" (replace "-" "_" (replace " " "_" stem)).

(** The name of the output file in the output directory. *)
Definition output_name (stem : string) : string :=
  safe_name stem +:+ "_output.json".

End Runner.

(** ** Records that [build] handles without a loop builder *)
Module Scalars.
Import Py Assembler.

(** A record that starts no loop, and on which the constructor that its tag
    selects, if any, succeeds. *)
Definition scalar_or_skipped `{Imports} (s : string) : Prop :=
  find_identifier s <> OrganizationLoop_initiating_identifier
  /\ find_identifier s <> ClaimLoop_initiating_identifier
  /\ (find_identifier s = InterchangeSegment_identification ->
      exists v, InterchangeSegment_init s = Ok v)
  /\ (find_identifier s = FinancialInformationSegment_identification ->
      exists v, FinancialInformationSegment_init s = Ok v)
  /\ (find_identifier s = "TRN" ->
      exists v, Segments.Trace_init split_segment Identifier_parser s = Ok v).

End Scalars.

(** ** The records of a document, by tag *)
Module Records.
Import Py Json.

(** The tags for which the loop of [to_json] has a branch with an effect;
    the branch of [LX] is [pass]. *)
Definition handled_tags : list string :=
  [ "ISA"; "GS"; "ST"; "BPR"; "TRN"; "DTM"; "N1"; "N3"; "N4"; "PER"; "REF";
    "CLP"; "CAS"; "NM1"; "AMT"; "SVC"; "PLB"; "SE"; "GE"; "IEA" ].

(** The tags whose branch tests no loop variable. *)
Definition envelope_tags : list string := ["ISA"; "GS"; "ST"; "GE"; "IEA"].

Section Tags.
Variable split_segment : string -> list string.

(** A record that the loop of [to_json] does not skip and whose leading
    tag is [tag]. *)
Definition has_tag (tag : string) (segment : string) : bool :=
  truthy segment && (identifier_of split_segment segment =? tag).

(** Whether a transaction is open after a record: [ST] opens one and [SE]
    closes it. *)
Definition opens (open : bool) (segment : string) : bool :=
  if has_tag "ST" segment then true
  else if has_tag "SE" segment then false
  else open.

Definition inside (segments : list string) : bool :=
  fold_left opens segments false.

End Tags.

End Records.

(** ** More sample documents *)
Module MoreSamples.
Import Py SpecInstance.

(** A standard document with blank records and blanks around records. *)
Definition spaced_document : string :=
  "ST*835*0001~ ~  BPR*I*100 ~~SE*3*0001~".

(** An interchange record that occurs twice. *)
Definition repeated_interchange : string := "ISA*00~ST*835*0001~ISA*01~SE*3*0001".

(** A trace record without trace number. *)
Definition short_trace : string := "ISA*00~TRN*1~SE*2*0001~".

(** A file that ends inside an organization loop. *)
Definition unterminated : string := "ISA*00~N1*PR*ACME~N3*1 MAIN ST".

(** Two transactions, the first without trailer record; a name record
    follows the second header. *)
Definition unclosed_transaction : list string :=
  ["ST*835*0001"; "CLP*7*1*100"; "ST*835*0002"; "NM1*QC*1*DOE"].

(** The transaction set that [build] returns for the preprocessed
    [control_document]. *)
Definition control_set : Assembler.TransactionSet :=
  Eval vm_compute in
    match Assembler.build 10
            (Preprocess.preprocess_edi_content Samples.control_document)
            "inbox/second.DAT.processed.tmp" with
    | Some (Ok ts) => ts
    | _ => Samples.two_payers_set
    end.

(** A directory listing whose second remittance file is missing. *)
Definition outbox_isdir (path : string) : bool := String.eqb path "outbox".

Definition outbox_listdir (path : string) : list string :=
  if String.eqb path "outbox"
  then ["a.835"; "notes.md"; "gone.txt"; "b.DAT"; "c.txt"]
  else [].

Definition outbox_files : gmap string string :=
  {[ "outbox/a.835" := Samples.bare_transaction;
     "outbox/b.DAT" := short_trace;
     "outbox/c.txt" := Samples.two_payers ]}.

Definition outbox_a : Assembler.TransactionSet :=
  Eval vm_compute in
    match Assembler.build 10 Samples.bare_transaction "outbox/a.835" with
    | Some (Ok ts) => ts
    | _ => Samples.two_payers_set
    end.

Definition outbox_c : Assembler.TransactionSet :=
  Eval vm_compute in
    match Assembler.build 10 Samples.two_payers "outbox/c.txt" with
    | Some (Ok ts) => ts
    | _ => Samples.two_payers_set
    end.

End MoreSamples.

(** * Properties *)

(** ** Input normalisation *)
Module PreprocessFacts.
Import Py Preprocess Samples.

Lemma occurs_app c s t : occurs c (s +:+ t) = occurs c s || occurs c t.
Proof.
  induction s as [|a s IH]; simpl; [done|].
  rewrite IH. by rewrite orb_assoc.
Qed.

(** Which characters a replacement leaves in the text. *)
Lemma occurs_replace c old new s :
  occurs c (replace old new s)
  = (occurs c s && negb (Ascii.eqb c old)) || (occurs old s && occurs c new).
Proof.
  induction s as [|a s IH]; simpl; [done|].
  destruct (Ascii.eqb_spec a old) as [Hao|Hao];
    destruct (Ascii.eqb_spec a c) as [Hac|Hac];
    destruct (Ascii.eqb_spec c old) as [Hco|Hco];
    try congruence; simpl; rewrite ?occurs_app, IH;
    repeat match goal with
      | |- context [Ascii.eqb ?x ?y] =>
          destruct (Ascii.eqb_spec x y); try congruence
      end; simpl;
    destruct (occurs c s), (occurs old s), (occurs c new); done.
Qed.

Lemma replace_absent old new s : occurs old s = false -> replace old new s = s.
Proof.
  induction s as [|a s IH]; simpl; [done|].
  intros [Ha Hs]%orb_false_elim. rewrite Ha. by rewrite IH.
Qed.

(** None of the four replaced characters survives the preprocessing. *)
Lemma preprocess_clean s c :
  c ∈ [GS; RS; US; LF] -> occurs c (preprocess_edi_content s) = false.
Proof.
  intros Hc. unfold preprocess_edi_content.
  rewrite !occurs_replace.
  repeat (apply elem_of_cons in Hc as [->|Hc]);
    [| | | |by apply elem_of_nil in Hc]; simpl;
    rewrite ?andb_false_r, ?andb_true_r, ?orb_false_r; done.
Qed.

Lemma needs_preprocessing_preprocess s :
  needs_preprocessing (preprocess_edi_content s) = false.
Proof.
  unfold needs_preprocessing. simpl.
  rewrite !preprocess_clean; [done|set_solver..].
Qed.

(** One character of the input at a time. *)
Lemma preprocess_cons c s :
  preprocess_edi_content (String c s)
  = (if Ascii.eqb c GS then "*"
     else if Ascii.eqb c RS then "~"
     else if Ascii.eqb c US then ":"
     else if Ascii.eqb c LF then ""
     else String c "") +:+ preprocess_edi_content s.
Proof.
  unfold preprocess_edi_content. simpl.
  destruct (Ascii.eqb_spec c GS) as [->|?]; [done|].
  simpl. destruct (Ascii.eqb_spec c RS) as [->|?]; [done|].
  simpl. destruct (Ascii.eqb_spec c LF) as [->|?]; [done|].
  simpl. destruct (Ascii.eqb_spec c US) as [->|?]; done.
Qed.

(** The four successive replacements amount to the one-pass normalisation. *)
Lemma preprocess_standard_equivalent s :
  preprocess_edi_content s = standard_equivalent s.
Proof.
  induction s as [|c s IH]; [done|].
  rewrite preprocess_cons, IH. simpl.
  by repeat case_match.
Qed.

(** C9. [preprocess_edi_content] is idempotent, and its output holds none of
    the characters it replaces: no group, record or unit separator and no
    line break. *)
Theorem preprocess_edi_content_idempotent (s : string) :
  preprocess_edi_content (preprocess_edi_content s) = preprocess_edi_content s
  /\ occurs GS (preprocess_edi_content s) = false
  /\ occurs RS (preprocess_edi_content s) = false
  /\ occurs US (preprocess_edi_content s) = false
  /\ occurs LF (preprocess_edi_content s) = false.
Proof.
  assert (forall c, c ∈ [GS; RS; US; LF] ->
                    occurs c (preprocess_edi_content s) = false) as Hclean
    by (intros; by apply preprocess_clean).
  split; [|repeat split; apply Hclean; set_solver].
  set (p := preprocess_edi_content s) in *.
  unfold preprocess_edi_content.
  rewrite (replace_absent GS) by (apply Hclean; set_solver).
  rewrite (replace_absent RS) by (apply Hclean; set_solver).
  rewrite (replace_absent LF) by (apply Hclean; set_solver).
  rewrite (replace_absent US) by (apply Hclean; set_solver).
  done.
Qed.

(** C4, as stated, fails on [to_json]: reading the control document, it
    preprocesses it and splits the result at [:], which yields one record,
    whereas the standard equivalent is split at [~] into two. *)
Lemma to_json_segments_control_document :
  occurs GS control_document = true
  /\ occurs RS control_document = true
  /\ occurs LF control_document = true
  /\ standard_equivalent control_document = "ST*835*0001~SE*1*0001~"
  /\ to_json_segments control_document = ["ST*835*0001~SE*1*0001~"]
  /\ to_json_segments (standard_equivalent control_document)
     = ["ST*835*0001"; "SE*1*0001"]
  /\ to_json_segments control_document
     <> to_json_segments (standard_equivalent control_document).
Proof. repeat split; try reflexivity. vm_compute. discriminate. Qed.

(** C4, amended.  Preprocessing yields exactly the standard equivalent of
    the document, so the preprocessed text, tokenized as a document of its own
    by [TransactionSet.build] or by [to_json], gives the records of the
    standard equivalent split at [~]; [to_json] reading the document with its
    control characters tokenizes the preprocessed text at [:] instead. *)
Theorem preprocess_then_tokenize (content : string) :
  preprocess_edi_content content = standard_equivalent content
  /\ build_segments (preprocess_edi_content content)
     = map strip (split "~" (standard_equivalent content))
  /\ to_json_segments (preprocess_edi_content content)
     = map strip (filter (fun segment => truthy (strip segment))
                         (split "~" (standard_equivalent content)))
  /\ to_json_segments (preprocess_edi_content content)
     = to_json_segments (standard_equivalent content)
  /\ (needs_preprocessing content = true ->
      to_json_segments content
      = map strip (filter (fun segment => truthy (strip segment))
                          (split ":" (standard_equivalent content)))).
Proof.
  pose proof (preprocess_standard_equivalent content) as Heq.
  pose proof (needs_preprocessing_preprocess content) as Hno.
  repeat split.
  - done.
  - unfold build_segments. by rewrite Heq.
  - unfold to_json_segments. rewrite Hno. by rewrite Heq.
  - by rewrite Heq.
  - intros Hneeds. unfold to_json_segments. rewrite Hneeds. by rewrite Heq.
Qed.

Lemma preprocess_then_tokenize_witness :
  needs_preprocessing control_document = true
  /\ to_json_segments control_document
     = map strip (filter (fun segment => truthy (strip segment))
                         (split ":" (standard_equivalent control_document))).
Proof.
  split; [reflexivity|].
  apply (preprocess_then_tokenize control_document). reflexivity.
Defined.

End PreprocessFacts.

(** ** Dicts *)
Module DictFacts.
Import Py.

Section Dict.
Context {V : Type}.
Implicit Types (d : dict V) (k : string) (v : V).

Lemma dict_get_absent k d : k ∉ d.*1 -> dict_get k d = None.
Proof.
  induction d as [|[k' v'] d IH]; simpl; [done|].
  intros Hk. apply not_elem_of_cons in Hk as [Hne Hk].
  destruct (String.eqb_spec k' k); [congruence|]. by apply IH.
Qed.

Lemma dict_get_present k v d :
  NoDup d.*1 -> (k, v) ∈ d -> dict_get k d = Some v.
Proof.
  induction d as [|[k' v'] d IH]; simpl; intros Hnd Hin.
  - by apply elem_of_nil in Hin.
  - apply NoDup_cons in Hnd as [Hk' Hnd].
    apply elem_of_cons in Hin as [[= -> ->]|Hin].
    + by rewrite String.eqb_refl.
    + destruct (String.eqb_spec k' k) as [->|]; [|by apply IH].
      exfalso. apply Hk'. by apply (list_elem_of_fmap_2 fst _ (k, v)).
Qed.

Lemma dict_get_set k k' v d :
  dict_get k (dict_set k' v d)
  = if String.eqb k' k then Some v else dict_get k d.
Proof.
  induction d as [|[k0 v0] d IH]; simpl.
  - done.
  - destruct (String.eqb_spec k0 k') as [->|Hne]; simpl.
    + destruct (String.eqb_spec k' k); done.
    + destruct (String.eqb_spec k0 k) as [->|].
      * destruct (String.eqb_spec k' k); [congruence|done].
      * done.
Qed.

Lemma dict_get_alter f k k' d :
  dict_get k (dict_alter f k' d)
  = if String.eqb k' k then f <$> dict_get k d else dict_get k d.
Proof.
  induction d as [|[k0 v0] d IH]; simpl.
  - by destruct (String.eqb k' k).
  - destruct (String.eqb_spec k0 k') as [->|Hne]; simpl.
    + destruct (String.eqb_spec k' k); done.
    + destruct (String.eqb_spec k0 k) as [->|].
      * destruct (String.eqb_spec k' k); [congruence|done].
      * done.
Qed.

Lemma dict_get_None k d : dict_get k d = None <-> k ∉ d.*1.
Proof.
  split; [|apply dict_get_absent].
  induction d as [|[k' v'] d IH]; csimpl; [set_solver|].
  destruct (String.eqb_spec k' k); [done|].
  intros Hd. apply not_elem_of_cons. split; [done|]. by apply IH.
Qed.

Lemma dict_set_absent k v d :
  dict_get k d = None -> dict_set k v d = d ++ [(k, v)].
Proof.
  induction d as [|[k' v'] d IH]; simpl; [done|].
  destruct (String.eqb k' k); [done|]. intros Hd. by rewrite IH.
Qed.

Lemma dict_alter_snoc f k v d :
  dict_get k d = None -> dict_alter f k (d ++ [(k, v)]) = d ++ [(k, f v)].
Proof.
  induction d as [|[k' v'] d IH]; simpl.
  - by rewrite String.eqb_refl.
  - destruct (String.eqb k' k); [done|]. intros Hd. by rewrite IH.
Qed.

Lemma Forall_dict_alter (P : string * V -> Prop) f k d :
  Forall P d -> (forall v, P (k, v) -> P (k, f v)) ->
  Forall P (dict_alter f k d).
Proof.
  intros Hd Hf. induction Hd as [|[k' v'] d Hx Hd IH]; simpl; [done|].
  destruct (String.eqb_spec k' k) as [->|]; constructor; auto.
Qed.

Lemma dict_get_elem k v d : dict_get k d = Some v -> (k, v) ∈ d.
Proof.
  induction d as [|[k' v'] d IH]; simpl; [done|].
  destruct (String.eqb_spec k' k) as [->|].
  - intros [= ->]. by left.
  - intros Hd. right. by apply IH.
Qed.

Lemma dict_alter_keys f k d : (dict_alter f k d).*1 = d.*1.
Proof.
  induction d as [|[k0 v0] d IH]; csimpl; [done|].
  destruct (String.eqb k0 k); csimpl; [done|]. by rewrite IH.
Qed.
End Dict.

End DictFacts.

(** ** Code lookup *)
Module ElementsFacts.
Import Py Elements DictFacts.

Lemma lookup_hit (table : dict string) value description :
  NoDup table.*1 -> (value, description) ∈ table ->
  dict_get_default table (Some value) (Some value) = Some description.
Proof.
  intros Hnd Hin. unfold dict_get_default.
  by rewrite (dict_get_present _ _ _ Hnd Hin).
Qed.

Lemma lookup_miss (table : dict string) value :
  value ∉ table.*1 ->
  dict_get_default table (Some value) (Some value) = Some value.
Proof.
  intros Hout. unfold dict_get_default. by rewrite dict_get_absent.
Qed.

Lemma contact_function_codes_NoDup : NoDup contact_function_codes.*1.
Proof. apply (bool_decide_unpack _). by vm_compute. Qed.

Lemma communication_qualifiers_NoDup : NoDup communication_qualifiers.*1.
Proof. apply (bool_decide_unpack _). by vm_compute. Qed.

(** C8. Each code lookup returns the description of the table when the raw
    code is one of its keys, and the raw code itself when it is not; it
    returns a string for every raw code. *)
Theorem code_lookup_total (value : string) :
  (forall description,
      (value, description) ∈ contact_function_codes ->
      ContactFunctionCode_parser (Some value) = Some description)
  /\ (value ∉ contact_function_codes.*1 ->
      ContactFunctionCode_parser (Some value) = Some value)
  /\ (forall description,
         (value, description) ∈ communication_qualifiers ->
         CommunicationQualifier_parser (Some value) = Some description)
  /\ (value ∉ communication_qualifiers.*1 ->
      CommunicationQualifier_parser (Some value) = Some value)
  /\ is_Some (ContactFunctionCode_parser (Some value))
  /\ is_Some (CommunicationQualifier_parser (Some value)).
Proof.
  repeat split.
  - intros d Hin. by apply lookup_hit; [apply contact_function_codes_NoDup|].
  - by apply lookup_miss.
  - intros d Hin. by apply lookup_hit; [apply communication_qualifiers_NoDup|].
  - by apply lookup_miss.
  - unfold ContactFunctionCode_parser, dict_get_default.
    destruct (dict_get value contact_function_codes); eauto.
  - unfold CommunicationQualifier_parser, dict_get_default.
    destruct (dict_get value communication_qualifiers); eauto.
Qed.

Lemma code_lookup_total_witness :
  ContactFunctionCode_parser (Some "BL") = Some "billing contact"
  /\ CommunicationQualifier_parser (Some "ZZ") = Some "ZZ"
  /\ CommunicationQualifier_parser (Some "TE") = Some "telephone"
  /\ ContactFunctionCode_parser (Some "ZZ") = Some "ZZ".
Proof.
  split; [|split; [|split]].
  - apply (code_lookup_total "BL"). set_solver.
  - apply (code_lookup_total "ZZ"). by apply (bool_decide_unpack _).
  - apply (code_lookup_total "TE"). set_solver.
  - apply (code_lookup_total "ZZ"). by apply (bool_decide_unpack _).
Defined.

End ElementsFacts.

(** ** Segment construction *)
Module SegmentsFacts.
Import Py Elements Segments.

Lemma index_Some {A} (l : list A) i : i < List.length l -> exists a, index l i = Ok a /\ l !! i = Some a.
Proof.
  intros Hi. destruct (lookup_lt_is_Some_2 l i Hi) as [a Ha].
  exists a. unfold index. by rewrite Ha.
Qed.

Lemma index_None {A} (l : list A) i : List.length l <= i -> index l i = Raise IndexError.
Proof.
  intros Hi. unfold index. by rewrite (lookup_ge_None_2 l i Hi).
Qed.

(** C3, as stated, fails: a [TRN] record with its tag and one field has
    fewer fields than the four of the catalog, and [Trace] raises
    [IndexError] on it; so does [Contact] on a [PER] record without
    fields. *)
Lemma short_record_raises :
  List.length (SpecModel.split_segment "TRN*1") < 4
  /\ Trace_init SpecModel.split_segment SpecModel.Identifier_parser "TRN*1"
     = Raise IndexError
  /\ Contact_init SpecModel.split_segment SpecModel.get_element
       SpecModel.Identifier_parser "PER"
     = Raise IndexError.
Proof. repeat split; vm_compute; lia. Qed.

Section Shortfall.
Variable split_segment : string -> list string.
Variable get_element : list string -> nat -> pystr.
Variable Identifier_parser : pystr -> pystr.
(** [get_element] gives the absent value past the end of the record. *)
Hypothesis get_element_absent :
  forall segment i, List.length segment <= i -> get_element segment i = None.

Let Trace := Trace_init split_segment Identifier_parser.
Let Contact := Contact_init split_segment get_element Identifier_parser.

(** C3, amended.  [Trace] succeeds on every record that has its tag, trace
    type and trace number, and a missing fourth field is [None]; [Contact]
    succeeds on every record that has its tag and function code, and each
    missing later field is [None].  On a shorter record the constructor
    raises [IndexError]. *)
Theorem trailing_fields_absent (segment : string) :
  let n := List.length (split_segment segment) in
  (3 <= n ->
   exists t, Trace segment = Ok t
             /\ (n <= 3 -> entity_identifier t = None))
  /\ (n < 3 -> Trace segment = Raise IndexError)
  /\ (2 <= n ->
      exists c, Contact segment = Ok c
                /\ (n <= 2 -> name c = None)
                /\ (n <= 3 -> communication_number_qualifier c = None)
                /\ (n <= 4 -> communication_number c = None)
                /\ (n <= 5 -> communication_number_qualifier_2 c = None)
                /\ (n <= 6 -> communication_number_2 c = None))
  /\ (n < 2 -> Contact segment = Raise IndexError).
Proof.
  intros n. subst n Trace Contact. unfold Trace_init, Contact_init.
  set (fields := split_segment segment) in *.
  split; [|split; [|split]].
  - intros Hn.
    destruct (index_Some fields 0) as (f0 & -> & _); [lia|].
    destruct (index_Some fields 1) as (f1 & -> & _); [lia|].
    destruct (index_Some fields 2) as (f2 & -> & _); [lia|].
    simpl. destruct (Nat.ltb_spec 3 (List.length fields)) as [Hlt|Hge].
    + destruct (index_Some fields 3) as (f3 & -> & _); [lia|].
      simpl. eexists. split; [done|]. lia.
    + simpl. eexists. split; done.
  - intros Hn.
    destruct (decide (List.length fields = 0)) as [H0|H0].
    { by rewrite (index_None fields 0) by lia. }
    destruct (index_Some fields 0) as (f0 & -> & _); [lia|]. simpl.
    destruct (decide (List.length fields = 1)) as [H1|H1].
    { by rewrite (index_None fields 1) by lia. }
    destruct (index_Some fields 1) as (f1 & -> & _); [lia|]. simpl.
    by rewrite (index_None fields 2) by lia.
  - intros Hn.
    destruct (index_Some fields 0) as (f0 & -> & _); [lia|].
    destruct (index_Some fields 1) as (f1 & -> & _); [lia|].
    simpl. eexists. split; [done|]. simpl.
    repeat split; intros Hi; rewrite ?get_element_absent; done.
  - intros Hn.
    destruct (decide (List.length fields = 0)) as [H0|H0].
    { by rewrite (index_None fields 0) by lia. }
    destruct (index_Some fields 0) as (f0 & -> & _); [lia|]. simpl.
    by rewrite (index_None fields 1) by lia.
Qed.
End Shortfall.

Lemma trailing_fields_absent_witness :
  exists t,
    Trace_init SpecModel.split_segment SpecModel.Identifier_parser "TRN*1*123"
    = Ok t
    /\ (3 <= 3 -> entity_identifier t = None).
Proof.
  apply (trailing_fields_absent SpecModel.split_segment SpecModel.get_element
           SpecModel.Identifier_parser).
  - intros segment i Hi. by apply lookup_ge_None_2.
  - vm_compute. lia.
Defined.

End SegmentsFacts.

(** ** The assembler *)
Module AssemblerFacts.
Import Py Assembler Samples.

Section Facts.
Context `{Imports}.

Lemma the_only_Ok {A} (l : list A) (a : A) : the_only l = Ok a <-> l = [a].
Proof.
  unfold the_only. split.
  - destruct l as [|x [|y l]]; simpl; try done.
    unfold index. simpl. by intros [= ->].
  - by intros ->.
Qed.

Lemma the_only_Raise {A} (l : list A) :
  List.length l <> 1 -> the_only l = Raise AssertionError.
Proof.
  unfold the_only. intros Hl.
  by destruct (Nat.eqb_spec (List.length l) 1).
Qed.

Lemma build_attribute_raise segment segments e :
  build_attribute segment segments = Raise e -> raised_by_callee e.
Proof.
  unfold build_attribute.
  set (next := match segment with Some _ => _ | None => _ end).
  destruct next as [[s rest]|]; [|done].
  repeat case_match; try done;
    match goal with
    | |- bind ?m _ = _ -> _ =>
        let E := fresh in destruct m eqn:E; simpl; [done|];
        intros [= <-]; exists s; eauto 10
    end.
Qed.

Lemma build_loop_raise fuel segment segments self e :
  build_loop fuel segment segments self = Some (Raise e) ->
  raised_by_callee e.
Proof.
  revert segment segments self.
  induction fuel as [|fuel IH]; intros segment segments self; simpl; [done|].
  destruct (build_attribute segment segments) as [response|e'] eqn:Hresp.
  - destruct (resp_segments response); [apply IH|done].
  - intros [= <-]. by eapply build_attribute_raise.
Qed.

Lemma build_loop_file_path fuel segment segments self ts :
  build_loop fuel segment segments self = Some (Ok ts) ->
  file_path ts = file_path self.
Proof.
  revert segment segments self.
  induction fuel as [|fuel IH]; intros segment segments self; simpl; [done|].
  destruct (build_attribute segment segments) as [response|e']; [|done].
  destruct (resp_segments response).
  - intros Hb. rewrite (IH _ _ _ Hb). by destruct (resp_key_value response).
  - by intros [= ->].
Qed.

(** C5. The payer (resp. payee) accessor returns an organization exactly
    when it is the only one whose type is payer (resp. payee); with none or
    several it raises at the access.  [build] has no such check: every
    exception it raises is one that a segment constructor or a loop builder
    raised on a record. *)
Theorem payer_payee_accessors (self : TransactionSet) :
  (forall o, payer self = Ok o
             <-> filter (fun o => has_type "payer" o) (organizations self) = [o])
  /\ (List.length (filter (fun o => has_type "payer" o) (organizations self)) <> 1
      -> payer self = Raise AssertionError)
  /\ (forall o, payee self = Ok o
                <-> filter (fun o => has_type "payee" o) (organizations self) = [o])
  /\ (List.length (filter (fun o => has_type "payee" o) (organizations self)) <> 1
      -> payee self = Raise AssertionError)
  /\ (forall fuel file path e,
         build fuel file path = Some (Raise e) -> raised_by_callee e).
Proof.
  split; [|split; [|split; [|split]]].
  - intros o. apply the_only_Ok.
  - apply the_only_Raise.
  - intros o. apply the_only_Ok.
  - apply the_only_Raise.
  - intros fuel file path e. apply build_loop_raise.
Qed.

(** The columns of the repeated groups leave the other columns alone. *)
Lemma add_columns_other {A} (cols : list (string * (A -> cell))) prefix
    index (xs : list A) (d : datum) key :
  (forall n suffix, prefix +:+ str_of_nat n +:+ suffix <> key) ->
  dict_get key (add_columns cols prefix index xs d) = dict_get key d.
Proof.
  intros Hkey. revert index d.
  induction xs as [|x xs IH]; intros index d; simpl; [done|].
  rewrite IH. clear IH. revert d.
  induction cols as [|col cols IHc]; intros d; simpl; [done|].
  rewrite IHc, DictFacts.dict_get_set.
  destruct (String.eqb_spec (prefix +:+ str_of_nat index +:+ col.1) key)
    as [Heq|]; [|done].
  by apply Hkey in Heq.
Qed.

Lemma serialize_service_dates fi p claim service d :
  serialize_service fi p claim service = Ok d ->
  dict_get "start_date" d
  = Some (match service_period_start service with
          | Some date => date_of date
          | None =>
              match claim_statement_period_start claim with
              | Some date => date_of date
              | None => None
              end
          end)
  /\ dict_get "end_date" d
     = Some (match service_period_end service with
             | Some date => date_of date
             | None =>
                 match claim_statement_period_end claim with
                 | Some date => date_of date
                 | None => None
                 end
             end).
Proof.
  unfold serialize_service. destruct fi; simpl; [|done].
  intros [= <-]. split; reflexivity.
Qed.

Lemma service_row_dates self claim service d :
  service_row self claim service = Ok d ->
  exists fi p d0,
    serialize_service fi p claim service = Ok d0
    /\ dict_get "start_date" d = dict_get "start_date" d0
    /\ dict_get "end_date" d = dict_get "end_date" d0.
Proof.
  unfold service_row.
  destruct (payer self) as [p|]; simpl; [|done].
  destruct (serialize_service _ p claim service) as [d0|] eqn:Hd0;
    simpl; [|done].
  intros [= <-]. exists (financial_information self), p, d0.
  split; [done|].
  split; rewrite !add_columns_other; try done;
    intros n suffix; simpl; discriminate.
Qed.

Lemma collect_rows_Forall2 self pairs rows :
  collect_rows self pairs = Ok rows ->
  Forall2 (fun pair row => service_row self pair.1 pair.2 = Ok row) pairs rows.
Proof.
  revert rows. induction pairs as [|[claim service] pairs IH];
    intros rows; simpl.
  - intros [= <-]. constructor.
  - destruct (service_row self claim service) as [d|] eqn:Hd; simpl; [|done].
    destruct (collect_rows self pairs) as [ds|]; simpl; [|done].
    intros [= <-]. constructor; [done|]. by apply IH.
Qed.

Lemma collect_rows_total self pairs p fi :
  payer self = Ok p -> financial_information self = Some fi ->
  exists rows, collect_rows self pairs = Ok rows.
Proof.
  intros Hp Hfi. induction pairs as [|[claim service] pairs [rows IH]];
    simpl; [by eexists|].
  unfold service_row, serialize_service. rewrite Hp, Hfi. simpl.
  rewrite IH. simpl. by eexists.
Qed.

(** C7. With one payer and a financial information segment,
    [to_dataframe] emits its rows.  Every row it emits belongs to one
    (claim, service) pair, in the order of the document, and its start date
    is the date of the service's own start date record when the service has
    one, otherwise that of the claim's when the claim has one, otherwise
    [None]; and likewise for its end date. *)
Theorem effective_service_dates (self : TransactionSet) :
  (forall p fi,
      payer self = Ok p -> financial_information self = Some fi ->
      exists rows, to_dataframe self = Ok rows)
  /\ forall rows : list datum,
    to_dataframe self = Ok rows ->
    Forall2
      (fun pair row =>
         let claim := pair.1 in
         let service := pair.2 in
         (forall d, service_period_start service = Some d ->
                    dict_get "start_date" row = Some (date_of d))
         /\ (service_period_start service = None ->
             forall d, claim_statement_period_start claim = Some d ->
                       dict_get "start_date" row = Some (date_of d))
         /\ (service_period_start service = None ->
             claim_statement_period_start claim = None ->
             dict_get "start_date" row = Some None)
         /\ (forall d, service_period_end service = Some d ->
                       dict_get "end_date" row = Some (date_of d))
         /\ (service_period_end service = None ->
             forall d, claim_statement_period_end claim = Some d ->
                       dict_get "end_date" row = Some (date_of d))
         /\ (service_period_end service = None ->
             claim_statement_period_end claim = None ->
             dict_get "end_date" row = Some None))
      (claim_service_pairs self) rows.
Proof.
  split; [intros p fi; apply collect_rows_total|].
  intros rows Hrows. apply collect_rows_Forall2 in Hrows.
  eapply Forall2_impl; [exact Hrows|].
  intros [claim service] row Hrow. simpl in *.
  apply service_row_dates in Hrow as (fi & p & d0 & Hd0 & Hs & He).
  apply serialize_service_dates in Hd0 as [Hs0 He0].
  unfold datum, cell in *. rewrite Hs, He, Hs0, He0.
  split; [|split; [|split; [|split; [|split]]]].
  - by intros d ->.
  - by intros -> d ->.
  - by intros -> ->.
  - by intros d ->.
  - by intros -> d ->.
  - by intros -> ->.
Qed.

(** [build] on records none of which starts a loop: every record is
    consumed, the scalars are taken from the records with their tags and
    nothing else changes. *)
Lemma build_loop_scalars (segments : list string) :
  Forall (fun s =>
            find_identifier s <> OrganizationLoop_initiating_identifier
            /\ find_identifier s <> ClaimLoop_initiating_identifier
            /\ (find_identifier s = InterchangeSegment_identification ->
                exists v, InterchangeSegment_init s = Ok v)
            /\ (find_identifier s = FinancialInformationSegment_identification ->
                exists v, FinancialInformationSegment_init s = Ok v)
            /\ (find_identifier s = "TRN" ->
                exists v, Segments.Trace_init split_segment Identifier_parser s
                          = Ok v))
         segments ->
  forall fuel self,
    List.length segments < fuel ->
    exists ts,
      build_loop fuel None segments self = Some (Ok ts)
      /\ (Forall (fun s => find_identifier s <> InterchangeSegment_identification)
                 segments -> interchange ts = interchange self)
      /\ (Forall (fun s => find_identifier s
                           <> FinancialInformationSegment_identification)
                 segments ->
          financial_information ts = financial_information self)
      /\ claims ts = claims self
      /\ organizations ts = organizations self.
Proof.
  induction 1 as [|s segments (Horg & Hclp & Hisa & Hbpr & Htrn) _ IH];
    intros fuel self Hfuel.
  - destruct fuel as [|fuel]; [simpl in Hfuel; lia|].
    exists self. simpl. by repeat split.
  - destruct fuel as [|fuel]; [simpl in Hfuel; lia|].
    simpl in Hfuel. simpl. unfold build_attribute.
    destruct (String.eqb_spec (find_identifier s)
                InterchangeSegment_identification) as [Ei|Ei].
    { destruct (Hisa Ei) as [v ->]. simpl.
      destruct (IH fuel (collect self (AnInterchange v))) as
        (ts & Hb & _ & Hf & Hc & Ho); [lia|].
      exists ts. split; [exact Hb|]. split.
      { intros Hall. by apply Forall_cons in Hall as [? _]. }
      split; [|done].
      intros Hall. apply Forall_cons in Hall as [_ Hall]. by rewrite Hf. }
    destruct (String.eqb_spec (find_identifier s)
                FinancialInformationSegment_identification) as [Ef|Ef].
    { destruct (Hbpr Ef) as [v ->]. simpl.
      destruct (IH fuel (collect self (AFinancialInformation v))) as
        (ts & Hb & Hi & _ & Hc & Ho); [lia|].
      exists ts. split; [exact Hb|]. split.
      { intros Hall. apply Forall_cons in Hall as [_ Hall]. by rewrite Hi. }
      split; [|done].
      intros Hall. by apply Forall_cons in Hall as [? _]. }
    destruct (String.eqb_spec (find_identifier s) "TRN") as [Et|Et].
    { destruct (Htrn Et) as [v ->]. simpl.
      destruct (IH fuel (collect self (ATrace v))) as
        (ts & Hb & Hi & Hf & Hc & Ho); [lia|].
      exists ts. split; [exact Hb|]. split.
      { intros Hall. apply Forall_cons in Hall as [_ Hall]. by rewrite Hi. }
      split; [|done].
      intros Hall. apply Forall_cons in Hall as [_ Hall]. by rewrite Hf. }
    destruct (String.eqb_spec (find_identifier s)
                OrganizationLoop_initiating_identifier); [done|].
    destruct (String.eqb_spec (find_identifier s)
                ClaimLoop_initiating_identifier); [done|].
    simpl.
    destruct (IH fuel self) as (ts & Hb & Hi & Hf & Hc & Ho); [lia|].
    exists ts. split; [exact Hb|]. split.
    { intros Hall. apply Forall_cons in Hall as [_ Hall]. by rewrite Hi. }
    split; [|done].
    intros Hall. apply Forall_cons in Hall as [_ Hall]. by rewrite Hf.
Qed.

(** C2, amended.  [build] makes no structural check.  On an input without
    loop-initiating records, on whose scalar records the constructors
    succeed, it returns a transaction set, whatever the first record is: a
    record with an unrecognised tag is skipped, and the interchange (resp.
    the financial information) of the result is [None] when no record has
    its tag. *)
Theorem build_returns_without_scalars (file path : string) (fuel : nat) :
  List.length (Preprocess.build_segments file) < fuel ->
  Forall (fun s =>
            find_identifier s <> OrganizationLoop_initiating_identifier
            /\ find_identifier s <> ClaimLoop_initiating_identifier
            /\ (find_identifier s = InterchangeSegment_identification ->
                exists v, InterchangeSegment_init s = Ok v)
            /\ (find_identifier s = FinancialInformationSegment_identification ->
                exists v, FinancialInformationSegment_init s = Ok v)
            /\ (find_identifier s = "TRN" ->
                exists v, Segments.Trace_init split_segment Identifier_parser s
                          = Ok v))
         (Preprocess.build_segments file) ->
  exists ts,
    build fuel file path = Some (Ok ts)
    /\ (Forall (fun s => find_identifier s <> InterchangeSegment_identification)
               (Preprocess.build_segments file) -> interchange ts = None)
    /\ (Forall (fun s => find_identifier s
                         <> FinancialInformationSegment_identification)
               (Preprocess.build_segments file) ->
        financial_information ts = None)
    /\ claims ts = [] /\ organizations ts = [] /\ file_path ts = path.
Proof.
  intros Hfuel Hsegs. unfold build.
  edestruct (build_loop_scalars _ Hsegs fuel) as (ts & Hb & Hi & Hf & Hc & Ho);
    [exact Hfuel|].
  exists ts. split; [exact Hb|].
  apply build_loop_file_path in Hb as Hp. by repeat split.
Qed.

End Facts.

Import SpecInstance.

(** C2, as stated, fails: the first record of [bare_transaction] is not the
    interchange-opening record, and there is no [ISA] and no [BPR] record,
    yet [build] returns a transaction set, with [None] for the interchange and
    the financial information. *)
Lemma build_bare_transaction :
  find_identifier "ST*835*0001" <> InterchangeSegment_identification
  /\ build 4 bare_transaction "remit.835"
     = Some (Ok {| interchange := None; financial_information := None;
                   trace := None; claims := []; organizations := [];
                   file_path := "remit.835" |}).
Proof. split; [by vm_compute|reflexivity]. Qed.

Lemma build_returns_without_scalars_witness :
  exists ts,
    build 4 bare_transaction "remit.835" = Some (Ok ts)
    /\ (Forall (fun s => find_identifier s <> InterchangeSegment_identification)
               (Preprocess.build_segments bare_transaction) ->
        interchange ts = None)
    /\ (Forall (fun s => find_identifier s
                         <> FinancialInformationSegment_identification)
               (Preprocess.build_segments bare_transaction) ->
        financial_information ts = None)
    /\ claims ts = [] /\ organizations ts = [] /\ file_path ts = "remit.835".
Proof.
  apply (build_returns_without_scalars bare_transaction "remit.835" 4).
  - vm_compute. lia.
  - vm_compute. repeat constructor; try discriminate.
Defined.

(** Two payers: the document is built, and the access to the payer fails. *)
Lemma payer_payee_accessors_witness :
  build 10 two_payers "remit.835" = Some (Ok two_payers_set)
  /\ payer two_payers_set = Raise AssertionError
  /\ payee two_payers_set = Raise AssertionError.
Proof.
  split; [reflexivity|]. split.
  - apply payer_payee_accessors. by vm_compute.
  - apply payer_payee_accessors. by vm_compute.
Defined.

Lemma effective_service_dates_witness :
  build 30 remittance "remit.835" = Some (Ok remittance_set)
  /\ to_dataframe remittance_set = Ok remittance_rows
  /\ List.length remittance_rows = 2
  /\ Forall2
       (fun pair row =>
          service_period_start pair.2 = None ->
          forall d, claim_statement_period_start pair.1 = Some d ->
                    dict_get "start_date" row = Some (date_of d))
       (claim_service_pairs remittance_set) remittance_rows.
Proof.
  split; [reflexivity|]. split; [reflexivity|]. split; [reflexivity|].
  eapply Forall2_impl.
  - apply (proj2 (effective_service_dates remittance_set) remittance_rows).
    reflexivity.
  - intros pair row Hrow. apply Hrow.
Defined.

End AssemblerFacts.

(** ** File discovery and [parse_to_json] *)
Module PackageFacts.
Import Py Assembler Package Samples.

Section Facts.
Context `{Imports}.
Variable expanduser : string -> string.
Variable isdir : string -> bool.
Variable listdir : string -> list string.

Local Abbreviation edi_835_name file :=
  (endswith file ".txt" || endswith file ".835" || endswith file ".DAT").
Local Abbreviation parse_to_json := (parse_to_json expanduser isdir listdir).
Local Abbreviation _find_edi_835_files := (_find_edi_835_files listdir).
Local Abbreviation files := (gmap string string).

Lemma find_first path pre first post :
  listdir path = pre ++ first :: post ->
  Forall (fun file => edi_835_name file = false) pre ->
  edi_835_name first = true ->
  exists others, _find_edi_835_files path = first :: others.
Proof.
  intros Hl Hpre Hfirst. unfold Package._find_edi_835_files. rewrite Hl.
  rewrite filter_app.
  assert (filter (fun file => edi_835_name file) pre = []) as ->.
  { clear Hl. induction Hpre as [|f pre Hf _ IH]; [done|].
    rewrite filter_cons. destruct (decide _) as [Ht|_]; [|done].
    rewrite Hf in Ht. done. }
  rewrite filter_cons. destruct (decide _) as [_|Hn]; [|by rewrite Hfirst in Hn].
  eauto.
Qed.

Lemma find_none path :
  Forall (fun file => edi_835_name file = false) (listdir path) ->
  _find_edi_835_files path = [].
Proof.
  unfold Package._find_edi_835_files.
  induction 1 as [|f l Hf _ IH]; [done|].
  rewrite filter_cons. destruct (decide _) as [Ht|_]; [|done].
  rewrite Hf in Ht. done.
Qed.

Lemma build_file_path fuel file path ts :
  build fuel file path = Some (Ok ts) -> file_path ts = path.
Proof. intros Hb. by apply AssemblerFacts.build_loop_file_path in Hb. Qed.

(** The outcome of parsing a file depends on no other file. *)
Lemma parse_file_to_json_local fuel (fs1 fs2 : files) path debug preprocess :
  fs1 !! path = fs2 !! path ->
  fst <$> parse_file_to_json fuel fs1 path debug preprocess
  = fst <$> parse_file_to_json fuel fs2 path debug preprocess.
Proof.
  intros Heq.
  unfold parse_file_to_json, _build_transaction_set, build_file, read.
  rewrite Heq.
  destruct preprocess; simpl.
  - destruct (fs2 !! path) as [content|] eqn:Hc; simpl.
    + destruct (Preprocess.needs_preprocessing content).
      * rewrite !lookup_insert_eq.
        destruct (build fuel _ _) as [[ts|e]|] eqn:Hb; simpl; [| |done].
        -- unfold TransactionSet_to_json, read. simpl.
           rewrite !lookup_insert_eq. simpl.
           destruct debug; simpl; repeat case_match; done.
        -- by destruct debug.
      * destruct (build fuel content path) as [[ts|e]|] eqn:Hb; simpl;
          [| |done].
        -- unfold TransactionSet_to_json, read.
           rewrite (build_file_path _ _ _ _ Hb), Heq, Hc. simpl.
           destruct debug; simpl; repeat case_match; done.
        -- by destruct debug.
    + by destruct debug.
  - destruct (fs2 !! path) as [content|] eqn:Hc; simpl.
    + destruct (build fuel content path) as [[ts|e]|] eqn:Hb; simpl;
        [| |done].
      * unfold TransactionSet_to_json, read.
        rewrite (build_file_path _ _ _ _ Hb), Heq, Hc. simpl.
        destruct debug; simpl; repeat case_match; done.
      * by destruct debug.
    + by destruct debug.
Qed.

(** C10. Given a directory, [parse_to_json] parses the first file of the
    listing whose name ends in [.txt], [.835] or [.DAT]: its outcome is that
    of parsing this one file, whatever else the directory holds and
    whatever the other files contain; and it raises [ValueError] when no
    name of the listing has one of these extensions. *)
Theorem parse_to_json_directory (fuel : nat) (fs : files) (path : string)
    (debug preprocess : bool) (c : ascii) (rest : string) :
  path = String c rest ->
  let dir := if Ascii.eqb c "~" then expanduser path else path in
  isdir dir = true ->
  (forall pre first post,
      listdir dir = pre ++ first :: post ->
      Forall (fun file => edi_835_name file = false) pre ->
      edi_835_name first = true ->
      parse_to_json fuel fs path debug preprocess
      = parse_file_to_json fuel fs (dir +:+ "/" +:+ first) debug preprocess
      /\ forall fs' : files,
          fs' !! (dir +:+ "/" +:+ first) = fs !! (dir +:+ "/" +:+ first) ->
          fst <$> parse_to_json fuel fs' path debug preprocess
          = fst <$> parse_to_json fuel fs path debug preprocess)
  /\ (Forall (fun file => edi_835_name file = false) (listdir dir) ->
      exists msg,
        parse_to_json fuel fs path debug preprocess
        = Some (Raise (ValueError msg), fs)).
Proof.
  intros -> dir Hdir.
  assert (forall fs0 : files,
             Package.parse_to_json expanduser isdir listdir fuel fs0
               (String c rest) debug preprocess
             = match _find_edi_835_files dir with
               | [] => Some (Raise (ValueError
                               ("No EDI 835 files found in directory: "
                                +:+ dir)), fs0)
               | first :: _ =>
                   parse_file_to_json fuel fs0 (dir +:+ "/" +:+ first)
                     debug preprocess
               end) as Hsel.
  { intros fs0. unfold Package.parse_to_json, select_file_path.
    simpl. fold dir. rewrite Hdir.
    by destruct (_find_edi_835_files dir). }
  split.
  - intros pre first post Hl Hpre Hfirst.
    destruct (find_first dir pre first post Hl Hpre Hfirst) as [others Hf].
    split.
    + by rewrite Hsel, Hf.
    + intros fs' Hfs. rewrite !Hsel, Hf.
      by apply parse_file_to_json_local.
  - intros Hnone. rewrite Hsel, (find_none dir Hnone). eauto.
Qed.

End Facts.

Import SpecInstance.

Lemma parse_to_json_directory_witness :
  Package.parse_to_json id sample_isdir sample_listdir 10 sample_files
    "inbox" false true
  = parse_file_to_json 10 sample_files "inbox/second.DAT" false true.
Proof.
  refine (proj1 (proj1 (parse_to_json_directory id sample_isdir sample_listdir
                          10 sample_files "inbox" false true "i" "nbox"
                          eq_refl eq_refl)
                   ["README.md"] "second.DAT" ["first.txt"; "third.dat"]
                   _ _ _)).
  - reflexivity.
  - by repeat constructor.
  - reflexivity.
Defined.

End PackageFacts.

(** ** The hierarchical view *)
Module JsonFacts.
Import Py Json DictFacts Samples.

(** *** References *)

Lemma get_app p q j : get (p ++ q) j = get p j ≫= get q.
Proof.
  revert j. induction p as [|s p IH]; intros j; simpl; [done|].
  destruct (child s j); simpl; [apply IH|done].
Qed.

Lemma modify_app p q f j : modify (p ++ q) f j = modify p (modify q f) j.
Proof.
  revert j. induction p as [|s p IH]; intros j; simpl; [done|].
  destruct s as [k|i], j as [| |l|d]; try done; f_equal.
  - induction d as [|[k' v] d IHd]; simpl; [done|].
    destruct (String.eqb k' k); by rewrite ?IH, ?IHd.
  - apply list_eq. intros n. rewrite !list_lookup_alter.
    case_decide; [|done]. destruct (l !! i) as [x|]; [|done].
    simpl. by rewrite IH.
Qed.

Lemma child_modify_same s q f j :
  child s (modify (s :: q) f j) = modify q f <$> child s j.
Proof.
  destruct s as [k|i], j as [| |l|d]; simpl; try done.
  - rewrite dict_get_alter. by rewrite String.eqb_refl.
  - rewrite list_lookup_alter. by case_decide.
Qed.

Lemma child_modify_other s s' q f j :
  s <> s' -> child s (modify (s' :: q) f j) = child s j.
Proof.
  intros Hne. destruct s as [k|i], s' as [k'|i'], j as [| |l|d];
    simpl; try done.
  - rewrite dict_get_alter.
    destruct (String.eqb_spec k' k); [congruence|done].
  - rewrite list_lookup_alter. case_decide; [congruence|done].
Qed.

(** Reading an object after a mutation at or below it. *)
Lemma get_modify p q f j : get p (modify (p ++ q) f j) = modify q f <$> get p j.
Proof.
  revert j. induction p as [|s p IH]; intros j; [done|].
  change ((s :: p) ++ q) with (s :: (p ++ q)).
  cbn [get]. rewrite child_modify_same.
  destruct (child s j); simpl; [apply IH|done].
Qed.

Lemma get_modify_same p f j : get p (modify p f j) = f <$> get p j.
Proof. by rewrite <-(app_nil_r p) at 2; rewrite get_modify. Qed.

(** Reading an object after a mutation elsewhere. *)
Lemma get_modify_apart a s s' p q f j :
  s <> s' ->
  get (a ++ s :: p) (modify (a ++ s' :: q) f j) = get (a ++ s :: p) j.
Proof.
  intros Hne. rewrite !get_app, get_modify.
  destruct (get a j) as [o|]; [|done].
  change (get (s :: p) (modify (s' :: q) f o) = get (s :: p) o).
  cbn [get]. by rewrite child_modify_other.
Qed.

Lemma extends_refl j : extends j j.
Proof. by intros r _. Qed.

Lemma extends_trans j1 j2 j3 : extends j1 j2 -> extends j2 j3 -> extends j1 j3.
Proof. intros H12 H23 r Hr Hs. by apply H23, H12. Qed.

Lemma extends_modify q f j :
  (forall o, extends o (f o)) -> extends j (modify q f j).
Proof.
  intros Hf. revert j. induction q as [|s q IH]; intros j; [apply Hf|].
  intros [|s' r] Hr; [by eauto|].
  apply Forall_cons in Hr as [_ Hr]. cbn [get].
  destruct (decide (s' = s)) as [->|Hne].
  - rewrite child_modify_same. destruct (child s j) as [o|]; simpl; [|done].
    by apply IH.
  - by rewrite child_modify_other.
Qed.

Lemma extends_store key value o : key ∉ loop_keys -> extends o (store key value o).
Proof.
  intros Hkey [|s r] Hr; [by eauto|].
  apply Forall_cons in Hr as [Hs _].
  destruct o as [| |l|d]; try done. destruct s as [k|i]; [|done].
  cbn [get store child]. rewrite dict_get_set.
  destruct (String.eqb_spec key k) as [->|]; done.
Qed.

Lemma extends_push value o : extends o (push value o).
Proof.
  intros [|s r] Hr; [by eauto|].
  destruct o as [| |l|d]; try done. destruct s as [k|i]; [done|].
  cbn [get push child]. intros Hs.
  destruct (l !! i) as [x|] eqn:Hx; [|by destruct Hs].
  by rewrite (lookup_app_l_Some _ _ _ _ Hx).
Qed.

Lemma extends_set_item r key value j :
  key ∉ loop_keys -> extends j (set_item r key value j).
Proof. intros Hkey. apply extends_modify. intros o. by apply extends_store. Qed.

Lemma extends_append r key value j : extends j (append r key value j).
Proof. apply extends_modify. intros o. apply extends_push. Qed.

Lemma extends_attach r key value j :
  key ∉ loop_keys -> extends j (attach r key value j).
Proof.
  intros Hkey. apply extends_modify. intros o. unfold guarded_append.
  destruct (negb (has_key key o)).
  - eapply extends_trans; [by apply extends_store|].
    apply extends_modify. intros o'. apply extends_push.
  - apply extends_modify. intros o'. apply extends_push.
Qed.

(** The object appended to a list is its last item. *)
Lemma get_append_new r key value j l :
  get (r ++ [Key key]) j = Some (JList l) ->
  len_of r key j = List.length l
  /\ get (r ++ [Key key; Idx (List.length l)]) (append r key value j)
     = Some value.
Proof.
  intros Hl. unfold len_of, append. rewrite Hl. split; [done|].
  change [Key key; Idx (List.length l)] with ([Key key] ++ [Idx (List.length l)]).
  rewrite app_assoc, get_app, get_modify_same, Hl. simpl.
  by rewrite lookup_app_r, Nat.sub_diag.
Qed.


(** *** The shape of the hierarchical view *)
Section Shapes.
Variable split_segment : string -> list string.

Local Abbreviation is_record := (is_record split_segment).
Local Abbreviation is_optional_record := (is_optional_record split_segment).
Local Abbreviation is_svc_loop := (is_svc_loop split_segment).
Local Abbreviation is_clp_loop := (is_clp_loop split_segment).
Local Abbreviation is_n1_loop := (is_n1_loop split_segment).
Local Abbreviation is_transaction := (is_transaction split_segment).
Local Abbreviation is_document := (is_document split_segment).

Lemma convert_isa_record segment :
  is_record isa_fields (_convert_isa_segment split_segment segment).
Proof. by exists segment. Qed.

Lemma convert_gs_record segment :
  is_record gs_fields (_convert_gs_segment split_segment segment).
Proof. by exists segment. Qed.

Lemma convert_st_record segment :
  is_record st_fields (_convert_st_segment split_segment segment).
Proof. by exists segment. Qed.

Lemma convert_bpr_record segment :
  is_record bpr_fields (_convert_bpr_segment split_segment segment).
Proof. by exists segment. Qed.

Lemma convert_trn_record segment :
  is_record trn_fields (_convert_trn_segment split_segment segment).
Proof. by exists segment. Qed.

Lemma convert_dtm_record segment :
  is_record dtm_fields (_convert_dtm_segment split_segment segment).
Proof. by exists segment. Qed.

Lemma convert_n1_record segment :
  is_record n1_fields (_convert_n1_segment split_segment segment).
Proof. by exists segment. Qed.

Lemma convert_n3_record segment :
  is_record n3_fields (_convert_n3_segment split_segment segment).
Proof. by exists segment. Qed.

Lemma convert_n4_record segment :
  is_record n4_fields (_convert_n4_segment split_segment segment).
Proof. by exists segment. Qed.

Lemma convert_per_record segment :
  is_record per_fields (_convert_per_segment split_segment segment).
Proof. by exists segment. Qed.

Lemma convert_ref_record segment :
  is_record ref_fields (_convert_ref_segment split_segment segment).
Proof. by exists segment. Qed.

Lemma convert_clp_record segment :
  is_record clp_fields (_convert_clp_segment split_segment segment).
Proof. by exists segment. Qed.

Lemma convert_cas_record segment :
  is_record cas_fields (_convert_cas_segment split_segment segment).
Proof. by exists segment. Qed.

Lemma convert_nm1_record segment :
  is_record nm1_fields (_convert_nm1_segment split_segment segment).
Proof. by exists segment. Qed.

Lemma convert_amt_record segment :
  is_record amt_fields (_convert_amt_segment split_segment segment).
Proof. by exists segment. Qed.

Lemma convert_svc_record segment :
  is_record svc_fields (_convert_svc_segment split_segment segment).
Proof. by exists segment. Qed.

Lemma convert_plb_record segment :
  is_record plb_fields (_convert_plb_segment split_segment segment).
Proof. by exists segment. Qed.

Lemma convert_se_record segment :
  is_record se_fields (_convert_se_segment split_segment segment).
Proof. by exists segment. Qed.

Lemma convert_ge_record segment :
  is_record ge_fields (_convert_ge_segment split_segment segment).
Proof. by exists segment. Qed.

Lemma convert_iea_record segment :
  is_record iea_fields (_convert_iea_segment split_segment segment).
Proof. by exists segment. Qed.

Create HintDb shapes.

Local Hint Resolve
  convert_isa_record
  convert_gs_record
  convert_st_record
  convert_bpr_record
  convert_trn_record
  convert_dtm_record
  convert_n1_record
  convert_n3_record
  convert_n4_record
  convert_per_record
  convert_ref_record
  convert_clp_record
  convert_cas_record
  convert_nm1_record
  convert_amt_record
  convert_svc_record
  convert_plb_record
  convert_se_record
  convert_ge_record
  convert_iea_record : shapes.

Lemma optional_record names o : is_record names o -> is_optional_record names o.
Proof. by right. Qed.

Lemma optional_none names : is_optional_record names JNone.
Proof. by left. Qed.

Local Hint Resolve optional_record optional_none : shapes.
Local Hint Resolve Forall_nil_2 Forall_app_2 Forall_cons_2 : shapes.
Local Hint Extern 1 (Forall _ [_]) => apply Forall_singleton : shapes.

(** The loops that the references denote. *)
Lemma document_transaction j t o :
  is_document j -> get (txn_ref t) j = Some o -> is_transaction o.
Proof.
  intros (isa & gs & txns & ge & iea & -> & _ & _ & Ht & _) Hg.
  unfold txn_ref, interchange in Hg. simpl in Hg.
  destruct (txns !! t) as [x|] eqn:Hx; simplify_eq.
  by eapply Forall_lookup_1.
Qed.

Lemma transaction_n1_loop o n x :
  is_transaction o -> get [Key "N1_loop"; Idx n] o = Some x -> is_n1_loop x.
Proof.
  intros (st & bpr & trn & dtm & n1s & clps & plb & se & -> & H) Hg.
  simpl in Hg. destruct H as (_ & _ & _ & _ & Hn & _).
  destruct (n1s !! n) as [y|] eqn:Hy; simplify_eq.
  by eapply Forall_lookup_1.
Qed.

Lemma transaction_clp_loop o c x :
  is_transaction o -> get [Key "CLP_loop"; Idx c] o = Some x -> is_clp_loop x.
Proof.
  intros (st & bpr & trn & dtm & n1s & clps & plb & se & -> & H) Hg.
  simpl in Hg. destruct H as (_ & _ & _ & _ & _ & Hc & _).
  destruct (clps !! c) as [y|] eqn:Hy; simplify_eq.
  by eapply Forall_lookup_1.
Qed.

Lemma clp_loop_svc_loop o s x :
  is_clp_loop o -> get [Key "SVC_loop"; Idx s] o = Some x -> is_svc_loop x.
Proof.
  intros (clp & cas & nm1 & dtm & amt & refs & svcs & -> & H) Hg.
  simpl in Hg. destruct H as (_ & _ & _ & _ & _ & _ & Hs).
  destruct (svcs !! s) as [y|] eqn:Hy; simplify_eq.
  by eapply Forall_lookup_1.
Qed.

Lemma document_n1_loop j t n x :
  is_document j -> get (n1_ref t n) j = Some x -> is_n1_loop x.
Proof.
  intros Hj. unfold n1_ref. rewrite get_app.
  destruct (get (txn_ref t) j) as [o|] eqn:Ho; [|done]. simpl.
  eapply transaction_n1_loop, document_transaction; eauto.
Qed.

Lemma document_clp_loop j t c x :
  is_document j -> get (clp_ref t c) j = Some x -> is_clp_loop x.
Proof.
  intros Hj. unfold clp_ref. rewrite get_app.
  destruct (get (txn_ref t) j) as [o|] eqn:Ho; [|done]. simpl.
  eapply transaction_clp_loop, document_transaction; eauto.
Qed.

Lemma document_svc_loop j t c s x :
  is_document j -> get (svc_ref t c s) j = Some x -> is_svc_loop x.
Proof.
  intros Hj. unfold svc_ref. rewrite get_app.
  destruct (get (clp_ref t c) j) as [o|] eqn:Ho; [|done]. simpl.
  eapply clp_loop_svc_loop, document_clp_loop; eauto.
Qed.

(** A mutation of a loop that keeps its shape keeps the shape of what
    contains it. *)
Lemma document_modify_transaction j t g :
  is_document j ->
  (forall o, is_transaction o -> is_transaction (g o)) ->
  is_document (modify (txn_ref t) g j).
Proof.
  intros (isa & gs & txns & ge & iea & -> & ? & ? & Ht & ? & ?) Hg.
  unfold txn_ref, interchange. simpl. eexists _, _, _, _, _. split; [done|].
  repeat split; try done.
  apply Forall_alter; [done|]. eauto.
Qed.

Lemma transaction_modify_n1_loop o n g :
  is_transaction o ->
  (forall x, is_n1_loop x -> is_n1_loop (g x)) ->
  is_transaction (modify [Key "N1_loop"; Idx n] g o).
Proof.
  intros (st & bpr & trn & dtm & n1s & clps & plb & se & -> & H) Hg.
  destruct H as (? & ? & ? & ? & ? & ? & ? & ?).
  simpl. eexists _, _, _, _, _, _, _, _. split; [done|].
  repeat split; try done.
  apply Forall_alter; [done|]. eauto.
Qed.

Lemma transaction_modify_clp_loop o c g :
  is_transaction o ->
  (forall x, is_clp_loop x -> is_clp_loop (g x)) ->
  is_transaction (modify [Key "CLP_loop"; Idx c] g o).
Proof.
  intros (st & bpr & trn & dtm & n1s & clps & plb & se & -> & H) Hg.
  destruct H as (? & ? & ? & ? & ? & ? & ? & ?).
  simpl. eexists _, _, _, _, _, _, _, _. split; [done|].
  repeat split; try done.
  apply Forall_alter; [done|]. eauto.
Qed.

Lemma clp_loop_modify_svc_loop o s g :
  is_clp_loop o ->
  (forall x, is_svc_loop x -> is_svc_loop (g x)) ->
  is_clp_loop (modify [Key "SVC_loop"; Idx s] g o).
Proof.
  intros (clp & cas & nm1 & dtm & amt & refs & svcs & -> & H) Hg.
  destruct H as (? & ? & ? & ? & ? & ? & ?).
  simpl. eexists _, _, _, _, _, _, _. split; [done|].
  repeat split; try done.
  apply Forall_alter; [done|]. eauto.
Qed.

Lemma document_modify_n1_loop j t n g :
  is_document j ->
  (forall x, is_n1_loop x -> is_n1_loop (g x)) ->
  is_document (modify (n1_ref t n) g j).
Proof.
  intros Hj Hg. unfold n1_ref. rewrite modify_app.
  apply document_modify_transaction; [done|].
  intros o Ho. by apply transaction_modify_n1_loop.
Qed.

Lemma document_modify_clp_loop j t c g :
  is_document j ->
  (forall x, is_clp_loop x -> is_clp_loop (g x)) ->
  is_document (modify (clp_ref t c) g j).
Proof.
  intros Hj Hg. unfold clp_ref. rewrite modify_app.
  apply document_modify_transaction; [done|].
  intros o Ho. by apply transaction_modify_clp_loop.
Qed.

Lemma document_modify_svc_loop j t c s g :
  is_document j ->
  (forall x, is_svc_loop x -> is_svc_loop (g x)) ->
  is_document (modify (svc_ref t c s) g j).
Proof.
  intros Hj Hg. unfold svc_ref. rewrite modify_app.
  apply document_modify_clp_loop; [done|].
  intros o Ho. by apply clp_loop_modify_svc_loop.
Qed.

(** The mutations of [to_json] on a loop keep its shape. *)
Lemma svc_lists_names key names names' :
  (key, names) ∈ svc_lists -> (key, names') ∈ svc_lists -> names = names'.
Proof.
  unfold svc_lists. intros H1 H2.
  repeat (apply elem_of_cons in H1 as [H1|H1]);
    repeat (apply elem_of_cons in H2 as [H2|H2]);
    try (by apply elem_of_nil in H1); try (by apply elem_of_nil in H2);
    congruence.
Qed.

Lemma svc_lists_key key names : (key, names) ∈ svc_lists -> key <> "SVC".
Proof.
  unfold svc_lists. intros H1.
  repeat (apply elem_of_cons in H1 as [H1|H1]);
    try (by apply elem_of_nil in H1); by injection H1 as -> _.
Qed.

Lemma svc_loop_guarded_append key names value o :
  (key, names) ∈ svc_lists -> is_record names value ->
  is_svc_loop o -> is_svc_loop (guarded_append key value o).
Proof.
  intros Hkey Hvalue (svc & lists & -> & Hsvc & Hnd & Hl).
  pose proof (svc_lists_key _ _ Hkey) as Hne.
  assert (String.eqb "SVC" key = false) as Hneb
    by (apply String.eqb_neq; congruence).
  unfold guarded_append, has_key, dict_in. cbn [dict_get]. rewrite Hneb.
  destruct (dict_get key lists) as [x|] eqn:Hx; cbn [negb store dict_set modify];
    rewrite ?Hneb; cbn [dict_alter]; rewrite ?Hneb.
  - exists svc, (dict_alter (modify [] (push value)) key lists).
    split; [done|]. split; [done|]. split; [by rewrite dict_alter_keys|].
    apply Forall_dict_alter; [done|].
    intros v (names' & records & Hin & Hv & Hrec & Hall). simpl in *.
    subst v.
    rewrite (svc_lists_names _ _ _ Hin Hkey) in *.
    exists names, (records ++ [value]). simpl.
    split; [done|]. split; [done|].
    split; [by destruct records|]. apply Forall_app_2; by auto.
  - rewrite (dict_set_absent _ _ _ Hx), dict_alter_snoc by done.
    exists svc, (lists ++ [(key, JList [value])]).
    split; [done|]. split; [done|]. split.
    + rewrite fmap_app. apply NoDup_app. split; [done|]. split.
      * intros k Hk [->|[]%elem_of_nil]%elem_of_cons.
        by apply dict_get_None in Hx.
      * apply NoDup_singleton.
    + apply Forall_app_2; [done|]. apply Forall_singleton.
      exists names, [value]. simpl. repeat split; auto.
Qed.

Local Ltac membership H :=
  repeat (apply elem_of_cons in H as [H|H]);
  [..|by apply elem_of_nil in H]; simplify_eq.

Lemma document_store key names value o :
  (key, names) ∈ [("ISA", isa_fields); ("GS", gs_fields);
                  ("GE", ge_fields); ("IEA", iea_fields)] ->
  is_optional_record names value ->
  is_document o -> is_document (modify interchange (store key value) o).
Proof.
  intros Hkey Hvalue (isa & gs & txns & ge & iea & -> & ? & ? & ? & ? & ?).
  membership Hkey; simpl; eexists _, _, _, _, _;
    (split; [reflexivity|]); split_and!; done.
Qed.

Lemma document_push_transaction value o :
  is_transaction value ->
  is_document o ->
  is_document (modify (interchange ++ [Key "transactions"]) (push value) o).
Proof.
  intros Hvalue (isa & gs & txns & ge & iea & -> & ? & ? & ? & ? & ?).
  simpl; eexists _, _, _, _, _; (split; [reflexivity|]);
    split_and!; eauto with shapes.
Qed.

Lemma transaction_store key names value o :
  (key, names) ∈ [("BPR", bpr_fields); ("TRN", trn_fields);
                  ("SE", se_fields)] ->
  is_optional_record names value ->
  is_transaction o -> is_transaction (store key value o).
Proof.
  intros Hkey Hvalue
    (st & bpr & trn & dtm & n1s & clps & plb & se & -> & H).
  destruct H as (? & ? & ? & ? & ? & ? & ? & ?).
  membership Hkey; simpl; eexists _, _, _, _, _, _, _, _;
    (split; [reflexivity|]); split_and!; done.
Qed.

Lemma transaction_push_record key names value o :
  (key, names) ∈ [("DTM", dtm_fields); ("PLB", plb_fields)] ->
  is_record names value ->
  is_transaction o -> is_transaction (modify [Key key] (push value) o).
Proof.
  intros Hkey Hvalue
    (st & bpr & trn & dtm & n1s & clps & plb & se & -> & H).
  destruct H as (? & ? & ? & ? & ? & ? & ? & ?).
  membership Hkey; simpl; eexists _, _, _, _, _, _, _, _;
    (split; [reflexivity|]); split_and!; eauto with shapes.
Qed.

Lemma transaction_push_n1_loop value o :
  is_n1_loop value ->
  is_transaction o -> is_transaction (modify [Key "N1_loop"] (push value) o).
Proof.
  intros Hvalue (st & bpr & trn & dtm & n1s & clps & plb & se & -> & H).
  destruct H as (? & ? & ? & ? & ? & ? & ? & ?).
  simpl; eexists _, _, _, _, _, _, _, _;
    (split; [reflexivity|]); split_and!; eauto with shapes.
Qed.

Lemma transaction_push_clp_loop value o :
  is_clp_loop value ->
  is_transaction o -> is_transaction (modify [Key "CLP_loop"] (push value) o).
Proof.
  intros Hvalue (st & bpr & trn & dtm & n1s & clps & plb & se & -> & H).
  destruct H as (? & ? & ? & ? & ? & ? & ? & ?).
  simpl; eexists _, _, _, _, _, _, _, _;
    (split; [reflexivity|]); split_and!; eauto with shapes.
Qed.

Lemma n1_loop_store key names value o :
  (key, names) ∈ [("N3", n3_fields); ("N4", n4_fields); ("PER", per_fields)] ->
  is_optional_record names value ->
  is_n1_loop o -> is_n1_loop (store key value o).
Proof.
  intros Hkey Hvalue (n1 & n3 & n4 & per & -> & ? & ? & ? & ?).
  membership Hkey; simpl; eexists _, _, _, _;
    (split; [reflexivity|]); split_and!; done.
Qed.

Lemma clp_loop_push_record key names value o :
  (key, names) ∈ [("CAS", cas_fields); ("NM1", nm1_fields);
                  ("AMT", amt_fields)] ->
  is_record names value ->
  is_clp_loop o -> is_clp_loop (modify [Key key] (push value) o).
Proof.
  intros Hkey Hvalue (clp & cas & nm1 & dtm & amt & refs & svcs & -> & H).
  destruct H as (? & ? & ? & ? & ? & ? & ?).
  membership Hkey; simpl; eexists _, _, _, _, _, _, _;
    (split; [reflexivity|]); split_and!; eauto with shapes.
Qed.

Lemma clp_loop_push_svc_loop value o :
  is_svc_loop value ->
  is_clp_loop o -> is_clp_loop (modify [Key "SVC_loop"] (push value) o).
Proof.
  intros Hvalue (clp & cas & nm1 & dtm & amt & refs & svcs & -> & H).
  destruct H as (? & ? & ? & ? & ? & ? & ?).
  simpl; eexists _, _, _, _, _, _, _;
    (split; [reflexivity|]); split_and!; eauto with shapes.
Qed.

(** The claim loop always has its [REF] list: the guarded append never
    creates it. *)
Lemma clp_loop_guarded_append_ref value o :
  is_record ref_fields value ->
  is_clp_loop o -> is_clp_loop (guarded_append "REF" value o).
Proof.
  intros Hvalue (clp & cas & nm1 & dtm & amt & refs & svcs & -> & H).
  destruct H as (? & ? & ? & ? & ? & ? & ?).
  simpl; eexists _, _, _, _, _, _, _;
    (split; [reflexivity|]); split_and!; eauto with shapes.
Qed.

(** The loops as [to_json] creates them. *)
Lemma new_transaction_shape segment :
  is_transaction
    (JDict [ ("ST", _convert_st_segment split_segment segment);
             ("BPR", JNone); ("TRN", JNone); ("DTM", JList []);
             ("N1_loop", JList []); ("CLP_loop", JList []);
             ("PLB", JList []); ("SE", JNone) ]).
Proof.
  eexists _, _, _, _, _, _, _, _. split; [reflexivity|].
  split_and!; eauto with shapes.
Qed.

Lemma new_n1_loop_shape segment :
  is_n1_loop
    (JDict [ ("N1", _convert_n1_segment split_segment segment);
             ("N3", JNone); ("N4", JNone); ("PER", JNone) ]).
Proof.
  eexists _, _, _, _. split; [reflexivity|]. split_and!; eauto with shapes.
Qed.

Lemma new_clp_loop_shape segment :
  is_clp_loop
    (JDict [ ("CLP", _convert_clp_segment split_segment segment);
             ("CAS", JList []); ("NM1", JList []); ("DTM", JList []);
             ("AMT", JList []); ("REF", JList []); ("SVC_loop", JList []) ]).
Proof.
  eexists _, _, _, _, _, _, _. split; [reflexivity|].
  split_and!; eauto with shapes.
Qed.

Lemma new_svc_loop_shape segment :
  is_svc_loop (JDict [ ("SVC", _convert_svc_segment split_segment segment) ]).
Proof.
  exists (_convert_svc_segment split_segment segment), [].
  split; [done|]. split_and!; eauto with shapes. constructor.
Qed.

(** The lists of the loops, and the truth of a loop. *)
Lemma document_transactions j :
  is_document j ->
  exists l, get (interchange ++ [Key "transactions"]) j = Some (JList l).
Proof. intros (isa & gs & txns & ge & iea & -> & _). by eexists. Qed.

Lemma transaction_list key o :
  key ∈ ["DTM"; "N1_loop"; "CLP_loop"; "PLB"] ->
  is_transaction o -> exists l, get [Key key] o = Some (JList l).
Proof.
  intros Hkey (st & bpr & trn & dtm & n1s & clps & plb & se & -> & _).
  membership Hkey; by eexists.
Qed.

Lemma clp_loop_list key o :
  key ∈ ["CAS"; "NM1"; "DTM"; "AMT"; "REF"; "SVC_loop"] ->
  is_clp_loop o -> exists l, get [Key key] o = Some (JList l).
Proof.
  intros Hkey (clp & cas & nm1 & dtm & amt & refs & svcs & -> & _).
  membership Hkey; by eexists.
Qed.

Lemma transaction_truthy o : is_transaction o -> json_truthy o = true.
Proof. by intros (? & ? & ? & ? & ? & ? & ? & ? & -> & _). Qed.

Lemma n1_loop_truthy o : is_n1_loop o -> json_truthy o = true.
Proof. by intros (? & ? & ? & ? & -> & _). Qed.

Lemma clp_loop_truthy o : is_clp_loop o -> json_truthy o = true.
Proof. by intros (? & ? & ? & ? & ? & ? & ? & -> & _). Qed.

Lemma svc_loop_truthy o : is_svc_loop o -> json_truthy o = true.
Proof. by intros (? & ? & -> & _). Qed.

(** *** The variables of [to_json] *)

Lemma loop_ref_transaction t : loop_ref (txn_ref t).
Proof. repeat constructor; set_solver. Qed.

Lemma loop_ref_n1_loop t n : loop_ref (n1_ref t n).
Proof. repeat constructor; set_solver. Qed.

Lemma loop_ref_clp_loop t c : loop_ref (clp_ref t c).
Proof. repeat constructor; set_solver. Qed.

Lemma loop_ref_svc_loop t c s : loop_ref (svc_ref t c s).
Proof. repeat constructor; set_solver. Qed.

Local Abbreviation invariant := (invariant split_segment).

Lemma open_transaction st r :
  invariant st -> current_transaction st = Some r ->
  exists t o, r = txn_ref t /\ get r (json_data st) = Some o
              /\ is_transaction o.
Proof.
  intros [Hdoc (Ht & _)] Hr. destruct (Ht r Hr) as (t & -> & [o Ho]).
  exists t, o. split_and!; [done..|]. by eapply document_transaction.
Qed.

Lemma open_n1_loop st r :
  invariant st -> current_n1_loop st = Some r ->
  exists t n o, r = n1_ref t n /\ get r (json_data st) = Some o
                /\ is_n1_loop o.
Proof.
  intros [Hdoc (_ & Hn & _)] Hr. destruct (Hn r Hr) as (t & n & -> & [o Ho]).
  exists t, n, o. split_and!; [done..|]. by eapply document_n1_loop.
Qed.

Lemma open_clp_loop st r :
  invariant st -> current_clp_loop st = Some r ->
  exists t c o, r = clp_ref t c /\ get r (json_data st) = Some o
                /\ is_clp_loop o /\ is_Some (current_transaction st).
Proof.
  intros [Hdoc (_ & _ & Hc & _)] Hr.
  destruct (Hc r Hr) as [(t & c & -> & [o Ho]) Htxn].
  exists t, c, o. split_and!; [done..| |done]. by eapply document_clp_loop.
Qed.

Lemma open_svc_loop st r :
  invariant st -> current_svc_loop st = Some r ->
  exists t c s o, r = svc_ref t c s /\ get r (json_data st) = Some o
                  /\ is_svc_loop o
                  /\ current_clp_loop st = Some (clp_ref t c).
Proof.
  intros [Hdoc (_ & _ & _ & Hs)] Hr.
  destruct (Hs r Hr) as (t & c & s & -> & [o Ho] & Hclp).
  exists t, c, s, o. split_and!; [done..| |done]. by eapply document_svc_loop.
Qed.

Lemma and_ref_truthy j cond v :
  (forall r, v = Some r ->
             exists o, get r j = Some o /\ json_truthy o = true) ->
  and_ref j cond v = if cond then v else None.
Proof.
  intros Hv. unfold and_ref. destruct cond; [|done].
  destruct v as [r|]; [|done].
  destruct (Hv r eq_refl) as (o & -> & ->). done.
Qed.

Lemma and_ref_transaction st cond :
  invariant st ->
  and_ref (json_data st) cond (current_transaction st)
  = if cond then current_transaction st else None.
Proof.
  intros Hinv. apply and_ref_truthy. intros r Hr.
  destruct (open_transaction st r Hinv Hr) as (t & o & _ & Ho & Hshape).
  exists o. split; [done|]. by apply transaction_truthy.
Qed.

Lemma and_ref_n1_loop st cond :
  invariant st ->
  and_ref (json_data st) cond (current_n1_loop st)
  = if cond then current_n1_loop st else None.
Proof.
  intros Hinv. apply and_ref_truthy. intros r Hr.
  destruct (open_n1_loop st r Hinv Hr) as (t & n & o & _ & Ho & Hshape).
  exists o. split; [done|]. by apply n1_loop_truthy.
Qed.

Lemma and_ref_clp_loop st cond :
  invariant st ->
  and_ref (json_data st) cond (current_clp_loop st)
  = if cond then current_clp_loop st else None.
Proof.
  intros Hinv. apply and_ref_truthy. intros r Hr.
  destruct (open_clp_loop st r Hinv Hr) as (t & c & o & _ & Ho & Hshape & _).
  exists o. split; [done|]. by apply clp_loop_truthy.
Qed.

Lemma and_ref_svc_loop st cond :
  invariant st ->
  and_ref (json_data st) cond (current_svc_loop st)
  = if cond then current_svc_loop st else None.
Proof.
  intros Hinv. apply and_ref_truthy. intros r Hr.
  destruct (open_svc_loop st r Hinv Hr) as (t & c & s & o & _ & Ho & Hshape & _).
  exists o. split; [done|]. by apply svc_loop_truthy.
Qed.

(** A mutation that keeps every loop in its place keeps the variables
    valid. *)
Lemma refs_valid_extends st j' :
  refs_valid st -> extends (json_data st) j' -> refs_valid (with_json st j').
Proof.
  intros (Ht & Hn & Hc & Hs) Hext. unfold refs_valid. simpl. split_and!.
  - intros r Hr. destruct (Ht r Hr) as (t & -> & Hsome).
    exists t. split; [done|]. apply Hext; [apply loop_ref_transaction|done].
  - intros r Hr. destruct (Hn r Hr) as (t & n & -> & Hsome).
    exists t, n. split; [done|]. apply Hext; [apply loop_ref_n1_loop|done].
  - intros r Hr. destruct (Hc r Hr) as [(t & c & -> & Hsome) Htxn].
    split; [|done].
    exists t, c. split; [done|]. apply Hext; [apply loop_ref_clp_loop|done].
  - intros r Hr. destruct (Hs r Hr) as (t & c & s & -> & Hsome & Hclp).
    exists t, c, s. split_and!; [done| |done].
    apply Hext; [apply loop_ref_svc_loop|done].
Qed.

Lemma invariant_with_json st j' :
  invariant st -> is_document j' -> extends (json_data st) j' ->
  invariant (with_json st j').
Proof.
  intros [_ Hrefs] Hdoc Hext. split; [done|]. by apply refs_valid_extends.
Qed.

Local Arguments _convert_isa_segment : simpl never.
Local Arguments _convert_gs_segment : simpl never.
Local Arguments _convert_st_segment : simpl never.
Local Arguments _convert_bpr_segment : simpl never.
Local Arguments _convert_trn_segment : simpl never.
Local Arguments _convert_dtm_segment : simpl never.
Local Arguments _convert_n1_segment : simpl never.
Local Arguments _convert_n3_segment : simpl never.
Local Arguments _convert_n4_segment : simpl never.
Local Arguments _convert_per_segment : simpl never.
Local Arguments _convert_ref_segment : simpl never.
Local Arguments _convert_clp_segment : simpl never.
Local Arguments _convert_cas_segment : simpl never.
Local Arguments _convert_nm1_segment : simpl never.
Local Arguments _convert_amt_segment : simpl never.
Local Arguments _convert_svc_segment : simpl never.
Local Arguments _convert_plb_segment : simpl never.
Local Arguments _convert_se_segment : simpl never.
Local Arguments _convert_ge_segment : simpl never.
Local Arguments _convert_iea_segment : simpl never.

Local Ltac not_loop_key :=
  let Hk := fresh in
  unfold loop_keys; intros Hk;
  repeat (apply elem_of_cons in Hk as [Hk|Hk]; [discriminate Hk|]);
  by apply elem_of_nil in Hk.

Lemma get_list_under r key j o l :
  get r j = Some o -> get [Key key] o = Some (JList l) ->
  get (r ++ [Key key]) j = Some (JList l).
Proof. intros Hr Hl. by rewrite get_app, Hr. Qed.

(** The records that open a loop. *)
Lemma invariant_new_transaction st value :
  invariant st -> is_transaction value ->
  invariant
    {| json_data := append interchange "transactions" value (json_data st);
       current_transaction :=
         Some (interchange
               ++ [Key "transactions";
                   Idx (len_of interchange "transactions" (json_data st))]);
       current_n1_loop := current_n1_loop st;
       current_clp_loop := current_clp_loop st;
       current_svc_loop := current_svc_loop st |}.
Proof.
  intros Hinv Hvalue. pose proof Hinv as [Hdoc Hrefs].
  destruct (document_transactions _ Hdoc) as [l Hl].
  destruct (get_append_new interchange "transactions" value _ l Hl)
    as [Hlen Hnew].
  pose proof (refs_valid_extends st _ Hrefs
                (extends_append interchange "transactions" value _))
    as (_ & Hn & Hc & Hs).
  split.
  - by apply document_push_transaction.
  - unfold refs_valid. simpl in *. split_and!; [|done| |done].
    + intros r [= <-]. exists (List.length l). rewrite Hlen.
      split; [done|]. exists value. exact Hnew.
    + intros r Hr. destruct (Hc r Hr) as [? _]. split; [done|]. by eexists.
Qed.

Lemma invariant_new_n1_loop st r value :
  invariant st -> current_transaction st = Some r -> is_n1_loop value ->
  invariant
    {| json_data := append r "N1_loop" value (json_data st);
       current_transaction := current_transaction st;
       current_n1_loop :=
         Some (r ++ [Key "N1_loop"; Idx (len_of r "N1_loop" (json_data st))]);
       current_clp_loop := current_clp_loop st;
       current_svc_loop := current_svc_loop st |}.
Proof.
  intros Hinv Hr Hvalue. pose proof Hinv as [Hdoc Hrefs].
  destruct (open_transaction st r Hinv Hr) as (t & o & -> & Ho & Hshape).
  destruct (transaction_list "N1_loop" o) as [l Hl];
    [by repeat constructor|done|].
  pose proof (get_list_under _ _ _ _ _ Ho Hl) as Hl'.
  destruct (get_append_new (txn_ref t) "N1_loop" value _ l Hl')
    as [Hlen Hnew].
  pose proof (refs_valid_extends st _ Hrefs
                (extends_append (txn_ref t) "N1_loop" value _))
    as (Ht & _ & Hc & Hs).
  split.
  - cbn [json_data]. unfold append. rewrite modify_app.
    apply document_modify_transaction; [done|].
    intros x Hx. by apply transaction_push_n1_loop.
  - unfold refs_valid in *. cbn [json_data current_transaction current_n1_loop
      current_clp_loop current_svc_loop with_json] in *. split_and!; [done| |done|done].
    intros r [= <-]. exists t, (List.length l). rewrite Hlen.
    split; [done|]. exists value. exact Hnew.
Qed.

Lemma invariant_new_clp_loop st r value :
  invariant st -> current_transaction st = Some r -> is_clp_loop value ->
  invariant
    {| json_data := append r "CLP_loop" value (json_data st);
       current_transaction := current_transaction st;
       current_n1_loop := current_n1_loop st;
       current_clp_loop :=
         Some (r ++ [Key "CLP_loop"; Idx (len_of r "CLP_loop" (json_data st))]);
       current_svc_loop := None |}.
Proof.
  intros Hinv Hr Hvalue. pose proof Hinv as [Hdoc Hrefs].
  destruct (open_transaction st r Hinv Hr) as (t & o & -> & Ho & Hshape).
  destruct (transaction_list "CLP_loop" o) as [l Hl];
    [by repeat constructor|done|].
  pose proof (get_list_under _ _ _ _ _ Ho Hl) as Hl'.
  destruct (get_append_new (txn_ref t) "CLP_loop" value _ l Hl')
    as [Hlen Hnew].
  pose proof (refs_valid_extends st _ Hrefs
                (extends_append (txn_ref t) "CLP_loop" value _))
    as (Ht & Hn & _ & _).
  split.
  - cbn [json_data]. unfold append. rewrite modify_app.
    apply document_modify_transaction; [done|].
    intros x Hx. by apply transaction_push_clp_loop.
  - unfold refs_valid in *. cbn [json_data current_transaction current_n1_loop
      current_clp_loop current_svc_loop with_json] in *. split_and!; [done|done| |done].
    intros r [= <-]. rewrite Hr. split; [|by eexists].
    exists t, (List.length l). rewrite Hlen.
    split; [done|]. exists value. exact Hnew.
Qed.

Lemma invariant_new_svc_loop st r value :
  invariant st -> current_clp_loop st = Some r -> is_svc_loop value ->
  invariant
    {| json_data := append r "SVC_loop" value (json_data st);
       current_transaction := current_transaction st;
       current_n1_loop := current_n1_loop st;
       current_clp_loop := current_clp_loop st;
       current_svc_loop :=
         Some (r ++ [Key "SVC_loop"; Idx (len_of r "SVC_loop" (json_data st))]) |}.
Proof.
  intros Hinv Hr Hvalue. pose proof Hinv as [Hdoc Hrefs].
  destruct (open_clp_loop st r Hinv Hr) as (t & c & o & -> & Ho & Hshape & _).
  destruct (clp_loop_list "SVC_loop" o) as [l Hl];
    [by repeat constructor|done|].
  pose proof (get_list_under _ _ _ _ _ Ho Hl) as Hl'.
  destruct (get_append_new (clp_ref t c) "SVC_loop" value _ l Hl')
    as [Hlen Hnew].
  pose proof (refs_valid_extends st _ Hrefs
                (extends_append (clp_ref t c) "SVC_loop" value _))
    as (Ht & Hn & Hc & _).
  split.
  - cbn [json_data]. unfold append. rewrite modify_app.
    apply document_modify_clp_loop; [done|].
    intros x Hx. by apply clp_loop_push_svc_loop.
  - unfold refs_valid in *. cbn [json_data current_transaction current_n1_loop
      current_clp_loop current_svc_loop with_json] in *. split_and!; [done|done|done|].
    intros r [= <-]. exists t, c, (List.length l). rewrite Hlen.
    split_and!; [done| |done]. exists value. exact Hnew.
Qed.

(** The records that are stored in, or appended to, an open loop. *)
Lemma invariant_transaction_set_item st r key names value :
  (key, names) ∈ [("BPR", bpr_fields); ("TRN", trn_fields);
                  ("SE", se_fields)] ->
  is_optional_record names value ->
  invariant st -> current_transaction st = Some r ->
  invariant (with_json st (set_item r key value (json_data st))).
Proof.
  intros Hkey Hvalue Hinv Hr.
  destruct (open_transaction st r Hinv Hr) as (t & o & -> & Ho & Hshape).
  apply invariant_with_json; [done| |].
  - apply document_modify_transaction; [apply Hinv|].
    intros x Hx. by eapply transaction_store.
  - apply extends_set_item.
    clear -Hkey. unfold svc_lists in Hkey. membership Hkey; not_loop_key.
Qed.

Lemma invariant_transaction_append st r key names value :
  (key, names) ∈ [("DTM", dtm_fields); ("PLB", plb_fields)] ->
  is_record names value ->
  invariant st -> current_transaction st = Some r ->
  invariant (with_json st (append r key value (json_data st))).
Proof.
  intros Hkey Hvalue Hinv Hr.
  destruct (open_transaction st r Hinv Hr) as (t & o & -> & Ho & Hshape).
  apply invariant_with_json; [done| |apply extends_append].
  unfold append. rewrite modify_app.
  apply document_modify_transaction; [apply Hinv|].
  intros x Hx. by eapply transaction_push_record.
Qed.

Lemma invariant_n1_loop_set_item st r key names value :
  (key, names) ∈ [("N3", n3_fields); ("N4", n4_fields); ("PER", per_fields)] ->
  is_optional_record names value ->
  invariant st -> current_n1_loop st = Some r ->
  invariant (with_json st (set_item r key value (json_data st))).
Proof.
  intros Hkey Hvalue Hinv Hr.
  destruct (open_n1_loop st r Hinv Hr) as (t & n & o & -> & Ho & Hshape).
  apply invariant_with_json; [done| |].
  - apply document_modify_n1_loop; [apply Hinv|].
    intros x Hx. by eapply n1_loop_store.
  - apply extends_set_item.
    clear -Hkey. unfold svc_lists in Hkey. membership Hkey; not_loop_key.
Qed.

Lemma invariant_clp_loop_append st r key names value :
  (key, names) ∈ [("CAS", cas_fields); ("NM1", nm1_fields);
                  ("AMT", amt_fields)] ->
  is_record names value ->
  invariant st -> current_clp_loop st = Some r ->
  invariant (with_json st (append r key value (json_data st))).
Proof.
  intros Hkey Hvalue Hinv Hr.
  destruct (open_clp_loop st r Hinv Hr) as (t & c & o & -> & Ho & Hshape & _).
  apply invariant_with_json; [done| |apply extends_append].
  unfold append. rewrite modify_app.
  apply document_modify_clp_loop; [apply Hinv|].
  intros x Hx. by eapply clp_loop_push_record.
Qed.

Lemma invariant_clp_loop_attach_ref st r value :
  is_record ref_fields value ->
  invariant st -> current_clp_loop st = Some r ->
  invariant (with_json st (attach r "REF" value (json_data st))).
Proof.
  intros Hvalue Hinv Hr.
  destruct (open_clp_loop st r Hinv Hr) as (t & c & o & -> & Ho & Hshape & _).
  apply invariant_with_json; [done| |apply extends_attach; not_loop_key].
  apply document_modify_clp_loop; [apply Hinv|].
  intros x Hx. by apply clp_loop_guarded_append_ref.
Qed.

Lemma invariant_svc_loop_attach st r key names value :
  (key, names) ∈ svc_lists ->
  is_record names value ->
  invariant st -> current_svc_loop st = Some r ->
  invariant (with_json st (attach r key value (json_data st))).
Proof.
  intros Hkey Hvalue Hinv Hr.
  destruct (open_svc_loop st r Hinv Hr)
    as (t & c & s & o & -> & Ho & Hshape & _).
  apply invariant_with_json; [done| |].
  - apply document_modify_svc_loop; [apply Hinv|].
    intros x Hx. by eapply svc_loop_guarded_append.
  - apply extends_attach.
    clear -Hkey. unfold svc_lists in Hkey. membership Hkey; not_loop_key.
Qed.

Lemma invariant_interchange_set_item st key names value :
  (key, names) ∈ [("ISA", isa_fields); ("GS", gs_fields);
                  ("GE", ge_fields); ("IEA", iea_fields)] ->
  is_optional_record names value ->
  invariant st ->
  invariant (with_json st (set_item interchange key value (json_data st))).
Proof.
  intros Hkey Hvalue Hinv.
  apply invariant_with_json; [done| |].
  - eapply document_store; [done..|apply Hinv].
  - apply extends_set_item.
    clear -Hkey. unfold svc_lists in Hkey. membership Hkey; not_loop_key.
Qed.

Lemma invariant_close st r value :
  is_optional_record se_fields value ->
  invariant st -> current_transaction st = Some r ->
  invariant
    {| json_data := set_item r "SE" value (json_data st);
       current_transaction := None;
       current_n1_loop := None;
       current_clp_loop := None;
       current_svc_loop := None |}.
Proof.
  intros Hvalue Hinv Hr.
  destruct (invariant_transaction_set_item st r "SE" se_fields value)
    as [Hdoc _]; [by repeat constructor|done..|].
  split; [done|]. unfold refs_valid. by simpl.
Qed.

Local Ltac fall_through Hinv := simpl; exact Hinv.

(** Every record keeps the invariant. *)
Lemma step_invariant st segment :
  invariant st -> invariant (to_json_step split_segment st segment).
Proof.
  intros Hinv. unfold to_json_step.
  destruct (truthy segment); [|done]. cbn [negb].
  generalize (match split_segment segment with
              | [] => ""
              | tag :: _ => tag
              end). intros identifier.
  rewrite !(and_ref_transaction st), !(and_ref_n1_loop st),
    !(and_ref_clp_loop st), !(and_ref_svc_loop st) by done.
  cbv zeta.
  destruct (String.eqb_spec identifier "ISA") as [->|_].
  { eapply invariant_interchange_set_item;
      [by repeat constructor|eauto with shapes|done]. }
  destruct (String.eqb_spec identifier "GS") as [->|_].
  { eapply invariant_interchange_set_item;
      [by repeat constructor|eauto with shapes|done]. }
  destruct (String.eqb_spec identifier "ST") as [->|_].
  { apply invariant_new_transaction; [done|apply new_transaction_shape]. }
  destruct (String.eqb_spec identifier "BPR") as [->|_].
  { destruct (current_transaction st) as [r|] eqn:Hr; [|fall_through Hinv].
    eapply invariant_transaction_set_item;
      [by repeat constructor|eauto with shapes|done..]. }
  destruct (String.eqb_spec identifier "TRN") as [->|_].
  { destruct (current_transaction st) as [r|] eqn:Hr; [|fall_through Hinv].
    eapply invariant_transaction_set_item;
      [by repeat constructor|eauto with shapes|done..]. }
  destruct (String.eqb_spec identifier "DTM") as [->|_].
  { destruct (current_transaction st) as [r|] eqn:Hr; [|fall_through Hinv].
    destruct (current_svc_loop st) as [svc|] eqn:Hsvc.
    - eapply invariant_svc_loop_attach;
        [by repeat constructor|eauto with shapes|done..].
    - eapply invariant_transaction_append;
        [by repeat constructor|eauto with shapes|done..]. }
  destruct (String.eqb_spec identifier "N1") as [->|_].
  { destruct (current_transaction st) as [r|] eqn:Hr; [|fall_through Hinv].
    rewrite <-Hr. apply invariant_new_n1_loop; [done..|apply new_n1_loop_shape]. }
  destruct (String.eqb_spec identifier "N3") as [->|_].
  { destruct (current_n1_loop st) as [r|] eqn:Hr; [|fall_through Hinv].
    eapply invariant_n1_loop_set_item;
      [by repeat constructor|eauto with shapes|done..]. }
  destruct (String.eqb_spec identifier "N4") as [->|_].
  { destruct (current_n1_loop st) as [r|] eqn:Hr; [|fall_through Hinv].
    eapply invariant_n1_loop_set_item;
      [by repeat constructor|eauto with shapes|done..]. }
  destruct (String.eqb_spec identifier "PER") as [->|_].
  { destruct (current_n1_loop st) as [r|] eqn:Hr; [|fall_through Hinv].
    eapply invariant_n1_loop_set_item;
      [by repeat constructor|eauto with shapes|done..]. }
  destruct (String.eqb_spec identifier "REF") as [->|_].
  { destruct (current_transaction st) as [r|] eqn:Hr; [|fall_through Hinv].
    destruct (current_svc_loop st) as [svc|] eqn:Hsvc.
    - eapply invariant_svc_loop_attach;
        [by repeat constructor|eauto with shapes|done..].
    - destruct (current_clp_loop st) as [clp|] eqn:Hclp; [|done].
      apply invariant_clp_loop_attach_ref; eauto with shapes. }
  destruct (String.eqb_spec identifier "LX") as [->|_].
  { destruct (current_transaction st) as [r|] eqn:Hr; [done|].
    fall_through Hinv. }
  destruct (String.eqb_spec identifier "CLP") as [->|_].
  { destruct (current_transaction st) as [r|] eqn:Hr; [|fall_through Hinv].
    rewrite <-Hr. apply invariant_new_clp_loop; [done..|apply new_clp_loop_shape]. }
  destruct (String.eqb_spec identifier "CAS") as [->|_].
  { destruct (current_clp_loop st) as [r|] eqn:Hr; [|fall_through Hinv].
    destruct (current_svc_loop st) as [svc|] eqn:Hsvc.
    - eapply invariant_svc_loop_attach;
        [by repeat constructor|eauto with shapes|done..].
    - eapply invariant_clp_loop_append;
        [by repeat constructor|eauto with shapes|done..]. }
  destruct (String.eqb_spec identifier "NM1") as [->|_].
  { destruct (current_clp_loop st) as [r|] eqn:Hr; [|fall_through Hinv].
    eapply invariant_clp_loop_append;
      [by repeat constructor|eauto with shapes|done..]. }
  destruct (String.eqb_spec identifier "AMT") as [->|_].
  { destruct (current_clp_loop st) as [r|] eqn:Hr; [|fall_through Hinv].
    destruct (current_svc_loop st) as [svc|] eqn:Hsvc.
    - eapply invariant_svc_loop_attach;
        [by repeat constructor|eauto with shapes|done..].
    - eapply invariant_clp_loop_append;
        [by repeat constructor|eauto with shapes|done..]. }
  destruct (String.eqb_spec identifier "SVC") as [->|_].
  { destruct (current_clp_loop st) as [r|] eqn:Hr; [|fall_through Hinv].
    rewrite <-Hr. apply invariant_new_svc_loop; [done..|apply new_svc_loop_shape]. }
  destruct (String.eqb_spec identifier "PLB") as [->|_].
  { destruct (current_transaction st) as [r|] eqn:Hr; [|fall_through Hinv].
    eapply invariant_transaction_append;
      [by repeat constructor|eauto with shapes|done..]. }
  destruct (String.eqb_spec identifier "SE") as [->|_].
  { destruct (current_transaction st) as [r|] eqn:Hr; [|fall_through Hinv].
    apply invariant_close; eauto with shapes. }
  destruct (String.eqb_spec identifier "GE") as [->|_].
  { eapply invariant_interchange_set_item;
      [by repeat constructor|eauto with shapes|done]. }
  destruct (String.eqb_spec identifier "IEA") as [->|_].
  { eapply invariant_interchange_set_item;
      [by repeat constructor|eauto with shapes|done]. }
  done.
Qed.

Lemma initial_invariant : invariant initial_state.
Proof.
  split.
  - eexists _, _, _, _, _. split; [reflexivity|].
    split_and!; eauto with shapes.
  - unfold refs_valid. by simpl.
Qed.

Lemma fold_invariant segments st :
  invariant st -> invariant (fold_left (to_json_step split_segment) segments st).
Proof.
  revert st. induction segments as [|segment segments IH]; intros st Hst;
    [done|].
  simpl. by apply IH, step_invariant.
Qed.

Lemma loop_invariant segments : invariant (to_json_loop split_segment segments).
Proof. apply fold_invariant, initial_invariant. Qed.

(** *** Where a tag-ambiguous record goes *)

Local Ltac resolve_step Hinv Htruthy Hid :=
  unfold to_json_step, identifier_of in *; rewrite Htruthy; cbn [negb];
  cbv zeta; rewrite Hid;
  rewrite !(and_ref_transaction _ _ Hinv), !(and_ref_n1_loop _ _ Hinv),
    !(and_ref_clp_loop _ _ Hinv), !(and_ref_svc_loop _ _ Hinv);
  reflexivity.

Lemma step_cas st segment :
  invariant st -> truthy segment = true -> identifier_of split_segment segment = "CAS" ->
  to_json_step split_segment st segment
  = match current_clp_loop st with
    | Some clp =>
        match current_svc_loop st with
        | Some svc =>
            with_json st (attach svc "CAS"
                            (_convert_cas_segment split_segment segment)
                            (json_data st))
        | None =>
            with_json st (append clp "CAS"
                            (_convert_cas_segment split_segment segment)
                            (json_data st))
        end
    | None => st
    end.
Proof. intros Hinv Htruthy Hid. resolve_step Hinv Htruthy Hid. Qed.

Lemma step_amt st segment :
  invariant st -> truthy segment = true -> identifier_of split_segment segment = "AMT" ->
  to_json_step split_segment st segment
  = match current_clp_loop st with
    | Some clp =>
        match current_svc_loop st with
        | Some svc =>
            with_json st (attach svc "AMT"
                            (_convert_amt_segment split_segment segment)
                            (json_data st))
        | None =>
            with_json st (append clp "AMT"
                            (_convert_amt_segment split_segment segment)
                            (json_data st))
        end
    | None => st
    end.
Proof. intros Hinv Htruthy Hid. resolve_step Hinv Htruthy Hid. Qed.

Lemma step_ref st segment :
  invariant st -> truthy segment = true -> identifier_of split_segment segment = "REF" ->
  to_json_step split_segment st segment
  = match current_transaction st with
    | Some txn =>
        match current_svc_loop st with
        | Some svc =>
            with_json st (attach svc "REF"
                            (_convert_ref_segment split_segment segment)
                            (json_data st))
        | None =>
            match current_clp_loop st with
            | Some clp =>
                with_json st (attach clp "REF"
                                (_convert_ref_segment split_segment segment)
                                (json_data st))
            | None => st
            end
        end
    | None => st
    end.
Proof. intros Hinv Htruthy Hid. resolve_step Hinv Htruthy Hid. Qed.

Lemma step_dtm st segment :
  invariant st -> truthy segment = true -> identifier_of split_segment segment = "DTM" ->
  to_json_step split_segment st segment
  = match current_transaction st with
    | Some txn =>
        match current_svc_loop st with
        | Some svc =>
            with_json st (attach svc "DTM"
                            (_convert_dtm_segment split_segment segment)
                            (json_data st))
        | None =>
            with_json st (append txn "DTM"
                            (_convert_dtm_segment split_segment segment)
                            (json_data st))
        end
    | None => st
    end.
Proof. intros Hinv Htruthy Hid. resolve_step Hinv Htruthy Hid. Qed.

Lemma items_get r key j o :
  get r j = Some o ->
  items r key j = match get [Key key] o with
                  | Some (JList l) => l
                  | _ => []
                  end.
Proof. intros Ho. unfold items. by rewrite get_app, Ho. Qed.

Lemma items_modify r key g j o :
  get r j = Some o ->
  items r key (modify r g j) = match get [Key key] (g o) with
                               | Some (JList l) => l
                               | _ => []
                               end.
Proof.
  intros Ho. apply items_get. by rewrite get_modify_same, Ho.
Qed.

Lemma items_apart a key key' q g j :
  key <> key' ->
  items a key (modify (a ++ Key key' :: q) g j) = items a key j.
Proof.
  intros Hne. unfold items.
  rewrite (get_modify_apart a (Key key) (Key key') [] q); [done|congruence].
Qed.

Lemma guarded_append_list key value d :
  (forall x, dict_get key d = Some x -> exists l, x = JList l) ->
  get [Key key] (guarded_append key value (JDict d))
  = Some (JList (match dict_get key d with
                 | Some (JList l) => l
                 | _ => []
                 end ++ [value])).
Proof.
  intros Hlist. unfold guarded_append, has_key, dict_in.
  destruct (dict_get key d) as [x|] eqn:Hx; cbn [negb store modify get child].
  - destruct (Hlist x eq_refl) as [l ->].
    rewrite DictFacts.dict_get_alter, String.eqb_refl, Hx. done.
  - rewrite DictFacts.dict_get_alter, String.eqb_refl,
      DictFacts.dict_get_set, String.eqb_refl. done.
Qed.

Lemma items_attach r key value j d :
  get r j = Some (JDict d) ->
  (forall x, dict_get key d = Some x -> exists l, x = JList l) ->
  items r key (attach r key value j) = items r key j ++ [value].
Proof.
  intros Ho Hlist. unfold attach.
  rewrite (items_modify _ _ _ _ _ Ho), (items_get _ _ _ _ Ho).
  rewrite guarded_append_list by done. simpl.
  by destruct (dict_get key d) as [[]|].
Qed.

Lemma items_append r key value j l :
  get (r ++ [Key key]) j = Some (JList l) ->
  items r key (append r key value j) = items r key j ++ [value].
Proof.
  intros Hl. unfold items, append. by rewrite get_modify_same, Hl.
Qed.

Lemma svc_loop_lists o key :
  is_svc_loop o -> key <> "SVC" ->
  exists d, o = JDict d
            /\ forall x, dict_get key d = Some x -> exists l, x = JList l.
Proof.
  intros (svc & lists & -> & _ & _ & Hl) Hne. eexists. split; [done|].
  intros x. cbn [dict_get].
  destruct (String.eqb_spec "SVC" key) as [|_]; [congruence|].
  intros Hx%DictFacts.dict_get_elem.
  rewrite Forall_forall in Hl. specialize (Hl _ Hx).
  destruct Hl as (? & records & _ & Hr & _). by exists records.
Qed.

(** A record attached to the open service goes to the list of the
    service, and leaves the list of its claim as it is. *)
Lemma attach_to_service st svc key names value :
  invariant st -> current_svc_loop st = Some svc ->
  (key, names) ∈ svc_lists ->
  let j' := attach svc key value (json_data st) in
  items svc key j' = items svc key (json_data st) ++ [value]
  /\ forall clp, current_clp_loop st = Some clp ->
                 items clp key j' = items clp key (json_data st).
Proof.
  intros Hinv Hsvc Hkey j'. subst j'.
  destruct (open_svc_loop st svc Hinv Hsvc)
    as (t & c & s & o & -> & Ho & Hshape & Hclp).
  pose proof (svc_lists_key _ _ Hkey) as Hne.
  destruct (svc_loop_lists o key Hshape Hne) as (d & -> & Hlist).
  split; [by eapply items_attach|].
  intros clp. rewrite Hclp. intros [= <-].
  unfold attach, svc_ref. apply items_apart.
  clear -Hkey. unfold svc_lists in Hkey. membership Hkey; discriminate.
Qed.

Lemma append_to_claim st clp key value :
  invariant st -> current_clp_loop st = Some clp ->
  key ∈ ["CAS"; "AMT"] ->
  items clp key (append clp key value (json_data st))
  = items clp key (json_data st) ++ [value].
Proof.
  intros Hinv Hclp Hkey.
  destruct (open_clp_loop st clp Hinv Hclp) as (t & c & o & -> & Ho & Hshape & _).
  assert (key ∈ ["CAS"; "NM1"; "DTM"; "AMT"; "REF"; "SVC_loop"]) as Hk.
  { clear -Hkey. membership Hkey; by repeat constructor. }
  destruct (clp_loop_list key o Hk Hshape) as [l Hl].
  eapply items_append, get_list_under; eauto.
Qed.

Lemma attach_to_claim st clp value :
  invariant st -> current_clp_loop st = Some clp ->
  items clp "REF" (attach clp "REF" value (json_data st))
  = items clp "REF" (json_data st) ++ [value].
Proof.
  intros Hinv Hclp.
  destruct (open_clp_loop st clp Hinv Hclp) as (t & c & o & -> & Ho & Hshape & _).
  destruct Hshape as (clp & cas & nm1 & dtm & amt & refs & svcs & -> & _).
  eapply items_attach; [done|]. intros x [= <-]. by eexists.
Qed.

Lemma append_to_transaction st txn value :
  invariant st -> current_transaction st = Some txn ->
  items txn "DTM" (append txn "DTM" value (json_data st))
  = items txn "DTM" (json_data st) ++ [value].
Proof.
  intros Hinv Htxn.
  destruct (open_transaction st txn Hinv Htxn) as (t & o & -> & Ho & Hshape).
  destruct (transaction_list "DTM" o) as [l Hl];
    [by repeat constructor|done|].
  eapply items_append, get_list_under; eauto.
Qed.

Local Ltac impossible_refs Hinv :=
  match goal with
  | Hsvc : current_svc_loop ?st = Some ?svc,
    Hclp : current_clp_loop ?st = None |- _ =>
      destruct (open_svc_loop st svc Hinv Hsvc)
        as (? & ? & ? & ? & _ & _ & _ & Hc); congruence
  | Hclp : current_clp_loop ?st = Some ?clp,
    Htxn : current_transaction ?st = None |- _ =>
      destruct (open_clp_loop st clp Hinv Hclp)
        as (? & ? & ? & _ & _ & _ & [? Ht]); congruence
  end.

(** C1, amended.  After any records, a tag-ambiguous record (adjustment,
    date, reference or amount) goes to the list of the open service when a
    service is open, and then not to the list of its claim; with no service
    open, an adjustment, reference or amount record goes to the list of the
    open claim, and is attached nowhere when no claim is open; with no claim
    open, a date record goes to the list of the open transaction.  The
    record opens and closes nothing. *)
Theorem ambiguous_record_routing (segments : list string)
    (segment tag : string) :
  let st := to_json_loop split_segment segments in
  let st' := to_json_step split_segment st segment in
  let value := converted split_segment tag segment in
  truthy segment = true ->
  identifier_of split_segment segment = tag ->
  tag ∈ ["CAS"; "DTM"; "REF"; "AMT"] ->
  (forall svc, current_svc_loop st = Some svc ->
      items svc tag (json_data st') = items svc tag (json_data st) ++ [value]
      /\ forall clp, current_clp_loop st = Some clp ->
            items clp tag (json_data st') = items clp tag (json_data st))
  /\ (current_svc_loop st = None -> tag <> "DTM" ->
      forall clp, current_clp_loop st = Some clp ->
        items clp tag (json_data st')
        = items clp tag (json_data st) ++ [value])
  /\ (current_clp_loop st = None -> tag <> "DTM" -> st' = st)
  /\ (current_clp_loop st = None -> tag = "DTM" ->
      forall txn, current_transaction st = Some txn ->
        items txn tag (json_data st')
        = items txn tag (json_data st) ++ [value])
  /\ current_transaction st' = current_transaction st
  /\ current_n1_loop st' = current_n1_loop st
  /\ current_clp_loop st' = current_clp_loop st
  /\ current_svc_loop st' = current_svc_loop st.
Proof.
  intros st st' value Htruthy Hid Htag.
  pose proof (loop_invariant segments) as Hinv. fold st in Hinv.
  subst st' value. revert Hid. membership Htag; intros Hid.
  - rewrite (step_cas st segment Hinv Htruthy Hid).
    destruct (current_clp_loop st) as [clp|] eqn:Hclp;
      destruct (current_svc_loop st) as [svc|] eqn:Hsvc;
      try impossible_refs Hinv.
    all: split_and!; try done.
    + intros svc0 [= <-].
      destruct (attach_to_service st svc "CAS" cas_fields
                  (_convert_cas_segment split_segment segment) Hinv Hsvc)
        as [Hsvc_list Hclp_list]; [by repeat constructor|].
      split; [exact Hsvc_list|]. intros clp0 [= <-]. by apply Hclp_list.
    + intros _ _ clp0 [= <-].
      apply (append_to_claim st clp "CAS" _ Hinv Hclp). by repeat constructor.
  - rewrite (step_dtm st segment Hinv Htruthy Hid).
    destruct (current_transaction st) as [txn|] eqn:Htxn;
      destruct (current_clp_loop st) as [clp|] eqn:Hclp;
      destruct (current_svc_loop st) as [svc|] eqn:Hsvc;
      try impossible_refs Hinv.
    all: split_and!; try done.
    + intros svc0 [= <-].
      destruct (attach_to_service st svc "DTM" dtm_fields
                  (_convert_dtm_segment split_segment segment) Hinv Hsvc)
        as [Hsvc_list Hclp_list]; [by repeat constructor|].
      split; [exact Hsvc_list|]. intros clp0 [= <-]. by apply Hclp_list.
    + intros _ _ txn0 [= <-].
      apply (append_to_transaction st txn _ Hinv Htxn).
  - rewrite (step_ref st segment Hinv Htruthy Hid).
    destruct (current_transaction st) as [txn|] eqn:Htxn;
      destruct (current_clp_loop st) as [clp|] eqn:Hclp;
      destruct (current_svc_loop st) as [svc|] eqn:Hsvc;
      try impossible_refs Hinv.
    all: split_and!; try done.
    + intros svc0 [= <-].
      destruct (attach_to_service st svc "REF" ref_fields
                  (_convert_ref_segment split_segment segment) Hinv Hsvc)
        as [Hsvc_list Hclp_list]; [by repeat constructor|].
      split; [exact Hsvc_list|]. intros clp0 [= <-]. by apply Hclp_list.
    + intros _ _ clp0 [= <-].
      apply (attach_to_claim st clp _ Hinv Hclp).
  - rewrite (step_amt st segment Hinv Htruthy Hid).
    destruct (current_clp_loop st) as [clp|] eqn:Hclp;
      destruct (current_svc_loop st) as [svc|] eqn:Hsvc;
      try impossible_refs Hinv.
    all: split_and!; try done.
    + intros svc0 [= <-].
      destruct (attach_to_service st svc "AMT" amt_fields
                  (_convert_amt_segment split_segment segment) Hinv Hsvc)
        as [Hsvc_list Hclp_list]; [by repeat constructor|].
      split; [exact Hsvc_list|]. intros clp0 [= <-]. by apply Hclp_list.
    + intros _ _ clp0 [= <-].
      apply (append_to_claim st clp "AMT" _ Hinv Hclp). by repeat constructor.
Qed.

Lemma record_fields_lookup names parts i name :
  names !! i = Some name ->
  record_fields names parts !! i = Some (name, field parts (S i)).
Proof.
  intros Hname. unfold record_fields, dict.
  by rewrite list_lookup_imap, Hname.
Qed.

Lemma record_fields_names names parts : (record_fields names parts).*1 = names.
Proof.
  apply list_eq. intros i. unfold record_fields, dict.
  rewrite list_lookup_fmap, list_lookup_imap.
  by destruct (names !! i).
Qed.

Lemma field_absent parts i : List.length parts <= i -> field parts i = JStr "".
Proof.
  intros Hi. unfold field.
  destruct (Nat.ltb_spec i (List.length parts)); [lia|done].
Qed.

(** C6, amended.  The hierarchical view is a document: the interchange and
    every transaction, organization loop and claim loop carry all their
    keys, a list without records being the empty list and a record that did
    not occur [None]; a service loop carries [SVC] and, of [DTM], [CAS],
    [REF] and [AMT], the keys of the lists that received a record, none of
    them empty.  Every record is a dict with all the field names of its
    tag, in order, and a field that the record does not have is the empty
    string. *)
Theorem hierarchical_view_shape (file_content : string) :
  is_document (to_json split_segment file_content)
  /\ (forall names parts,
        (record_fields names parts).*1 = names
        /\ forall i name,
             names !! i = Some name ->
             record_fields names parts !! i = Some (name, field parts (S i))
             /\ (List.length parts <= S i -> field parts (S i) = JStr "")).
Proof.
  split; [apply loop_invariant|].
  intros names parts. split; [apply record_fields_names|].
  intros i name Hname. split; [by apply record_fields_lookup|].
  apply field_absent.
Qed.

End Shapes.

Import SpecModel.

(** C1, as stated, fails: a reference record met while a transaction is
    open, but no claim and no service, is attached nowhere; the view is that
    of the document without the record. *)
Lemma reference_before_claim_dropped :
  Preprocess.to_json_segments reference_before_claim
  = ["ST*835*0001"; "REF*EV*ABC"; "SE*3*0001"]
  /\ current_transaction (to_json_loop split_segment ["ST*835*0001"])
     = Some (txn_ref 0)
  /\ current_clp_loop (to_json_loop split_segment ["ST*835*0001"]) = None
  /\ current_svc_loop (to_json_loop split_segment ["ST*835*0001"]) = None
  /\ to_json split_segment reference_before_claim
     = to_json split_segment no_reference
  /\ get (txn_ref 0 ++ [Key "REF"])
       (to_json split_segment reference_before_claim) = None.
Proof. split_and!; by vm_compute. Qed.

(** A date record of a claim without service goes to the list of the
    transaction; the list of the claim stays empty. *)
Lemma date_in_claim_goes_to_transaction :
  items (clp_ref 0 0) "DTM" (to_json split_segment date_in_claim) = []
  /\ items (txn_ref 0) "DTM" (to_json split_segment date_in_claim)
     = [_convert_dtm_segment split_segment "DTM*232*20200105"].
Proof. split; by vm_compute. Qed.

Lemma ambiguous_record_routing_witness :
  let st := to_json_loop split_segment open_service in
  let st' := to_json_step split_segment st adjustment in
  current_svc_loop st = Some (svc_ref 0 0 0)
  /\ items (svc_ref 0 0 0) "CAS" (json_data st')
     = items (svc_ref 0 0 0) "CAS" (json_data st)
       ++ [converted split_segment "CAS" adjustment].
Proof.
  split; [by vm_compute|].
  refine (proj1 (proj1 (ambiguous_record_routing split_segment open_service
                          adjustment "CAS" _ _ _) (svc_ref 0 0 0) _)).
  - reflexivity.
  - by vm_compute.
  - by repeat constructor.
  - by vm_compute.
Defined.

(** C6, as stated, fails: the loop of a service without adjustment,
    reference, amount and date records has the key [SVC] only; its four
    lists are omitted, not empty. *)
Lemma plain_service_omits_lists :
  get (svc_ref 0 0 0) (to_json split_segment plain_service)
  = Some (JDict [("SVC", _convert_svc_segment split_segment
                           "SVC*HC:99213*100*80")])
  /\ get (svc_ref 0 0 0 ++ [Key "CAS"]) (to_json split_segment plain_service)
     = None
  /\ get (svc_ref 0 0 0 ++ [Key "DTM"]) (to_json split_segment plain_service)
     = None
  /\ get (svc_ref 0 0 0 ++ [Key "REF"]) (to_json split_segment plain_service)
     = None
  /\ get (svc_ref 0 0 0 ++ [Key "AMT"]) (to_json split_segment plain_service)
     = None.
Proof. split_and!; by vm_compute. Qed.

Lemma hierarchical_view_shape_witness :
  st_fields !! 1 = Some "transaction_set_control_number"
  /\ List.length ["ST"; "835"] <= 2
  /\ field ["ST"; "835"] 2 = JStr "".
Proof.
  split; [reflexivity|]. split; [simpl; lia|].
  refine (proj2 (proj2 (proj2 (hierarchical_view_shape split_segment "")
                          st_fields ["ST"; "835"])
                   1 "transaction_set_control_number" _) _).
  - reflexivity.
  - simpl. lia.
Defined.

End JsonFacts.

(** * Further properties *)

(** ** Normalisation and tokenizers *)
Module TokenizerFacts.
Import Py Preprocess PreprocessFacts.

Lemma append_assoc (a b c : string) : (a +:+ b) +:+ c = a +:+ (b +:+ c).
Proof.
  induction a as [|x a IH]; [done|].
  change (String x ((a +:+ b) +:+ c) = String x (a +:+ (b +:+ c))).
  by f_equal.
Qed.

Lemma length_app (a b : string) :
  String.length (a +:+ b) = String.length a + String.length b.
Proof.
  induction a as [|x a IH]; [done|].
  change (S (String.length (a +:+ b)) = S (String.length a + String.length b)).
  by f_equal.
Qed.

(** X1. Preprocessing works character by character: the preprocessed
    concatenation of two texts is the concatenation of the preprocessed
    texts. *)
Theorem preprocess_edi_content_app (a b : string) :
  preprocess_edi_content (a +:+ b)
  = preprocess_edi_content a +:+ preprocess_edi_content b.
Proof.
  induction a as [|c a IH]; [done|].
  change (String c a +:+ b) with (String c (a +:+ b)).
  by rewrite !preprocess_cons, IH, append_assoc.
Qed.

Lemma preprocess_length s :
  String.length (preprocess_edi_content s) <= String.length s.
Proof.
  induction s as [|c s IH]; [done|].
  rewrite preprocess_cons, length_app. simpl.
  repeat case_match; simpl; lia.
Qed.

(** X2. Preprocessing leaves a text as it is exactly when the text holds
    no group, record or unit separator and no line break; and it never
    lengthens a text. *)
Theorem preprocess_edi_content_fixed (s : string) :
  (preprocess_edi_content s = s
   <-> occurs GS s = false /\ occurs RS s = false
       /\ occurs US s = false /\ occurs LF s = false)
  /\ String.length (preprocess_edi_content s) <= String.length s.
Proof.
  split; [|apply preprocess_length]. split.
  - intros Hs. rewrite <-Hs.
    split_and!; apply preprocess_clean; set_solver.
  - intros (Hgs & Hrs & Hus & Hlf). unfold preprocess_edi_content.
    by rewrite (replace_absent GS), (replace_absent RS),
      (replace_absent LF), (replace_absent US).
Qed.

Lemma split_no_separator sep s :
  Forall (fun piece => occurs sep piece = false) (split sep s).
Proof.
  induction s as [|c s IH]; simpl; [by repeat constructor|].
  destruct (Ascii.eqb c sep) eqn:Hc; [by constructor|].
  destruct (split sep s) as [|w ws]; [by repeat constructor; simpl; rewrite Hc|].
  apply Forall_cons in IH as [Hw Hws].
  constructor; [|done]. simpl. by rewrite Hc, Hw.
Qed.

Lemma lstrip_length s : String.length (lstrip s) <= String.length s.
Proof.
  induction s as [|c s IH]; simpl; [done|].
  destruct (isspace c); simpl; lia.
Qed.

Lemma occurs_lstrip c s : occurs c s = false -> occurs c (lstrip s) = false.
Proof.
  induction s as [|a s IH]; simpl; [done|].
  intros [Ha Hs]%orb_false_elim.
  destruct (isspace a); [by apply IH|]. simpl. by rewrite Ha, Hs.
Qed.

Lemma occurs_rstrip c s : occurs c s = false -> occurs c (rstrip s) = false.
Proof.
  induction s as [|a s IH]; simpl; [done|].
  intros [Ha Hs]%orb_false_elim. specialize (IH Hs).
  destruct (rstrip s) as [|b r].
  - destruct (isspace a); simpl; [done|]. by rewrite Ha.
  - simpl in *. by rewrite Ha, IH.
Qed.

Lemma rstrip_fixed s : rstrip (rstrip s) = rstrip s.
Proof.
  induction s as [|c s IH]; simpl; [done|].
  destruct (rstrip s) as [|d r] eqn:Hr.
  - destruct (isspace c) eqn:Hc; simpl; [done|]. by rewrite Hc.
  - change (rstrip (String c (String d r))) with
      (match rstrip (String d r) with
       | EmptyString => if isspace c then EmptyString else String c EmptyString
       | String _ _ as r' => String c r'
       end).
    by rewrite IH.
Qed.

Lemma lstrip_rstrip s : lstrip s = s -> lstrip (rstrip s) = rstrip s.
Proof.
  destruct s as [|c s]; [done|]. simpl.
  destruct (isspace c) eqn:Hc.
  - intros Hs. pose proof (lstrip_length s) as Hlen.
    rewrite Hs in Hlen. simpl in Hlen. lia.
  - intros _. destruct (rstrip s); simpl; by rewrite Hc.
Qed.

Lemma lstrip_fixed s : lstrip (lstrip s) = lstrip s.
Proof.
  induction s as [|c s IH]; simpl; [done|].
  destruct (isspace c) eqn:Hc; [done|]. simpl. by rewrite Hc.
Qed.

Lemma strip_fixed s : strip (strip s) = strip s.
Proof.
  unfold strip. rewrite (lstrip_rstrip (lstrip s)) by apply lstrip_fixed.
  apply rstrip_fixed.
Qed.

Lemma occurs_strip c s : occurs c s = false -> occurs c (strip s) = false.
Proof. intros Hs. by apply occurs_rstrip, occurs_lstrip. Qed.

Lemma stripped_records (sep : ascii) (segments : list string) :
  Forall (fun piece => occurs sep piece = false) segments ->
  Forall (fun record => truthy record = true /\ strip record = record
                        /\ occurs sep record = false)
         (map strip (filter (fun segment => truthy (strip segment)) segments)).
Proof.
  induction 1 as [|s segments Hs _ IH]; [constructor|].
  rewrite filter_cons. destruct (decide _) as [Ht|_]; [|done].
  simpl. constructor; [|done]. split_and!.
  - by apply Is_true_eq_true.
  - apply strip_fixed.
  - by apply occurs_strip.
Qed.

(** X3. Every record that the tokenizer of [to_json] yields is non-empty,
    has no white space at either end, and does not contain the terminator it
    was split at: [:] when the content needed preprocessing, [~] otherwise. *)
Theorem to_json_segments_records (file_content : string) :
  Forall (fun record =>
            truthy record = true /\ strip record = record
            /\ occurs (if needs_preprocessing file_content then ":" else "~")%char
                 record = false)
         (to_json_segments file_content).
Proof.
  unfold to_json_segments.
  destruct (needs_preprocessing file_content);
    apply stripped_records, split_no_separator.
Qed.

Lemma map_filter_strip (segments : list string) :
  map strip (filter (fun segment => truthy (strip segment)) segments)
  = filter (fun record => truthy record) (map strip segments).
Proof.
  induction segments as [|s segments IH]; [done|].
  simpl. rewrite !filter_cons. simpl.
  destruct (decide (truthy (strip s))); simpl; by rewrite IH.
Qed.

(** X4. On a content without control characters, [to_json] sees the
    records that [TransactionSet.build] iterates over, less the empty ones. *)
Theorem to_json_segments_build_segments (file_content : string) :
  needs_preprocessing file_content = false ->
  to_json_segments file_content
  = filter (fun record => truthy record) (build_segments file_content).
Proof.
  intros Hneeds. unfold to_json_segments, build_segments. rewrite Hneeds.
  apply map_filter_strip.
Qed.

Lemma to_json_segments_build_segments_witness :
  to_json_segments MoreSamples.spaced_document
  = filter (fun record => truthy record)
           (build_segments MoreSamples.spaced_document).
Proof.
  apply (to_json_segments_build_segments MoreSamples.spaced_document).
  reflexivity.
Defined.

End TokenizerFacts.

(** ** Elements and segments *)
Module ElementFacts.
Import Py Elements Segments DictFacts.

Lemma lookup_idempotent (table : dict string) (value : pystr) :
  Forall (fun entry => dict_get entry.2 table = None) table ->
  dict_get_default table
    (dict_get_default table value value) (dict_get_default table value value)
  = dict_get_default table value value.
Proof.
  intros Hvalues. destruct value as [v|]; [|done]. simpl.
  destruct (dict_get v table) as [d|] eqn:Hd; simpl.
  - apply dict_get_elem in Hd. rewrite Forall_forall in Hvalues.
    specialize (Hvalues _ Hd). simpl in Hvalues. by rewrite Hvalues.
  - by rewrite Hd.
Qed.

(** X5. The code lookups are idempotent: no description of a table is
    itself a code of that table, so a value that has been coerced is left
    alone when it is coerced again. *)
Theorem code_lookup_idempotent (value : pystr) :
  ContactFunctionCode_parser (ContactFunctionCode_parser value)
  = ContactFunctionCode_parser value
  /\ CommunicationQualifier_parser (CommunicationQualifier_parser value)
     = CommunicationQualifier_parser value.
Proof.
  split; apply lookup_idempotent; by repeat constructor.
Qed.

(** X6. A contact that has been constructed never has the empty string for
    a name (an empty name field and a missing one both give [None]), and it
    keeps the record it was built from; its function code is a string. *)
Theorem contact_name_not_empty
    (split_segment : string -> list string)
    (get_element : list string -> nat -> pystr)
    (Identifier_parser : pystr -> pystr) (segment : string) (c : Contact) :
  Contact_init split_segment get_element Identifier_parser segment = Ok c ->
  name c <> Some ""
  /\ (get_element (split_segment segment) 2 = Some "" -> name c = None)
  /\ (get_element (split_segment segment) 2 = None -> name c = None)
  /\ contact_segment c = segment
  /\ is_Some (contact_function_code c).
Proof.
  unfold Contact_init.
  destruct (index (split_segment segment) 0) as [f0|]; simpl; [|done].
  destruct (index (split_segment segment) 1) as [f1|]; simpl; [|done].
  intros [= <-]. simpl.
  assert (is_Some (ContactFunctionCode_parser (Some f1))) as Hcode.
  { unfold ContactFunctionCode_parser, dict_get_default.
    destruct (dict_get f1 contact_function_codes); by eexists. }
  destruct (get_element (split_segment segment) 2) as [[|a s]|];
    simpl; split_and!; done.
Qed.

Lemma contact_name_not_empty_witness :
  exists c,
    Contact_init SpecModel.split_segment SpecModel.get_element
      SpecModel.Identifier_parser "PER*BL**TE*5551234" = Ok c
    /\ name c <> Some "".
Proof.
  eexists. split; [reflexivity|].
  eapply (contact_name_not_empty SpecModel.split_segment SpecModel.get_element
            SpecModel.Identifier_parser "PER*BL**TE*5551234").
  reflexivity.
Defined.

End ElementFacts.

(** ** Accessors and the flattened view *)
Module ViewFacts.
Import Py Assembler AssemblerFacts Samples.

Section Facts.
Context `{Imports}.

Lemma the_only_elem {A} (l : list A) (a : A) : the_only l = Ok a -> a ∈ l.
Proof. intros ->%the_only_Ok. by left. Qed.

Lemma has_type_spec t o : has_type t o = true <-> organization_type o = Some t.
Proof.
  unfold has_type. destruct (organization_type o) as [t'|]; [|done].
  destruct (String.eqb_spec t' t) as [->|]; split; congruence.
Qed.

Lemma payer_elem t (self : TransactionSet) o :
  the_only (filter (fun o => has_type t o) (organizations self)) = Ok o ->
  o ∈ organizations self /\ organization_type o = Some t.
Proof.
  intros Ho%the_only_elem. apply list_elem_of_filter in Ho as [Ht Ho].
  split; [done|]. apply has_type_spec. by apply Is_true_eq_true.
Qed.

(** X7. The organization that the payer accessor returns is one of the
    organizations of the document and has the type payer, and likewise for
    the payee; the two accessors never return the same organization. *)
Theorem payer_payee_distinct (self : TransactionSet)
    (o o' : OrganizationLoop) :
  payer self = Ok o -> payee self = Ok o' ->
  o ∈ organizations self /\ organization_type o = Some "payer"
  /\ o' ∈ organizations self /\ organization_type o' = Some "payee"
  /\ o <> o'.
Proof.
  intros [Ho Ht]%payer_elem [Ho' Ht']%payer_elem.
  split_and!; try done. intros ->. congruence.
Qed.

Lemma collect_rows_raise self pairs e :
  pairs <> [] -> payer self = Raise e -> collect_rows self pairs = Raise e.
Proof.
  intros Hne Hp. destruct pairs as [|[claim service] pairs]; [done|].
  simpl. unfold service_row. by rewrite Hp.
Qed.

Lemma collect_rows_length self pairs rows :
  collect_rows self pairs = Ok rows -> List.length rows = List.length pairs.
Proof.
  intros Hrows%collect_rows_Forall2. by apply Forall2_length in Hrows.
Qed.

(** X8. [to_dataframe] looks for the payer once per service: a document
    without services gives the empty frame whatever its organizations are;
    with at least one service it raises [AssertionError] unless exactly one
    organization is the payer, and [AttributeError] when there is no
    financial information; when it returns, there is one row per service. *)
Theorem to_dataframe_outcomes (self : TransactionSet) :
  (claim_service_pairs self = [] -> to_dataframe self = Ok [])
  /\ (claim_service_pairs self <> [] ->
      List.length (filter (fun o => has_type "payer" o) (organizations self))
      <> 1 ->
      to_dataframe self = Raise AssertionError)
  /\ (claim_service_pairs self <> [] ->
      forall p, payer self = Ok p -> financial_information self = None ->
                to_dataframe self = Raise AttributeError)
  /\ (forall rows, to_dataframe self = Ok rows ->
                   List.length rows = List.length (claim_service_pairs self)).
Proof.
  unfold to_dataframe. split_and!.
  - by intros ->.
  - intros Hne Hlen. apply collect_rows_raise; [done|].
    by apply the_only_Raise.
  - intros Hne p Hp Hfi.
    destruct (claim_service_pairs self) as [|[claim service] pairs]; [done|].
    simpl. unfold service_row, serialize_service. by rewrite Hp, Hfi.
  - intros rows. apply collect_rows_length.
Qed.

End Facts.

Import SpecInstance.

Lemma payer_payee_distinct_witness :
  exists o o',
    payer remittance_set = Ok o /\ payee remittance_set = Ok o' /\ o <> o'.
Proof.
  eexists _, _. split; [reflexivity|]. split; [reflexivity|].
  eapply (payer_payee_distinct remittance_set); reflexivity.
Defined.

Lemma to_dataframe_outcomes_witness :
  to_dataframe two_payers_set = Ok []
  /\ List.length remittance_rows = List.length (claim_service_pairs remittance_set).
Proof.
  split.
  - apply (to_dataframe_outcomes two_payers_set). reflexivity.
  - apply (to_dataframe_outcomes remittance_set). reflexivity.
Defined.

End ViewFacts.

(** ** The assembler loop *)
Module BuildFacts.
Import Py Assembler AssemblerFacts Scalars Samples MoreSamples.

Section Facts.
Context `{Imports}.

(** [build] runs through a prefix of scalar and skipped records and keeps
    its lists and its path. *)
Lemma build_loop_skip_prefix (pre : list string) :
  Forall scalar_or_skipped pre ->
  forall fuel rest self,
    exists self',
      build_loop (List.length pre + fuel) None (pre ++ rest) self
      = build_loop fuel None rest self'
      /\ claims self' = claims self
      /\ organizations self' = organizations self
      /\ file_path self' = file_path self.
Proof.
  induction 1 as [|s pre (Horg & Hclp & Hisa & Hbpr & Htrn) _ IH];
    intros fuel rest self; [by exists self|].
  simpl. unfold build_attribute.
  destruct (String.eqb_spec (find_identifier s)
              InterchangeSegment_identification) as [Ei|Ei].
  { destruct (Hisa Ei) as [v ->]. simpl.
    destruct (IH fuel rest (collect self (AnInterchange v)))
      as (self' & Hb & ? & ? & ?). by exists self'. }
  destruct (String.eqb_spec (find_identifier s)
              FinancialInformationSegment_identification) as [Ef|Ef].
  { destruct (Hbpr Ef) as [v ->]. simpl.
    destruct (IH fuel rest (collect self (AFinancialInformation v)))
      as (self' & Hb & ? & ? & ?). by exists self'. }
  destruct (String.eqb_spec (find_identifier s) "TRN") as [Et|Et].
  { destruct (Htrn Et) as [v ->]. simpl.
    destruct (IH fuel rest (collect self (ATrace v)))
      as (self' & Hb & ? & ? & ?). by exists self'. }
  destruct (String.eqb_spec (find_identifier s)
              OrganizationLoop_initiating_identifier); [done|].
  destruct (String.eqb_spec (find_identifier s)
              ClaimLoop_initiating_identifier); [done|].
  simpl. destruct (IH fuel rest self) as (self' & Hb & ? & ? & ?).
  by exists self'.
Qed.

Lemma scalar_or_skipped_Forall (segments : list string) :
  Forall scalar_or_skipped segments ->
  Forall (fun s =>
            find_identifier s <> OrganizationLoop_initiating_identifier
            /\ find_identifier s <> ClaimLoop_initiating_identifier
            /\ (find_identifier s = InterchangeSegment_identification ->
                exists v, InterchangeSegment_init s = Ok v)
            /\ (find_identifier s = FinancialInformationSegment_identification ->
                exists v, FinancialInformationSegment_init s = Ok v)
            /\ (find_identifier s = "TRN" ->
                exists v, Segments.Trace_init split_segment Identifier_parser s
                          = Ok v))
         segments.
Proof. done. Qed.

(** X9. Last write wins: when the interchange record occurs several times
    among records that start no loop, [build] returns, and the interchange of
    the transaction set is the one constructed from the last of them. *)
Theorem build_last_interchange (file path : string) (fuel : nat)
    (pre post : list string) (s : string) (v : InterchangeSegment) :
  Preprocess.build_segments file = pre ++ s :: post ->
  Forall scalar_or_skipped pre -> Forall scalar_or_skipped post ->
  find_identifier s = InterchangeSegment_identification ->
  InterchangeSegment_init s = Ok v ->
  Forall (fun s' => find_identifier s' <> InterchangeSegment_identification)
         post ->
  List.length (pre ++ s :: post) < fuel ->
  exists ts, build fuel file path = Some (Ok ts) /\ interchange ts = Some v.
Proof.
  intros Hsegs Hpre Hpost Hid Hv Hlast Hfuel. unfold build. rewrite Hsegs.
  rewrite length_app in Hfuel. simpl in Hfuel.
  replace fuel with (List.length pre + S (fuel - List.length pre - 1)) by lia.
  edestruct (build_loop_skip_prefix pre Hpre) as (self' & -> & _).
  simpl. unfold build_attribute. rewrite Hid, String.eqb_refl, Hv. simpl.
  edestruct (build_loop_scalars post (scalar_or_skipped_Forall _ Hpost))
    as (ts & Hb & Hi & _); [|exists ts; split; [exact Hb|by rewrite Hi]].
  lia.
Qed.

Lemma Trace_init_short segment :
  List.length (split_segment segment) < 3 ->
  Segments.Trace_init split_segment Identifier_parser segment
  = Raise IndexError.
Proof.
  intros Hlen. unfold Segments.Trace_init.
  destruct (decide (List.length (split_segment segment) = 0)).
  { by rewrite (SegmentsFacts.index_None _ 0) by lia. }
  destruct (SegmentsFacts.index_Some (split_segment segment) 0)
    as (f0 & -> & _); [lia|]. simpl.
  destruct (decide (List.length (split_segment segment) = 1)).
  { by rewrite (SegmentsFacts.index_None _ 1) by lia. }
  destruct (SegmentsFacts.index_Some (split_segment segment) 1)
    as (f1 & -> & _); [lia|]. simpl.
  by rewrite (SegmentsFacts.index_None _ 2) by lia.
Qed.

(** X10. A trace record with fewer than three fields aborts the build:
    after records that start no loop, [build] raises [IndexError] at the
    record and returns no transaction set, whatever follows. *)
Theorem build_short_trace (file path : string) (fuel : nat)
    (pre post : list string) (s : string) :
  Preprocess.build_segments file = pre ++ s :: post ->
  Forall scalar_or_skipped pre ->
  find_identifier s <> InterchangeSegment_identification ->
  find_identifier s <> FinancialInformationSegment_identification ->
  find_identifier s = "TRN" ->
  List.length (split_segment s) < 3 ->
  List.length pre < fuel ->
  build fuel file path = Some (Raise IndexError).
Proof.
  intros Hsegs Hpre Hisa Hbpr Htrn Hshort Hfuel. unfold build. rewrite Hsegs.
  replace fuel with (List.length pre + S (fuel - List.length pre - 1)) by lia.
  edestruct (build_loop_skip_prefix pre Hpre) as (self' & -> & _).
  simpl. unfold build_attribute.
  destruct (String.eqb_spec (find_identifier s)
              InterchangeSegment_identification); [done|].
  destruct (String.eqb_spec (find_identifier s)
              FinancialInformationSegment_identification); [done|].
  rewrite Htrn. simpl. by rewrite Trace_init_short.
Qed.

(** X11. [build] stops as soon as a response carries no iterator, before it
    stores the value of that response: when the loop builder of the last loop
    of a file exhausts the iterator, the loop it returns is not in the
    transaction set. *)
Theorem build_drops_last_loop (file path : string) (fuel : nat)
    (pre post : list string) (s : string) :
  Preprocess.build_segments file = pre ++ s :: post ->
  Forall scalar_or_skipped pre ->
  find_identifier s <> InterchangeSegment_identification ->
  find_identifier s <> FinancialInformationSegment_identification ->
  find_identifier s <> "TRN" ->
  List.length pre < fuel ->
  (find_identifier s = OrganizationLoop_initiating_identifier ->
   forall o pending,
     OrganizationLoop_build s post = Ok (o, None, pending) ->
     exists ts, build fuel file path = Some (Ok ts)
                /\ organizations ts = [] /\ claims ts = [])
  /\ (find_identifier s <> OrganizationLoop_initiating_identifier ->
      find_identifier s = ClaimLoop_initiating_identifier ->
      forall c pending,
        ClaimLoop_build s post = Ok (c, None, pending) ->
        exists ts, build fuel file path = Some (Ok ts)
                   /\ organizations ts = [] /\ claims ts = []).
Proof.
  intros Hsegs Hpre Hisa Hbpr Htrn Hfuel. unfold build. rewrite Hsegs.
  replace fuel with (List.length pre + S (fuel - List.length pre - 1)) by lia.
  edestruct (build_loop_skip_prefix pre Hpre) as (self' & -> & Hc & Ho & _).
  simpl. unfold build_attribute.
  destruct (String.eqb_spec (find_identifier s)
              InterchangeSegment_identification); [done|].
  destruct (String.eqb_spec (find_identifier s)
              FinancialInformationSegment_identification); [done|].
  destruct (String.eqb_spec (find_identifier s) "TRN"); [done|].
  split.
  - intros -> o pending ->. rewrite String.eqb_refl. simpl.
    exists self'. by rewrite Hc, Ho.
  - intros Hn Hid c pending ->.
    destruct (String.eqb_spec (find_identifier s)
                OrganizationLoop_initiating_identifier); [done|].
    rewrite Hid, String.eqb_refl. simpl. exists self'. by rewrite Hc, Ho.
Qed.

End Facts.

Import SpecInstance.

Local Ltac scalar_records :=
  repeat constructor; try discriminate; by eexists.

Lemma build_last_interchange_witness :
  exists ts,
    build 10 repeated_interchange "remit.835" = Some (Ok ts)
    /\ interchange ts = Some ["ISA"; "01"].
Proof.
  apply (@build_last_interchange spec_imports repeated_interchange
           "remit.835" 10 ["ISA*00"; "ST*835*0001"] ["SE*3*0001"] "ISA*01"
           ["ISA"; "01"]).
  - reflexivity.
  - scalar_records.
  - scalar_records.
  - reflexivity.
  - reflexivity.
  - by repeat constructor.
  - simpl. lia.
Defined.

Lemma build_short_trace_witness :
  build 10 short_trace "remit.835" = Some (Raise IndexError).
Proof.
  apply (@build_short_trace spec_imports short_trace "remit.835" 10
           ["ISA*00"] ["SE*2*0001"; ""] "TRN*1").
  - reflexivity.
  - scalar_records.
  - discriminate.
  - discriminate.
  - reflexivity.
  - vm_compute. lia.
  - simpl. lia.
Defined.

Lemma build_drops_last_loop_witness :
  exists ts,
    build 10 unterminated "remit.835" = Some (Ok ts)
    /\ organizations ts = [] /\ claims ts = [].
Proof.
  refine (proj1 (@build_drops_last_loop spec_imports unterminated
                   "remit.835" 10
                   ["ISA*00"] ["N3*1 MAIN ST"] "N1*PR*ACME" _ _ _ _ _ _)
            _ _ _ _).
  - reflexivity.
  - scalar_records.
  - discriminate.
  - discriminate.
  - discriminate.
  - simpl. lia.
  - reflexivity.
  - reflexivity.
Defined.

End BuildFacts.

(** ** The package entry points and the temporary file *)
Module PipelineFacts.
Import Py Assembler Package Batch PackageFacts Samples MoreSamples.

Lemma substring_all s : substring 0 (String.length s) s = s.
Proof. induction s as [|c s IH]; simpl; [done|]. by rewrite IH. Qed.

Lemma substring_suffix p s :
  substring (String.length p) (String.length s) (p +:+ s) = s.
Proof. induction p as [|c p IH]; simpl; [apply substring_all|exact IH]. Qed.

Lemma endswith_suffix p s : endswith (p +:+ s) s = true.
Proof.
  unfold endswith. rewrite TokenizerFacts.length_app.
  replace (String.length p + String.length s - String.length s)
    with (String.length p) by lia.
  rewrite substring_suffix, String.eqb_refl, andb_true_r.
  apply Nat.leb_le. lia.
Qed.

Section Facts.
Context `{Imports}.
Variable expanduser : string -> string.
Variable isdir : string -> bool.
Variable listdir : string -> list string.

Local Abbreviation files := (gmap string string).
Local Abbreviation temporary path := (path +:+ ".processed.tmp").

(** X12. A file with control characters goes through a temporary file:
    [parse_to_json] writes the preprocessed content next to the file, builds
    from it, converts the preprocessed content, and then removes the
    temporary file; with [debug] the temporary file stays. *)
Theorem parse_file_to_json_preprocessed (fuel : nat) (fs : files)
    (path content : string) (ts : TransactionSet) :
  fs !! path = Some content ->
  Preprocess.needs_preprocessing content = true ->
  build fuel (Preprocess.preprocess_edi_content content) (temporary path)
  = Some (Ok ts) ->
  parse_file_to_json fuel fs path false true
  = Some (Ok (Json.to_json split_segment
                (Preprocess.preprocess_edi_content content)),
          delete (temporary path) fs)
  /\ parse_file_to_json fuel fs path true true
     = Some (Ok (Json.to_json split_segment
                   (Preprocess.preprocess_edi_content content)),
             <[temporary path := Preprocess.preprocess_edi_content content]> fs).
Proof.
  intros Hfile Hneeds Hbuild.
  unfold parse_file_to_json, _build_transaction_set, build_file, read.
  simpl. rewrite Hfile, Hneeds, lookup_insert_eq, Hbuild. simpl.
  unfold TransactionSet_to_json, read. simpl.
  rewrite lookup_insert_eq, endswith_suffix, delete_insert_eq. done.
Qed.

(** X13. Without [debug], a failure of the build is masked: the [finally]
    clause of [parse_to_json] reads the variable that the failed call never
    assigned, and [UnboundLocalError] replaces the exception of the build,
    a missing file included; with [debug] the exception of the build is
    raised as it is. *)
Theorem parse_file_to_json_masks_failure (fuel : nat) (fs : files)
    (path : string) (preprocess : bool) (e : exn) :
  (preprocess = true ->
   forall content, fs !! path = Some content ->
                   Preprocess.needs_preprocessing content = false) ->
  build_file fuel fs path = Some (Raise e) ->
  parse_file_to_json fuel fs path false preprocess
  = Some (Raise UnboundLocalError, fs)
  /\ parse_file_to_json fuel fs path true preprocess = Some (Raise e, fs).
Proof.
  intros Hplain Hbuild.
  unfold parse_file_to_json, _build_transaction_set.
  destruct preprocess; simpl.
  - unfold read. destruct (fs !! path) as [content|] eqn:Hfile.
    + rewrite (Hplain eq_refl content eq_refl), Hbuild. done.
    + unfold build_file, read in Hbuild. rewrite Hfile in Hbuild.
      by simplify_eq.
  - rewrite Hbuild. done.
Qed.

(** X14. When the build from the temporary file fails, the temporary file
    is never removed: without [debug] the [finally] clause fails before it
    reaches the removal, and with [debug] there is no removal. *)
Theorem parse_file_to_json_leaves_temporary_file (fuel : nat) (fs : files)
    (path content : string) (debug : bool) (e : exn) :
  fs !! path = Some content ->
  Preprocess.needs_preprocessing content = true ->
  build fuel (Preprocess.preprocess_edi_content content) (temporary path)
  = Some (Raise e) ->
  exists e' fs',
    parse_file_to_json fuel fs path debug true = Some (Raise e', fs')
    /\ fs' !! temporary path
       = Some (Preprocess.preprocess_edi_content content).
Proof.
  intros Hfile Hneeds Hbuild.
  unfold parse_file_to_json, _build_transaction_set, build_file, read.
  simpl. rewrite Hfile, Hneeds, lookup_insert_eq, Hbuild. simpl.
  destruct debug; eexists _, _; (split; [done|]); apply lookup_insert_eq.
Qed.

Local Abbreviation built_from fuel fs dir :=
  (fun file => match build_file fuel fs (dir +:+ "/" +:+ file) with
               | Some (Ok transaction_set) => Some transaction_set
               | _ => None
               end).

Lemma _build_transaction_set_plain fuel (fs : files) path preprocess :
  (preprocess = true ->
   forall content, fs !! path = Some content ->
                   Preprocess.needs_preprocessing content = false) ->
  _build_transaction_set fuel fs path preprocess
  = r ← build_file fuel fs path; Some (r, fs).
Proof.
  intros Hplain. unfold _build_transaction_set.
  destruct preprocess; simpl; [|done].
  unfold read. destruct (fs !! path) as [content|] eqn:Hfile.
  - by rewrite (Hplain eq_refl content eq_refl).
  - unfold build_file, read. by rewrite Hfile.
Qed.

Lemma parse_files_skips fuel (fs : files) dir preprocess names :
  Forall (fun file =>
            (preprocess = true ->
             forall content, fs !! (dir +:+ "/" +:+ file) = Some content ->
                             Preprocess.needs_preprocessing content = false)
            /\ build_file fuel fs (dir +:+ "/" +:+ file) <> None) names ->
  forall transaction_sets,
    parse_files fuel fs dir names false preprocess transaction_sets
    = Some (Ok (transaction_sets ++ omap (built_from fuel fs dir) names), fs).
Proof.
  induction 1 as [|file names [Hplain Hends] _ IH]; intros acc; simpl.
  { by rewrite app_nil_r. }
  rewrite (_build_transaction_set_plain _ _ _ _ Hplain).
  destruct (build_file fuel fs (dir +:+ "/" +:+ file)) as [[ts|e]|];
    simpl; [| |done].
  - rewrite IH. by rewrite <-app_assoc.
  - by rewrite IH.
Qed.

(** X15. On a directory and without [debug], [parse] isolates the failures:
    it raises nothing, and the transaction sets it returns are those of the
    files that build, in the order of the listing; a file that is missing or
    whose build raises is skipped. *)
Theorem parse_skips_failures (fuel : nat) (fs : files) (path : string)
    (preprocess : bool) (c : ascii) (rest : string) :
  path = String c rest ->
  let dir := if Ascii.eqb c "~" then expanduser path else path in
  isdir dir = true ->
  Forall (fun file =>
            (preprocess = true ->
             forall content, fs !! (dir +:+ "/" +:+ file) = Some content ->
                             Preprocess.needs_preprocessing content = false)
            /\ build_file fuel fs (dir +:+ "/" +:+ file) <> None)
         (_find_edi_835_files listdir dir) ->
  parse expanduser isdir listdir fuel fs path false preprocess
  = Some (Ok (omap (built_from fuel fs dir) (_find_edi_835_files listdir dir)),
          fs).
Proof.
  intros -> dir Hdir Hfiles. unfold parse. simpl. fold dir. rewrite Hdir.
  by rewrite (parse_files_skips _ _ _ _ _ Hfiles).
Qed.

Lemma parse_files_stops fuel (fs : files) dir preprocess pre file post e :
  Forall (fun file =>
            (preprocess = true ->
             forall content, fs !! (dir +:+ "/" +:+ file) = Some content ->
                             Preprocess.needs_preprocessing content = false)
            /\ exists ts, build_file fuel fs (dir +:+ "/" +:+ file)
                          = Some (Ok ts)) pre ->
  (preprocess = true ->
   forall content, fs !! (dir +:+ "/" +:+ file) = Some content ->
                   Preprocess.needs_preprocessing content = false) ->
  build_file fuel fs (dir +:+ "/" +:+ file) = Some (Raise e) ->
  forall transaction_sets,
    parse_files fuel fs dir (pre ++ file :: post) true preprocess
      transaction_sets
    = Some (Raise e, fs).
Proof.
  intros Hpre Hplain Hfails.
  induction Hpre as [|first pre [Hp [ts Hb]] _ IH]; intros acc; simpl.
  - by rewrite (_build_transaction_set_plain _ _ _ _ Hplain), Hfails.
  - rewrite (_build_transaction_set_plain _ _ _ _ Hp), Hb. simpl. apply IH.
Qed.

(** X16. With [debug], [parse] stops at the first file of a directory whose
    build fails and raises its exception; the files after it are not read,
    and the transaction sets built before it are lost. *)
Theorem parse_debug_first_failure (fuel : nat) (fs : files) (path : string)
    (preprocess : bool) (c : ascii) (rest : string)
    (pre post : list string) (file : string) (e : exn) :
  path = String c rest ->
  let dir := if Ascii.eqb c "~" then expanduser path else path in
  isdir dir = true ->
  _find_edi_835_files listdir dir = pre ++ file :: post ->
  Forall (fun file =>
            (preprocess = true ->
             forall content, fs !! (dir +:+ "/" +:+ file) = Some content ->
                             Preprocess.needs_preprocessing content = false)
            /\ exists ts, build_file fuel fs (dir +:+ "/" +:+ file)
                          = Some (Ok ts)) pre ->
  (preprocess = true ->
   forall content, fs !! (dir +:+ "/" +:+ file) = Some content ->
                   Preprocess.needs_preprocessing content = false) ->
  build_file fuel fs (dir +:+ "/" +:+ file) = Some (Raise e) ->
  parse expanduser isdir listdir fuel fs path true preprocess
  = Some (Raise e, fs).
Proof.
  intros -> dir Hdir Hlist Hpre Hplain Hfails. unfold parse. simpl.
  fold dir. rewrite Hdir, Hlist.
  by apply parse_files_stops.
Qed.

End Facts.

Import SpecInstance.

Lemma parse_file_to_json_preprocessed_witness :
  parse_file_to_json 10 sample_files "inbox/second.DAT" false true
  = Some (Ok (Json.to_json SpecModel.split_segment
                (Preprocess.preprocess_edi_content control_document)),
          delete "inbox/second.DAT.processed.tmp" sample_files).
Proof.
  refine (proj1 (@parse_file_to_json_preprocessed spec_imports 10
                   sample_files "inbox/second.DAT" control_document
                   control_set _ _ _)).
  - reflexivity.
  - reflexivity.
  - reflexivity.
Defined.

Lemma parse_file_to_json_masks_failure_witness :
  parse_file_to_json 10 outbox_files "outbox/b.DAT" false true
  = Some (Raise UnboundLocalError, outbox_files)
  /\ parse_file_to_json 10 outbox_files "outbox/b.DAT" true true
     = Some (Raise IndexError, outbox_files).
Proof.
  apply (@parse_file_to_json_masks_failure spec_imports 10 outbox_files
           "outbox/b.DAT" true IndexError).
  - intros _ content Hfile.
    vm_compute in Hfile. injection Hfile as <-. reflexivity.
  - reflexivity.
Defined.

Lemma parse_file_to_json_leaves_temporary_file_witness :
  exists e' fs',
    parse_file_to_json 10 (<["in.835" := String Preprocess.GS short_trace]> ∅)
      "in.835" false true
    = Some (Raise e', fs')
    /\ fs' !! "in.835.processed.tmp" = Some ("*" +:+ short_trace).
Proof.
  apply (@parse_file_to_json_leaves_temporary_file spec_imports 10
           (<["in.835" := String Preprocess.GS short_trace]> ∅) "in.835"
           (String Preprocess.GS short_trace) false IndexError).
  - reflexivity.
  - reflexivity.
  - reflexivity.
Defined.

Lemma parse_skips_failures_witness :
  parse id outbox_isdir outbox_listdir 10 outbox_files "outbox" false true
  = Some (Ok [outbox_a; outbox_c], outbox_files).
Proof.
  refine (@parse_skips_failures spec_imports id outbox_isdir outbox_listdir
            10 outbox_files "outbox" true "o" "utbox" eq_refl eq_refl _).
  change (_find_edi_835_files outbox_listdir (String "o" "utbox"))
    with ["a.835"; "gone.txt"; "b.DAT"; "c.txt"].
  repeat apply Forall_cons_2; [| | | |apply Forall_nil_2].
  - split; [|discriminate]. intros _ content Hfile.
    vm_compute in Hfile. injection Hfile as <-. reflexivity.
  - split; [|discriminate]. intros _ content Hfile.
    vm_compute in Hfile. discriminate.
  - split; [|discriminate]. intros _ content Hfile.
    vm_compute in Hfile. injection Hfile as <-. reflexivity.
  - split; [|discriminate]. intros _ content Hfile.
    vm_compute in Hfile. injection Hfile as <-. reflexivity.
Defined.

Lemma parse_debug_first_failure_witness :
  parse id outbox_isdir outbox_listdir 10 outbox_files "outbox" true true
  = Some (Raise FileNotFoundError, outbox_files).
Proof.
  refine (@parse_debug_first_failure spec_imports id outbox_isdir
            outbox_listdir 10 outbox_files "outbox" true "o" "utbox"
            ["a.835"] ["b.DAT"; "c.txt"] "gone.txt" FileNotFoundError
            eq_refl eq_refl _ _ _ _).
  - reflexivity.
  - apply Forall_cons_2; [|apply Forall_nil_2]. split.
    + intros _ content Hfile.
      vm_compute in Hfile. injection Hfile as <-. reflexivity.
    + by exists outbox_a.
  - intros _ content Hfile. vm_compute in Hfile. discriminate.
  - reflexivity.
Defined.

End PipelineFacts.

(** ** The loop of [to_json] over the records of a document *)
Module DocumentFacts.
Import Py Json JsonFacts DictFacts Records.

Lemma and_ref_None j cond : and_ref j cond None = None.
Proof. by destruct cond. Qed.

(** A mutation below a loop of a list keeps the length of the list. *)
Lemma len_of_modify_below a key i q f j :
  len_of a key (modify (a ++ Key key :: Idx i :: q) f j) = len_of a key j.
Proof.
  unfold len_of.
  change (a ++ Key key :: Idx i :: q) with (a ++ [Key key] ++ Idx i :: q).
  rewrite app_assoc, get_modify.
  destruct (get (a ++ [Key key]) j) as [[| |l|d]|]; simpl; try done.
  by rewrite length_alter.
Qed.

Lemma len_of_store a key key' value j :
  key <> key' -> len_of a key (set_item a key' value j) = len_of a key j.
Proof.
  intros Hne. unfold len_of, set_item. rewrite get_app, get_modify_same, get_app.
  destruct (get a j) as [[| |l|d]|]; simpl; try done.
  rewrite dict_get_set.
  destruct (String.eqb_spec key' key); [congruence|done].
Qed.

Lemma len_of_push a key value j l :
  get (a ++ [Key key]) j = Some (JList l) ->
  len_of a key (append a key value j) = S (len_of a key j).
Proof.
  intros Hl. unfold len_of, append. rewrite get_modify_same, Hl. simpl.
  rewrite length_app. simpl. lia.
Qed.

(** Appending to a list keeps what is below its items. *)
Lemma get_append_old a key value i q j o :
  get (a ++ Key key :: Idx i :: q) j = Some o ->
  get (a ++ Key key :: Idx i :: q) (append a key value j) = Some o.
Proof.
  unfold append.
  change (a ++ Key key :: Idx i :: q) with (a ++ [Key key] ++ Idx i :: q).
  rewrite !app_assoc, !(get_app (a ++ [Key key])), get_modify_same.
  destruct (get (a ++ [Key key]) j) as [[| |l|d]|]; simpl; try done.
  destruct (l !! i) as [x|] eqn:Hx; [|done].
  by rewrite (lookup_app_l_Some _ _ _ _ Hx).
Qed.

Section Facts.
Variable split_segment : string -> list string.

Local Abbreviation invariant := (invariant split_segment).
Local Abbreviation to_json_step := (to_json_step split_segment).
Local Abbreviation to_json_loop := (to_json_loop split_segment).
Local Abbreviation has_tag := (has_tag split_segment).
Local Abbreviation identifier_of := (identifier_of split_segment).

Lemma len_of_items r key j : len_of r key j = List.length (items r key j).
Proof.
  unfold len_of, items. by destruct (get (r ++ [Key key]) j) as [[| |l|d]|].
Qed.

(** The loop variables alias objects below a transaction. *)
Lemma ref_under st r :
  invariant st ->
  current_transaction st = Some r \/ current_n1_loop st = Some r
  \/ current_clp_loop st = Some r \/ current_svc_loop st = Some r ->
  exists t q, r = txn_ref t ++ q.
Proof.
  intros Hinv [Hr|[Hr|[Hr|Hr]]].
  - destruct (open_transaction split_segment st r Hinv Hr) as (t & o & -> & _).
    exists t, []. by rewrite app_nil_r.
  - destruct (open_n1_loop split_segment st r Hinv Hr)
      as (t & n & o & -> & _). by eexists _, _.
  - destruct (open_clp_loop split_segment st r Hinv Hr)
      as (t & c & o & -> & _). by eexists _, _.
  - destruct (open_svc_loop split_segment st r Hinv Hr)
      as (t & c & s & o & -> & _).
    exists t. eexists. unfold svc_ref, clp_ref. by rewrite <-app_assoc.
Qed.

Lemma len_modify_under r q f j :
  (exists t q', r = txn_ref t ++ q') ->
  len_of interchange "transactions" (modify (r ++ q) f j)
  = len_of interchange "transactions" j.
Proof.
  intros (t & q' & ->). unfold txn_ref. rewrite <-!app_assoc.
  apply len_of_modify_below.
Qed.

Lemma len_set_item r key value j :
  (exists t q, r = txn_ref t ++ q) ->
  len_of interchange "transactions" (set_item r key value j)
  = len_of interchange "transactions" j.
Proof.
  intros Hr. unfold set_item. rewrite <-(app_nil_r r).
  by apply len_modify_under.
Qed.

Lemma len_append r key value j :
  (exists t q, r = txn_ref t ++ q) ->
  len_of interchange "transactions" (append r key value j)
  = len_of interchange "transactions" j.
Proof. intros Hr. unfold append. by apply len_modify_under. Qed.

Lemma len_attach r key value j :
  (exists t q, r = txn_ref t ++ q) ->
  len_of interchange "transactions" (attach r key value j)
  = len_of interchange "transactions" j.
Proof.
  intros Hr. unfold attach. rewrite <-(app_nil_r r).
  by apply len_modify_under.
Qed.

Local Ltac evaluate :=
  cbn [String.eqb Ascii.eqb Bool.eqb json_data with_json
       current_transaction current_n1_loop current_clp_loop current_svc_loop].

Local Ltac loop_variables :=
  repeat (evaluate;
          match goal with
          | H : current_transaction ?st = _
            |- context [current_transaction ?st] => rewrite H
          | H : current_n1_loop ?st = _
            |- context [current_n1_loop ?st] => rewrite H
          | H : current_clp_loop ?st = _
            |- context [current_clp_loop ?st] => rewrite H
          | H : current_svc_loop ?st = _
            |- context [current_svc_loop ?st] => rewrite H
          | |- context [current_transaction ?st] =>
              is_var st; destruct (current_transaction st) eqn:?
          | |- context [current_n1_loop ?st] =>
              is_var st; destruct (current_n1_loop st) eqn:?
          | |- context [current_clp_loop ?st] =>
              is_var st; destruct (current_clp_loop st) eqn:?
          | |- context [current_svc_loop ?st] =>
              is_var st; destruct (current_svc_loop st) eqn:?
          end);
  evaluate.

Local Ltac by_tag identifier tac :=
  destruct (String.eqb_spec identifier "ISA") as [->|?]; [solve [tac]|];
  destruct (String.eqb_spec identifier "GS") as [->|?]; [solve [tac]|];
  destruct (String.eqb_spec identifier "ST") as [->|?]; [solve [tac]|];
  destruct (String.eqb_spec identifier "BPR") as [->|?]; [solve [tac]|];
  destruct (String.eqb_spec identifier "TRN") as [->|?]; [solve [tac]|];
  destruct (String.eqb_spec identifier "DTM") as [->|?]; [solve [tac]|];
  destruct (String.eqb_spec identifier "N1") as [->|?]; [solve [tac]|];
  destruct (String.eqb_spec identifier "N3") as [->|?]; [solve [tac]|];
  destruct (String.eqb_spec identifier "N4") as [->|?]; [solve [tac]|];
  destruct (String.eqb_spec identifier "PER") as [->|?]; [solve [tac]|];
  destruct (String.eqb_spec identifier "REF") as [->|?]; [solve [tac]|];
  destruct (String.eqb_spec identifier "LX") as [->|?]; [solve [tac]|];
  destruct (String.eqb_spec identifier "CLP") as [->|?]; [solve [tac]|];
  destruct (String.eqb_spec identifier "CAS") as [->|?]; [solve [tac]|];
  destruct (String.eqb_spec identifier "NM1") as [->|?]; [solve [tac]|];
  destruct (String.eqb_spec identifier "AMT") as [->|?]; [solve [tac]|];
  destruct (String.eqb_spec identifier "SVC") as [->|?]; [solve [tac]|];
  destruct (String.eqb_spec identifier "PLB") as [->|?]; [solve [tac]|];
  destruct (String.eqb_spec identifier "SE") as [->|?]; [solve [tac]|];
  destruct (String.eqb_spec identifier "GE") as [->|?]; [solve [tac]|];
  destruct (String.eqb_spec identifier "IEA") as [->|?]; [solve [tac]|].

Local Ltac normalize Hinv :=
  rewrite !(and_ref_transaction split_segment _ _ Hinv),
    !(and_ref_n1_loop split_segment _ _ Hinv),
    !(and_ref_clp_loop split_segment _ _ Hinv),
    !(and_ref_svc_loop split_segment _ _ Hinv);
  cbv zeta.

(** Only a header record changes the number of transactions. *)
Lemma step_len_other st segment :
  invariant st -> has_tag "ST" segment = false ->
  len_of interchange "transactions" (json_data (to_json_step st segment))
  = len_of interchange "transactions" (json_data st).
Proof.
  intros Hinv. unfold Records.has_tag, Json.identifier_of, Json.to_json_step.
  destruct (truthy segment); [|done]. cbn [negb andb].
  generalize (match split_segment segment with
              | [] => ""
              | tag :: _ => tag
              end). intros identifier Hst%String.eqb_neq.
  normalize Hinv.
  by_tag identifier
    ltac:(loop_variables; evaluate; try done;
          first [ apply len_of_store; discriminate
                | apply len_set_item; eapply ref_under; eauto
                | apply len_append; eapply ref_under; eauto
                | apply len_attach; eapply ref_under; eauto ]).
  done.
Qed.

Lemma step_len_header st segment :
  invariant st -> has_tag "ST" segment = true ->
  len_of interchange "transactions" (json_data (to_json_step st segment))
  = S (len_of interchange "transactions" (json_data st)).
Proof.
  intros [Hdoc _]. unfold Records.has_tag, Json.identifier_of, Json.to_json_step.
  destruct (truthy segment); [|done]. cbn [negb andb].
  intros ->%String.eqb_eq. evaluate.
  destruct (document_transactions split_segment _ Hdoc) as [l Hl].
  by eapply len_of_push.
Qed.

Lemma fold_len segments :
  forall st,
    invariant st ->
    len_of interchange "transactions"
      (json_data (fold_left to_json_step segments st))
    = len_of interchange "transactions" (json_data st)
      + List.length (filter (fun s => has_tag "ST" s) segments).
Proof.
  induction segments as [|segment segments IH]; intros st Hinv; simpl.
  { lia. }
  rewrite IH by by apply step_invariant.
  rewrite filter_cons.
  destruct (has_tag "ST" segment) eqn:Htag.
  - rewrite decide_True by exact I. rewrite step_len_header by done.
    simpl. lia.
  - rewrite decide_False by (intros []). by rewrite step_len_other.
Qed.

(** X17. The hierarchical view has one transaction per header record:
    the list [transactions] is as long as the number of [ST] records of the
    file, whether they are closed by a trailer or not, and wherever they
    stand. *)
Theorem to_json_transactions_count (file_content : string) :
  List.length (items interchange "transactions"
                 (to_json split_segment file_content))
  = List.length (filter (fun s => has_tag "ST" s)
                   (Preprocess.to_json_segments file_content)).
Proof.
  unfold to_json, Json.to_json_loop. rewrite <-len_of_items.
  rewrite fold_len by apply initial_invariant. done.
Qed.

(** The transaction variable follows the header and trailer records, and
    an organization is open only while a transaction is. *)
Lemma step_tracks st segment (b : bool) :
  invariant st ->
  (is_Some (current_transaction st) <-> b = true) ->
  (current_transaction st = None -> current_n1_loop st = None) ->
  (is_Some (current_transaction (to_json_step st segment))
   <-> opens split_segment b segment = true)
  /\ (current_transaction (to_json_step st segment) = None ->
      current_n1_loop (to_json_step st segment) = None).
Proof.
  intros Hinv.
  unfold opens, Records.has_tag, Json.identifier_of, Json.to_json_step.
  destruct (truthy segment); [|done]. cbn [negb andb].
  generalize (match split_segment segment with
              | [] => ""
              | tag :: _ => tag
              end). intros identifier.
  normalize Hinv.
  by_tag identifier
    ltac:(loop_variables; evaluate; rewrite ?is_Some_alt;
          intuition (auto; discriminate)).
  done.
Qed.

Lemma fold_tracks segments :
  forall st b,
    invariant st ->
    (is_Some (current_transaction st) <-> b = true) ->
    (current_transaction st = None -> current_n1_loop st = None) ->
    (is_Some (current_transaction (fold_left to_json_step segments st))
     <-> fold_left (opens split_segment) segments b = true)
    /\ (current_transaction (fold_left to_json_step segments st) = None ->
        current_n1_loop (fold_left to_json_step segments st) = None).
Proof.
  induction segments as [|segment segments IH]; intros st b Hinv Hb Hn; simpl.
  { done. }
  destruct (step_tracks st segment b Hinv Hb Hn) as [Hb' Hn'].
  apply IH; [by apply step_invariant|done..].
Qed.

(** Outside the transactions no loop variable is set. *)
Lemma closed_state segments :
  inside split_segment segments = false ->
  let st := to_json_loop segments in
  current_transaction st = None /\ current_n1_loop st = None
  /\ current_clp_loop st = None /\ current_svc_loop st = None.
Proof.
  intros Hout st.
  pose proof (loop_invariant split_segment segments) as Hinv. fold st in Hinv.
  destruct (fold_tracks segments initial_state false) as [Ht Hn].
  { apply initial_invariant. }
  { simpl. split; [by intros [? ?]|done]. }
  { done. }
  fold (inside split_segment segments) in Ht. rewrite Hout in Ht.
  assert (current_transaction st = None) as Htxn.
  { destruct (current_transaction st) as [r|] eqn:Hr; [|done].
    subst st. unfold Json.to_json_loop in Hr. rewrite Hr in Ht.
    discriminate (proj1 Ht (mk_is_Some _ _ eq_refl)). }
  assert (current_clp_loop st = None) as Hclp.
  { destruct (current_clp_loop st) as [r|] eqn:Hr; [|done].
    destruct (open_clp_loop split_segment st r Hinv Hr)
      as (? & ? & ? & _ & _ & _ & [? Hsome]). congruence. }
  split_and!; [done|by apply Hn|done|].
  destruct (current_svc_loop st) as [r|] eqn:Hr; [|done].
  destruct (open_svc_loop split_segment st r Hinv Hr)
    as (? & ? & ? & ? & _ & _ & _ & Hsome). congruence.
Qed.

(** X18. Outside the transactions, that is before the first [ST] record
    and between an [SE] record and the next [ST] record, [to_json] drops
    every record that is not an [ISA], [GS], [ST], [GE] or [IEA] record: the
    view is the one of the document without the record. *)
Theorem records_outside_transactions_dropped (pre post : list string)
    (segment : string) :
  inside split_segment pre = false ->
  identifier_of segment ∉ envelope_tags ->
  to_json_loop (pre ++ segment :: post) = to_json_loop (pre ++ post).
Proof.
  intros Hout Htag. destruct (closed_state pre Hout) as (Ht & Hn & Hc & Hs).
  unfold Json.to_json_loop in *. rewrite !fold_left_app. cbn [fold_left].
  f_equal. revert Ht Hn Hc Hs.
  generalize (fold_left to_json_step pre initial_state).
  intros st Ht Hn Hc Hs.
  unfold Json.to_json_step.
  destruct (truthy segment); [|done]. cbn [negb]. cbv zeta.
  rewrite Ht, Hn, Hc, Hs, !and_ref_None. unfold Json.identifier_of in Htag. revert Htag.
  generalize (match split_segment segment with
              | [] => ""
              | tag :: _ => tag
              end). intros identifier Htag.
  destruct (String.eqb_spec identifier "ISA") as [->|_].
  { exfalso. apply Htag. by repeat constructor. }
  destruct (String.eqb_spec identifier "GS") as [->|_].
  { exfalso. apply Htag. by repeat constructor. }
  destruct (String.eqb_spec identifier "ST") as [->|_].
  { exfalso. apply Htag. by repeat constructor. }
  destruct (String.eqb_spec identifier "GE") as [->|_].
  { exfalso. apply Htag. by repeat constructor. }
  destruct (String.eqb_spec identifier "IEA") as [->|_].
  { exfalso. apply Htag. by repeat constructor. }
  done.
Qed.

Lemma step_unhandled st segment :
  identifier_of segment ∉ handled_tags -> to_json_step st segment = st.
Proof.
  unfold Json.identifier_of, Json.to_json_step.
  destruct (truthy segment); [|done]. cbn [negb]. cbv zeta.
  generalize (match split_segment segment with
              | [] => ""
              | tag :: _ => tag
              end). intros identifier Htag.
  by_tag identifier
    ltac:(first [ exfalso; apply Htag; by repeat constructor
                | unfold and_ref; evaluate; repeat case_match; done ]).
  done.
Qed.

(** X19. A record whose tag is none of the twenty tags with a branch of
    their own, the tag [LX] and the empty tag included, leaves no trace in
    the hierarchical view, wherever it stands: the view is the one of the
    document without the record. *)
Theorem unhandled_records_dropped (pre post : list string) (segment : string) :
  identifier_of segment ∉ handled_tags ->
  to_json_loop (pre ++ segment :: post) = to_json_loop (pre ++ post).
Proof.
  intros Htag. unfold Json.to_json_loop. rewrite !fold_left_app. simpl.
  by rewrite step_unhandled.
Qed.

Lemma step_header st segment :
  has_tag "ST" segment = true ->
  to_json_step st segment
  = {| json_data :=
         append interchange "transactions"
           (JDict [ ("ST", _convert_st_segment split_segment segment);
                    ("BPR", JNone); ("TRN", JNone); ("DTM", JList []);
                    ("N1_loop", JList []); ("CLP_loop", JList []);
                    ("PLB", JList []); ("SE", JNone) ])
           (json_data st);
       current_transaction :=
         Some (txn_ref (len_of interchange "transactions" (json_data st)));
       current_n1_loop := current_n1_loop st;
       current_clp_loop := current_clp_loop st;
       current_svc_loop := current_svc_loop st |}.
Proof.
  unfold Records.has_tag, Json.identifier_of, Json.to_json_step.
  destruct (truthy segment); [|done]. cbn [negb andb].
  by intros ->%String.eqb_eq.
Qed.

Lemma step_name st segment :
  invariant st -> has_tag "NM1" segment = true ->
  to_json_step st segment
  = match current_clp_loop st with
    | Some clp =>
        with_json st (append clp "NM1"
                        (_convert_nm1_segment split_segment segment)
                        (json_data st))
    | None => st
    end.
Proof.
  intros Hinv.
  unfold Records.has_tag, Json.identifier_of, Json.to_json_step.
  destruct (truthy segment); [|done]. cbn [negb andb].
  intros ->%String.eqb_eq. normalize Hinv. evaluate.
  by destruct (current_clp_loop st).
Qed.

(** The list of names of an open claim. *)
Lemma open_claim_names st t c :
  invariant st -> current_clp_loop st = Some (clp_ref t c) ->
  exists l, get (clp_ref t c ++ [Key "NM1"]) (json_data st) = Some (JList l).
Proof.
  intros Hinv Hclp.
  destruct (open_clp_loop split_segment st _ Hinv Hclp)
    as (t' & c' & o & _ & Ho & Hshape & _).
  destruct (clp_loop_list split_segment "NM1" o) as [l Hl];
    [by repeat constructor|done|].
  exists l. by eapply get_list_under.
Qed.

(** X20. A header record does not close the open claim.  When an [ST]
    record arrives while a claim is open, which is the case when the [SE]
    record of the transaction is missing, the claim stays open: a name
    record that follows is filed in that claim, which lies in an earlier
    transaction than the one the header has opened. *)
Theorem header_keeps_open_claim (st : state) (clp : ref)
    (header segment : string) :
  invariant st -> current_clp_loop st = Some clp ->
  has_tag "ST" header = true -> has_tag "NM1" segment = true ->
  let st' := to_json_step (to_json_step st header) segment in
  exists t c,
    clp = clp_ref t c
    /\ t < len_of interchange "transactions" (json_data st)
    /\ current_transaction st'
       = Some (txn_ref (len_of interchange "transactions" (json_data st)))
    /\ current_clp_loop st' = Some clp
    /\ items clp "NM1" (json_data st')
       = items clp "NM1" (json_data st)
         ++ [_convert_nm1_segment split_segment segment].
Proof.
  intros Hinv Hclp Hheader Hname st'.
  destruct (open_clp_loop split_segment st clp Hinv Hclp)
    as (t & c & o & -> & Ho & _ & _).
  exists t, c. split; [done|].
  pose proof (step_invariant split_segment st header Hinv) as Hinv1.
  assert (current_clp_loop (to_json_step st header) = Some (clp_ref t c))
    as Hclp1 by by rewrite step_header.
  subst st'. rewrite (step_name _ _ Hinv1 Hname), Hclp1.
  destruct (open_claim_names st t c Hinv Hclp) as [l Hl].
  destruct (open_claim_names _ t c Hinv1 Hclp1) as [l1 Hl1].
  split_and!.
  - destruct Hinv as [Hdoc _].
    destruct (document_transactions split_segment _ Hdoc) as [txns Htxns].
    unfold len_of. rewrite Htxns.
    unfold clp_ref, txn_ref in Ho. rewrite <-!app_assoc in Ho.
    change (interchange ++ [Key "transactions"; Idx t]
            ++ [Key "CLP_loop"; Idx c])
      with (interchange ++ [Key "transactions"] ++ Idx t
            :: [Key "CLP_loop"; Idx c]) in Ho.
    rewrite app_assoc, get_app, Htxns in Ho. simpl in Ho.
    apply lookup_lt_is_Some. by destruct (txns !! t).
  - by rewrite step_header.
  - done.
  - cbn [json_data with_json].
    rewrite (items_append _ _ _ _ _ Hl1). f_equal.
    unfold items. rewrite Hl1, Hl. revert Hl1.
    rewrite step_header by done. cbn [json_data].
    unfold clp_ref, txn_ref. rewrite <-!app_assoc. cbn [app].
    unfold clp_ref, txn_ref in Hl. rewrite <-!app_assoc in Hl. cbn [app] in Hl.
    rewrite (get_append_old _ _ _ _ _ _ _ Hl). congruence.
Qed.

End Facts.

Import Samples MoreSamples.

Lemma records_outside_transactions_dropped_witness :
  to_json_loop SpecModel.split_segment
    (["ISA*00"; "ST*835*0001"; "SE*2*0001"] ++ "CLP*7*1*100" :: ["IEA*1"])
  = to_json_loop SpecModel.split_segment
      (["ISA*00"; "ST*835*0001"; "SE*2*0001"] ++ ["IEA*1"]).
Proof.
  apply (records_outside_transactions_dropped SpecModel.split_segment).
  - reflexivity.
  - unfold envelope_tags. intros Htag.
    repeat (apply elem_of_cons in Htag as [Htag|Htag]; [discriminate Htag|]).
    by apply elem_of_nil in Htag.
Defined.

Lemma unhandled_records_dropped_witness :
  to_json_loop SpecModel.split_segment
    (["ST*835*0001"] ++ "LX*1" :: ["CLP*7*1*100"; "SE*4*0001"])
  = to_json_loop SpecModel.split_segment
      (["ST*835*0001"] ++ ["CLP*7*1*100"; "SE*4*0001"]).
Proof.
  apply (unhandled_records_dropped SpecModel.split_segment).
  unfold handled_tags. intros Htag.
  repeat (apply elem_of_cons in Htag as [Htag|Htag]; [discriminate Htag|]).
  by apply elem_of_nil in Htag.
Defined.

Lemma header_keeps_open_claim_witness :
  exists t c,
    clp_ref 0 0 = clp_ref t c
    /\ t < 1
    /\ current_transaction
         (to_json_loop SpecModel.split_segment unclosed_transaction)
       = Some (txn_ref 1)
    /\ current_clp_loop
         (to_json_loop SpecModel.split_segment unclosed_transaction)
       = Some (clp_ref 0 0)
    /\ items (clp_ref 0 0) "NM1"
         (json_data (to_json_loop SpecModel.split_segment unclosed_transaction))
       = [] ++ [_convert_nm1_segment SpecModel.split_segment "NM1*QC*1*DOE"].
Proof.
  apply (header_keeps_open_claim SpecModel.split_segment
           (to_json_loop SpecModel.split_segment
              ["ST*835*0001"; "CLP*7*1*100"])
           (clp_ref 0 0) "ST*835*0002" "NM1*QC*1*DOE").
  - apply loop_invariant.
  - reflexivity.
  - reflexivity.
  - reflexivity.
Defined.

End DocumentFacts.

(** ** The entry points on a path *)
Module EntryFacts.
Import Py Assembler Package Batch PackageFacts PipelineFacts Samples
  MoreSamples.

Section Facts.
Context `{Imports}.
Variable expanduser : string -> string.
Variable isdir : string -> bool.
Variable listdir : string -> list string.

Local Abbreviation files := (gmap string string).

(** X21. The empty path is an error of its own: [parse] and
    [parse_to_json] read the first character of the path before anything
    else, so on the empty path both raise [IndexError], with or without
    [debug], and touch no file. *)
Theorem empty_path_raises (fuel : nat) (fs : files) (debug preprocess : bool) :
  parse_to_json expanduser isdir listdir fuel fs "" debug preprocess
  = Some (Raise IndexError, fs)
  /\ parse expanduser isdir listdir fuel fs "" debug preprocess
     = Some (Raise IndexError, fs).
Proof. done. Qed.

(** X22. A file that needs no preprocessing is read twice: the view that
    [parse_to_json] returns is computed from the content of the file and not
    from the transaction set, which only has to build.  No temporary file is
    written; but without [debug] the file itself is removed when its name
    ends in [.processed.tmp]. *)
Theorem parse_file_to_json_plain (fuel : nat) (fs : files)
    (path content : string) (debug preprocess : bool) (ts : TransactionSet) :
  fs !! path = Some content ->
  (preprocess = true -> Preprocess.needs_preprocessing content = false) ->
  build fuel content path = Some (Ok ts) ->
  parse_file_to_json fuel fs path debug preprocess
  = Some (Ok (Json.to_json split_segment content),
          if negb debug && endswith path ".processed.tmp"
          then delete path fs else fs).
Proof.
  intros Hfile Hplain Hbuild.
  unfold parse_file_to_json.
  rewrite _build_transaction_set_plain
    by (intros Hp content' Hc; rewrite Hfile in Hc; injection Hc as <-; auto).
  unfold build_file, read. rewrite Hfile, Hbuild. simpl.
  unfold TransactionSet_to_json, read.
  rewrite (build_file_path _ _ _ _ Hbuild), Hfile. simpl.
  destruct debug; simpl; [done|].
  by destruct (endswith path ".processed.tmp").
Qed.

End Facts.

Import SpecInstance.

Lemma parse_file_to_json_plain_witness :
  parse_file_to_json 10 outbox_files "outbox/a.835" false true
  = Some (Ok (Json.to_json SpecModel.split_segment bare_transaction),
          outbox_files).
Proof.
  apply (@parse_file_to_json_plain spec_imports 10 outbox_files
           "outbox/a.835" bare_transaction false true outbox_a).
  - reflexivity.
  - reflexivity.
  - reflexivity.
Defined.

End EntryFacts.

(** ** The names of the output files of the test runner *)
Module RunnerFacts.
Import Py Runner PreprocessFacts.

Lemma replace_app old new s t :
  replace old new (s +:+ t) = replace old new s +:+ replace old new t.
Proof.
  induction s as [|c s IH]; simpl; [done|].
  destruct (Ascii.eqb c old); simpl; rewrite IH; [|done].
  by rewrite TokenizerFacts.append_assoc.
Qed.

Lemma replace_length old c s :
  String.length (replace old (String c "") s) = String.length s.
Proof.
  induction s as [|a s IH]; [done|]. cbn [replace].
  destruct (Ascii.eqb a old).
  - change (S (String.length (replace old (String c "") s))
            = S (String.length s)). by rewrite IH.
  - change (S (String.length (replace old (String c "") s))
            = S (String.length s)). by rewrite IH.
Qed.

Lemma safe_name_app s t : safe_name (s +:+ t) = safe_name s +:+ safe_name t.
Proof. unfold safe_name. by rewrite !replace_app. Qed.

(** X23. The safe name of a file has no blank, dash or dot, is as long as
    the stem it is made from, and is its own safe name. *)
Theorem safe_name_clean (stem : string) :
  occurs " " (safe_name stem) = false
  /\ occurs "-" (safe_name stem) = false
  /\ occurs "." (safe_name stem) = false
  /\ String.length (safe_name stem) = String.length stem
  /\ safe_name (safe_name stem) = safe_name stem.
Proof.
  assert (forall c, c ∈ [" "; "-"; "."]%char ->
                    occurs c (safe_name stem) = false) as Hclean.
  { intros c Hc. unfold safe_name. rewrite !occurs_replace.
    repeat (apply elem_of_cons in Hc as [->|Hc]);
      [| | |by apply elem_of_nil in Hc]; simpl;
      rewrite ?andb_false_r, ?andb_true_r, ?orb_false_r; done. }
  split_and!.
  - apply Hclean. by repeat constructor.
  - apply Hclean. by repeat constructor.
  - apply Hclean. by repeat constructor.
  - unfold safe_name. by rewrite !replace_length.
  - unfold safe_name at 1.
    rewrite (replace_absent " ") by (apply Hclean; by repeat constructor).
    rewrite (replace_absent "-") by (apply Hclean; by repeat constructor).
    rewrite (replace_absent ".") by (apply Hclean; by repeat constructor).
    done.
Qed.

(** X24. The safe name does not tell a blank, a dash, a dot and an
    underscore apart: two test files whose stems differ only in these
    characters at one place get the same output file, and the later run
    overwrites the earlier. *)
Theorem output_name_collision (s t : string) (c c' : ascii) :
  c ∈ [" "; "-"; "."; "_"]%char -> c' ∈ [" "; "-"; "."; "_"]%char ->
  output_name (s +:+ String c t) = output_name (s +:+ String c' t).
Proof.
  intros Hc Hc'. unfold output_name. f_equal.
  change (String c t) with (String c "" +:+ t).
  change (String c' t) with (String c' "" +:+ t).
  rewrite !safe_name_app. f_equal. f_equal.
  repeat (apply elem_of_cons in Hc as [->|Hc]);
    [| | | |by apply elem_of_nil in Hc];
    repeat (apply elem_of_cons in Hc' as [->|Hc']);
    try (by apply elem_of_nil in Hc'); reflexivity.
Qed.

Lemma output_name_collision_witness :
  output_name ("claims" +:+ String "-" "2020") 
  = output_name ("claims" +:+ String "." "2020").
Proof.
  apply (output_name_collision "claims" "2020" "-" ".").
  - by repeat constructor.
  - by repeat constructor.
Defined.

End RunnerFacts.
